(** * Stealth AI Ops Assistant: memory and orchestration layer

    A shallow embedding of the context store (client cache and name
    extraction), the feedback handler (feedback persistence and the cached
    feedback patterns) and the model request of [processWithAI] (retry loop
    and response parsing), with the properties of each. *)

From Stdlib Require Import List ZArith NArith Bool Lia String Ascii QArith Qabs.
From Stdlib Require Import DecimalString Permutation Sorted.
Import ListNotations.

Set Implicit Arguments.
Set Warnings "-register-all".
Local Open Scope Z_scope.

(** ** JavaScript strings

    A JavaScript string is a sequence of UTF-16 code units. *)

Module JsString.

Definition jsstring := list N.

(** The code units of a literal written in ASCII. *)
Fixpoint js (s : string) : jsstring :=
  match s with
  | EmptyString => []
  | String c rest => N_of_ascii c :: js rest
  end.

Definition eqb (a b : jsstring) : bool :=
  if list_eq_dec N.eq_dec a b then true else false.

(** [Array.prototype.includes] on an array of strings. *)
Definition includes (l : list jsstring) (x : jsstring) : bool :=
  existsb (eqb x) l.

(** A string is truthy when it is not empty. *)
Definition truthy (s : jsstring) : bool :=
  match s with [] => false | _ => true end.

(** WhiteSpace and LineTerminator code units of ECMAScript: the class [\s]
    of regular expressions and the characters removed by [trim]. *)
Definition is_space (c : N) : bool :=
  ((9 <=? c) && (c <=? 13) || (c =? 32) || (c =? 160) || (c =? 5760)
   || (8192 <=? c) && (c <=? 8202) || (c =? 8232) || (c =? 8233)
   || (c =? 8239) || (c =? 8287) || (c =? 12288) || (c =? 65279))%N.

Definition is_upper (c : N) : bool := ((65 <=? c) && (c <=? 90))%N.
Definition is_lower (c : N) : bool := ((97 <=? c) && (c <=? 122))%N.
Definition is_digit (c : N) : bool := ((48 <=? c) && (c <=? 57))%N.

(** The class [\w]: [A-Za-z0-9_]. *)
Definition is_word (c : N) : bool :=
  is_upper c || is_lower c || is_digit c || (c =? 95)%N.

Fixpoint trimStart (s : jsstring) : jsstring :=
  match s with
  | c :: rest => if is_space c then trimStart rest else s
  | [] => []
  end.

Definition trimEnd (s : jsstring) : jsstring := rev (trimStart (rev s)).

Definition trim (s : jsstring) : jsstring := trimEnd (trimStart s).

(** [s.split(/[...]+/)] for a class [sep] of code units: the pieces between
    maximal runs of separators; a leading or trailing run leaves an empty
    piece at that end, and the empty string gives one empty piece. [cur] is
    the piece being read, reversed; [in_run] tells that the previous code
    unit was a separator. *)
Fixpoint split_runs_from (sep : N -> bool) (in_run : bool) (cur : jsstring)
    (s : jsstring) : list jsstring :=
  match s with
  | [] => [rev cur]
  | c :: rest =>
      if sep c then
        if in_run then split_runs_from sep true cur rest
        else rev cur :: split_runs_from sep true [] rest
      else split_runs_from sep false (c :: cur) rest
  end.

Definition split_runs (sep : N -> bool) (s : jsstring) : list jsstring :=
  split_runs_from sep false [] s.

(** [s.split(/\s+/)] *)
Definition split_ws (s : jsstring) : list jsstring := split_runs is_space s.

(** Case folding of the [i] flag on the ASCII letters. A pattern made of
    ASCII characters matches, under [i], exactly the code units that are
    equal to it up to the case of ASCII letters. *)
Definition ascii_upper (c : N) : N := if is_lower c then (c - 32)%N else c.

Definition eq_ci (a b : N) : bool := (ascii_upper a =? ascii_upper b)%N.

Fixpoint prefix_by (eqc : N -> N -> bool) (p s : jsstring) : bool :=
  match p, s with
  | [], _ => true
  | _ :: _, [] => false
  | a :: p', b :: s' => eqc a b && prefix_by eqc p' s'
  end.

(** [s.split(sep)] for a separator string that is not empty. [skip] counts
    the code units of a separator that was just found and are still to be
    passed over. *)
Fixpoint split_str_from (sep : jsstring) (skip : nat) (cur : jsstring)
    (s : jsstring) : list jsstring :=
  match s with
  | [] => [rev cur]
  | c :: rest =>
      match skip with
      | S k => split_str_from sep k cur rest
      | O =>
          if prefix_by N.eqb sep s
          then rev cur :: split_str_from sep (List.length sep - 1) [] rest
          else split_str_from sep 0 (c :: cur) rest
      end
  end.

Definition split_str (sep : jsstring) (s : jsstring) : list jsstring :=
  split_str_from sep 0 [] s.

(** [s.includes(p)]. *)
Fixpoint contains (p s : jsstring) : bool :=
  prefix_by N.eqb p s ||
  match s with
  | [] => false
  | _ :: rest => contains p rest
  end.

(** The part of [s] after the leftmost occurrence of [p] under [eqc]. *)
Fixpoint after_first (eqc : N -> N -> bool) (p s : jsstring)
  : option jsstring :=
  if prefix_by eqc p s then Some (skipn (List.length p) s)
  else match s with
       | [] => None
       | _ :: rest => after_first eqc p rest
       end.

(** The part of [s] before the leftmost occurrence of [p] under [eqc],
    all of [s] when there is none. *)
Fixpoint before_first (eqc : N -> N -> bool) (p s : jsstring) : jsstring :=
  if prefix_by eqc p s then []
  else match s with
       | [] => []
       | c :: rest => c :: before_first eqc p rest
       end.

Definition join (sep : jsstring) (parts : list jsstring) : jsstring :=
  match parts with
  | [] => []
  | p :: ps => fold_left (fun acc q => acc ++ sep ++ q) ps p
  end.

End JsString.

Import JsString.

(** ** Name extraction of the context store *)

Module Names.

(** The fixed list [commonWords] of [isCommonWord]. *)
Definition commonWords : list jsstring :=
  map js
    ["The"; "A"; "An"; "And"; "But"; "Or"; "For"; "Nor"; "As"; "At";
     "By"; "For"; "From"; "In"; "Into"; "Near"; "Of"; "On"; "To"; "With";
     "Monday"; "Tuesday"; "Wednesday"; "Thursday"; "Friday"; "Saturday";
     "Sunday";
     "January"; "February"; "March"; "April"; "May"; "June"; "July";
     "August"; "September"; "October"; "November"; "December";
     "I"; "You"; "He"; "She"; "It"; "We"; "They"]%string.

Definition isCommonWord (word : jsstring) : bool := includes commonWords word.

(** [words[i].replace(/[^\w\s]/g, '')] *)
Definition strip_punct (w : jsstring) : jsstring :=
  filter (fun c => is_word c || is_space c) w.

(** [/^[A-Z]/.test(word)] *)
Definition starts_upper (word : jsstring) : bool :=
  match word with
  | c :: _ => is_upper c
  | [] => false
  end.

(** The test made on [word] and on [nextWord]:
    [word.length > 1 && /^[A-Z]/.test(word) && !isCommonWord(word)]. *)
Definition name_word (word : jsstring) : bool :=
  (1 <? List.length word)%nat && starts_upper word && negb (isCommonWord word).

(** The loops of [extractNamesFromText] over the array [words]. The outer
    loop reads [words[i]]; on a name word the inner loop ([while (j <
    words.length)]) appends the following name words to [name], and at the
    first word that is not one ([break]) or at the end of the array the name
    is pushed and the outer loop goes on from index [j]. *)
Fixpoint names_from (words : list jsstring) : list jsstring :=
  match words with
  | [] => []
  | w :: rest =>
      let word := strip_punct w in
      if name_word word then
        (fix extend (name : jsstring) (ws : list jsstring) {struct ws}
           : list jsstring :=
           match ws with
           | [] => [name]
           | w' :: rest' =>
               let nextWord := strip_punct w' in
               if name_word nextWord
               then extend (name ++ js " " ++ nextWord) rest'
               else name :: names_from ws
           end) word rest
      else names_from rest
  end.

Definition extractNamesFromText (text : jsstring) : list jsstring :=
  names_from (split_ws text).

End Names.

Import Names.

(** ** Rows, requests and module state *)

Module Data.

(** An instant, in milliseconds since the epoch: what [new Date(s)] gives
    for the ISO string [s] of a row and what [Date.now()] returns. *)
Definition Timestamp := Z.

(** The free-form [profile] object of a client. *)
Definition Profile := list (jsstring * jsstring).

(** A row of the table [clients]. An [id] that is missing is the empty
    string, the other way for [client.id] to be falsy. *)
Record Client := mkClient {
  client_id : jsstring;
  client_name : jsstring;
  client_profile : Profile;
  last_mentioned : option Timestamp;
  client_created_at : option Timestamp;
  client_updated_at : option Timestamp
}.

(** A row of the table [projects]. *)
Record Project := mkProject {
  project_id : jsstring;
  project_name : jsstring;
  project_client_id : jsstring;
  project_updated_at : option Timestamp
}.

(** The object inserted by [createClient]. *)
Record ClientInsert := mkClientInsert {
  ci_name : jsstring;
  ci_profile : Profile;
  ci_last_mentioned : Timestamp;
  ci_created_at : Timestamp;
  ci_updated_at : Timestamp
}.

(** The object [updates] of [updateClientLastMentioned]. *)
Record ClientUpdates := mkClientUpdates {
  cu_last_mentioned : Timestamp;
  cu_updated_at : Timestamp
}.

(** The argument [clientData] of [createClient]. *)
Record ClientData := mkClientData {
  cd_name : option jsstring;
  cd_profile : option Profile
}.

(** An element of the array given to [getRelevantClientContext]: a Slack
    message, a Zendesk ticket, a Harvest time entry or an email. [None] is a
    property that is missing; [client_details] holds [client_details.name]. *)
Record Item := mkItem {
  item_text : option jsstring;
  item_subject : option jsstring;
  item_client_details : option (option jsstring);
  item_body : option jsstring
}.

(** The object returned by [getRelevantClientContext]. *)
Record Bundle := mkBundle { bundle_clients : list Client }.

(** The object [feedbackData] inserted by [storeFeedback]. *)
Record FeedbackData := mkFeedbackData {
  fd_summary_id : jsstring;
  fd_rating : jsstring;
  fd_comment : jsstring;
  fd_created_at : Timestamp;
  fd_user_id : option jsstring
}.

(** A row of the table [feedback]. *)
Record Feedback := mkFeedback {
  feedback_id : jsstring;
  fb_summary_id : option jsstring;
  fb_rating : jsstring;
  fb_comment : jsstring;
  fb_created_at : option Timestamp;
  fb_user_id : option jsstring
}.

(** A row of the table [summaries]. *)
Record Summary := mkSummary {
  summary_id : jsstring;
  summary_source : option jsstring;
  summary_summary : option jsstring;
  summary_created_at : option Timestamp
}.

(** The row inserted into [feedback_patterns]. *)
Record FeedbackPattern := mkFeedbackPattern {
  fp_summary_id : jsstring;
  fp_rating : jsstring;
  fp_source : option jsstring;
  fp_pattern_type : jsstring;
  fp_content : option jsstring;
  fp_user_edit : option jsstring;
  fp_created_at : Timestamp
}.

(** A row of the table [edit_analyses]. JavaScript numbers that come from a
    division are kept as exact rationals. *)
Record EditAnalysis := mkEditAnalysis {
  ea_summary_id : jsstring;
  ea_original_length : nat;
  ea_edited_length : nat;
  ea_length_change_percent : Q;
  ea_tone_change : option jsstring;
  ea_style_change : option jsstring;
  ea_created_at : option Timestamp
}.

(** The row inserted into [rejection_analyses]. *)
Record RejectionAnalysis := mkRejectionAnalysis {
  ra_summary_id : jsstring;
  ra_source : option jsstring;
  ra_content : option jsstring;
  ra_similar_rejections : nat;
  ra_created_at : Timestamp
}.

(** The row inserted into [analytics]. *)
Record Analytics := mkAnalytics {
  an_event_type : jsstring;
  an_source : option jsstring;
  an_rating : jsstring;
  an_has_comment : bool;
  an_timestamp : Timestamp
}.

(** The [error] of a Supabase answer. *)
Record PgError := mkPgError {
  pg_code : option jsstring;
  pg_message : jsstring
}.

(** The answer [{ data, error }] of a Supabase query. *)
Record Response (A : Type) := mkResponse {
  data : option A;
  error : option PgError
}.

(** The body of the chat completion request of [processWithAI]. *)
Record ChatRequest := mkChatRequest {
  req_model : jsstring;
  req_system : jsstring;
  req_user : jsstring
}.

(** [choices[0].message.content] of a completion: a string, [null], or no
    such property. *)
Inductive Content :=
| ContentText (s : jsstring)
| ContentNull
| ContentMissing.

(** [response.data] of a completion that axios resolved. *)
Record ChatCompletion := mkChatCompletion {
  choices : list Content;
  total_tokens : option N
}.

(** A JSON value, as [JSON.parse] returns it. A number keeps its text. *)
Inductive Json :=
| JNull
| JBool (b : bool)
| JNumber (text : jsstring)
| JString (s : jsstring)
| JArray (items : list Json)
| JObject (members : list (jsstring * Json)).

(** An exception: an [Error] with its [message]. *)
Inductive Exn := JsError (message : jsstring).

Definition exn_message (e : Exn) : jsstring :=
  match e with JsError m => m end.

(** The object returned by [getFeedbackStats]; [editRate] and
    [rejectionRate] are missing from the objects of its early returns. *)
Record Stats := mkStats {
  stats_total : nat;
  stats_approved : nat;
  stats_edited : nat;
  stats_rejected : nat;
  stats_approvalRate : Q;
  stats_editRate : option Q;
  stats_rejectionRate : option Q;
  stats_sources : list (jsstring * nat);
  stats_timeDistribution : list (Z * nat)
}.

(** The object returned by [getFeedbackPatterns]. *)
Record Patterns := mkPatterns {
  approvalRate : Q;
  editRate : Q;
  rejectionRate : Q;
  tone : jsstring;
  length_pref : jsstring;
  style : jsstring;
  sources : list (jsstring * nat);
  timeDistribution : list (Z * nat)
}.

(** [shortTermCache]: the two maps, in insertion order, and the time of
    their last update. *)
Record ShortTermCache := mkShortTermCache {
  clients : list (jsstring * Client);
  lastUpdated : Z;
  projects : list (jsstring * Project);
  projectsLastUpdated : Z
}.

(** [feedbackPatternsCache]. *)
Record FeedbackPatternsCache := mkFeedbackPatternsCache {
  patterns : option Patterns;
  fpc_lastUpdated : Z;
  ttl : Z
}.

End Data.

Import Data.

(** ** The [Map] of JavaScript, in insertion order *)

Module JsMap.

Section JsMap.
Variable V : Type.

Definition t := list (jsstring * V).

Fixpoint get (k : jsstring) (m : t) : option V :=
  match m with
  | [] => None
  | (k', v) :: rest => if eqb k k' then Some v else get k rest
  end.

Definition has (k : jsstring) (m : t) : bool :=
  match get k m with Some _ => true | None => false end.

(** [set] keeps the place of a key that is present and appends a new one. *)
Fixpoint set (k : jsstring) (v : V) (m : t) : t :=
  match m with
  | [] => [(k, v)]
  | (k', v') :: rest =>
      if eqb k k' then (k, v) :: rest else (k', v') :: set k v rest
  end.

Definition delete (k : jsstring) (m : t) : t :=
  filter (fun e => negb (eqb k (fst e))) m.

Definition values (m : t) : list V := map snd m.

Definition size (m : t) : nat := List.length m.

End JsMap.

End JsMap.

(** ** Effects

    The code talks to three things outside itself: the Supabase tables, the
    completion endpoint (through axios) and the clock. [Ext A] is a call that
    is awaited and answers with an [A]; the environment that answers is a
    parameter of the development. Every awaited call is recorded in a trace,
    so that what a function asked of the outside can be stated.

    One operation runs at a time: what other tasks may do to the caches
    while an operation awaits is not part of the model. The clock is read
    from the environment, which moves only when a call is answered or a
    timer runs, so the readings of [Date.now()] between two awaits are
    equal. The calls of the logger do nothing that matters here and are left
    out. *)

Module Effects.

Inductive Ext : Type -> Type :=
  (* supabase.from('clients') *)
| ClientsSelectInName (names : list jsstring) : Ext (Response (list Client))
| ClientsSelectEqId (id : jsstring) : Ext (Response Client)
| ClientsSelectEqName (name : jsstring) : Ext (Response Client)
| ClientsInsert (row : ClientInsert) : Ext (Response Client)
| ClientsUpdateEqId (updates : ClientUpdates) (id : jsstring)
  : Ext (Response unit)
| ClientsUpdateInId (updates : ClientUpdates) (ids : list jsstring)
  : Ext (Response unit)
  (* supabase.from('feedback') *)
| FeedbackInsert (row : FeedbackData) : Ext (Response Feedback)
| FeedbackSelectSince (since : Timestamp) : Ext (Response (list Feedback))
| FeedbackSelectRejected (summary : jsstring) : Ext (Response (list Feedback))
  (* supabase.from('summaries') *)
| SummariesSelectEqId (id : jsstring) : Ext (Response Summary)
| SummariesSelectSourceEqId (id : jsstring) : Ext (Response Summary)
| SummariesSelectRecent (source : option jsstring) (limit : nat)
  : Ext (Response (list Summary))
  (* the tables of the analyses *)
| FeedbackPatternsInsert (row : FeedbackPattern) : Ext (Response unit)
| EditAnalysesInsert (row : EditAnalysis) : Ext (Response unit)
| EditAnalysesSelectRecent (limit : nat) : Ext (Response (list EditAnalysis))
| RejectionAnalysesInsert (row : RejectionAnalysis) : Ext (Response unit)
| AnalyticsInsert (row : Analytics) : Ext (Response unit)
  (* supabase.from('projects') *)
| ProjectsSelectEqId (id : jsstring) : Ext (Response Project)
| ProjectsSelectEqClientId (client : jsstring) : Ext (Response (list Project))
  (* axios.post to the completion endpoint *)
| AxiosPost (req : ChatRequest) : Ext ChatCompletion.

(** What a function did to the outside: a call it awaited, or a wait of
    [ms] milliseconds on [setTimeout]. *)
Inductive Event :=
| Ev (A : Type) (call : Ext A)
| Slept (ms : Z).

(** The result of running a function, and of awaiting a promise. *)
Inductive Outcome (A : Type) :=
| Returned (a : A)
| Threw (e : Exn).

Arguments Threw {A} e.

(** The outside world: how it answers a call, moving to a new state, what
    becomes of it while a timer runs, and the time its clock shows. *)
Record Environment (E : Type) := mkEnvironment {
  handle : forall A, Ext A -> E -> Outcome A * E;
  elapse : Z -> E -> E;
  clock : E -> Z
}.

(** The state a function runs in: the two module-level caches, the state of
    the outside world, and the calls awaited so far. *)
Record World (E : Type) := mkWorld {
  shortTermCache : ShortTermCache;
  feedbackPatternsCache : FeedbackPatternsCache;
  env : E;
  trace : list Event
}.

Section Monad.
Variable E : Type.
Variable Out : Environment E.

Definition M (A : Type) := World E -> Outcome A * World E.

Definition ret {A} (a : A) : M A := fun w => (Returned a, w).

Definition bind {A B} (m : M A) (k : A -> M B) : M B :=
  fun w =>
    match m w with
    | (Returned a, w') => k a w'
    | (Threw e, w') => (Threw e, w')
    end.

Definition throw {A} (e : Exn) : M A := fun w => (Threw e, w).

(** [try { m } catch (error) { handler(error) }] *)
Definition try_catch {A} (m : M A) (handler : Exn -> M A) : M A :=
  fun w =>
    match m w with
    | (Returned a, w') => (Returned a, w')
    | (Threw e, w') => handler e w'
    end.

(** [await call]: the environment answers; a rejected promise throws. *)
Definition await {A} (call : Ext A) : M A :=
  fun w =>
    let (o, e') := handle Out call (env w) in
    (o, mkWorld (shortTermCache w) (feedbackPatternsCache w) e'
                (trace w ++ [Ev call])).

(** [await new Promise(resolve => setTimeout(resolve, ms))] *)
Definition sleep (ms : Z) : M unit :=
  fun w =>
    (Returned tt,
     mkWorld (shortTermCache w) (feedbackPatternsCache w)
             (elapse Out ms (env w)) (trace w ++ [Slept ms])).

(** [Date.now()] *)
Definition Date_now : M Z := fun w => (Returned (clock Out (env w)), w).

Definition get_cache : M ShortTermCache :=
  fun w => (Returned (shortTermCache w), w).

Definition put_cache (c : ShortTermCache) : M unit :=
  fun w => (Returned tt, mkWorld c (feedbackPatternsCache w) (env w) (trace w)).

Definition get_patterns_cache : M FeedbackPatternsCache :=
  fun w => (Returned (feedbackPatternsCache w), w).

Definition put_patterns_cache (c : FeedbackPatternsCache) : M unit :=
  fun w => (Returned tt, mkWorld (shortTermCache w) c (env w) (trace w)).

(** [for (const x of l) { body(x) }] *)
Fixpoint for_each {A} (l : list A) (body : A -> M unit) : M unit :=
  match l with
  | [] => ret tt
  | x :: rest => bind (body x) (fun _ => for_each rest body)
  end.

(** A loop that carries a value from one element to the next. *)
Fixpoint fold_each {A S} (l : list A) (s : S) (body : S -> A -> M S) : M S :=
  match l with
  | [] => ret s
  | x :: rest => bind (body s x) (fun s' => fold_each rest s' body)
  end.

End Monad.

Arguments ret {E A} a.
Arguments throw {E A} e.
Arguments Date_now {E} Out.
Arguments get_cache {E}.
Arguments put_cache {E} c.
Arguments get_patterns_cache {E}.
Arguments put_patterns_cache {E} c.

Declare Scope js_scope.
Delimit Scope js_scope with js.
Notation "x <- m ;; k" := (bind m (fun x => k))
  (at level 61, m at next level, right associativity) : js_scope.
Notation "m ;;; k" := (bind m (fun _ => k))
  (at level 61, right associativity) : js_scope.

End Effects.

Import Effects.
Local Open Scope js_scope.

(** ** The context store *)

Module ContextStore.

Definition CACHE_TTL : Z := 5 * 60 * 1000.
Definition MAX_CACHE_SIZE : nat := 100.

(** *** Client names of a batch *)

(** [clientNames.add(name)] on a [Set], kept in insertion order. *)
Definition set_add (name : jsstring) (s : list jsstring) : list jsstring :=
  if includes s name then s else s ++ [name].

Definition add_each (names : list jsstring) (s : list jsstring)
  : list jsstring :=
  fold_left (fun acc name => set_add name acc) names s.

(** [if (field) { extractNamesFromText(field).forEach(... add ...) }] *)
Definition add_from_text (field : option jsstring) (s : list jsstring)
  : list jsstring :=
  match field with
  | Some text =>
      if truthy text then add_each (extractNamesFromText text) s else s
  | None => s
  end.

(** [if (item.client_details && item.client_details.name) { add }] *)
Definition add_client_details (details : option (option jsstring))
    (s : list jsstring) : list jsstring :=
  match details with
  | Some (Some name) => if truthy name then set_add name s else s
  | _ => s
  end.

(** The body of the loop of [extractClientNames] for one item: Slack text,
    Zendesk subject, Harvest client, then the subject and body of an email. *)
Definition add_item (s : list jsstring) (item : Item) : list jsstring :=
  let s := add_from_text (item_text item) s in
  let s := add_from_text (item_subject item) s in
  let s := add_client_details (item_client_details item) s in
  let s := add_from_text (item_subject item) s in
  add_from_text (item_body item) s.

Definition extractClientNames (data : list Item) : list jsstring :=
  fold_left add_item data [].

(** *** The cache *)

Definition with_clients (m : JsMap.t Client) (c : ShortTermCache)
  : ShortTermCache :=
  mkShortTermCache m (lastUpdated c) (projects c) (projectsLastUpdated c).

Definition with_lastUpdated (t : Z) (c : ShortTermCache) : ShortTermCache :=
  mkShortTermCache (clients c) t (projects c) (projectsLastUpdated c).

Definition with_projects (m : JsMap.t Project) (c : ShortTermCache)
  : ShortTermCache :=
  mkShortTermCache (clients c) (lastUpdated c) m (projectsLastUpdated c).

Definition with_projectsLastUpdated (t : Z) (c : ShortTermCache)
  : ShortTermCache :=
  mkShortTermCache (clients c) (lastUpdated c) (projects c) t.

Definition getCachedClients (clientNames : list jsstring) (c : ShortTermCache)
  : list Client :=
  filter (fun client => includes clientNames (client_name client))
         (JsMap.values (clients c)).

Definition isCacheStale (now : Z) (c : ShortTermCache) : bool :=
  CACHE_TTL <=? now - lastUpdated c.

(** [new Date(x || 0)] as a number, for [x] missing or the text of a valid
    date: a missing instant counts as the epoch. *)
Definition date_or_epoch (x : option Timestamp) : Z :=
  match x with
  | Some t => t
  | None => 0
  end.

Section Sort.
Variable A : Type.
Variable key : A -> Z.

(** [entries.sort((a, b) => key(a) - key(b))]: the sort of an array is
    stable (ECMAScript 2019), so its result is the one of insertion sort:
    ascending keys, equal keys in the order of the array. *)
Fixpoint insert_sorted (x : A) (l : list A) : list A :=
  match l with
  | [] => [x]
  | y :: rest =>
      if key x <=? key y then x :: y :: rest else y :: insert_sorted x rest
  end.

Definition sort_by (l : list A) : list A := fold_right insert_sorted [] l.

End Sort.

(** One half of [pruneCache]: when the map holds more than
    [MAX_CACHE_SIZE] entries, sort them by date, oldest first, and delete the
    first [length - MAX_CACHE_SIZE] of them from the map. *)
Definition prune_map {V} (date : V -> Z) (m : JsMap.t V) : JsMap.t V :=
  if (MAX_CACHE_SIZE <? JsMap.size m)%nat then
    let entries := sort_by (fun e => date (snd e)) m in
    let entriesToRemove :=
      firstn (List.length entries - MAX_CACHE_SIZE) entries in
    fold_left (fun m e => JsMap.delete (fst e) m) entriesToRemove m
  else m.

Definition pruned (c : ShortTermCache) : ShortTermCache :=
  let c := with_clients
             (prune_map (fun cl => date_or_epoch (last_mentioned cl))
                        (clients c)) c in
  with_projects
    (prune_map (fun p => date_or_epoch (project_updated_at p)) (projects c)) c.

(** [{ ...client, ...updates }] *)
Definition apply_updates (updates : ClientUpdates) (client : Client) : Client :=
  mkClient (client_id client) (client_name client) (client_profile client)
           (Some (cu_last_mentioned updates)) (client_created_at client)
           (Some (cu_updated_at updates)).

Section Operations.
Variable E : Type.
Variable Out : Environment E.

Local Abbreviation M := (M E).
Local Abbreviation await := (await Out).

Definition pruneCache : M unit :=
  c <- get_cache ;; put_cache (pruned c).

Definition cache_set (id : jsstring) (client : Client) : M unit :=
  c <- get_cache ;; put_cache (with_clients (JsMap.set id client (clients c)) c).

Definition updateClientCache (new_clients : list Client) : M unit :=
  match new_clients with
  | [] => ret tt
  | _ =>
      for_each new_clients (fun client =>
        if truthy (client_id client)
        then cache_set (client_id client) client
        else ret tt) ;;;
      now <- Date_now Out ;;
      c <- get_cache ;;
      put_cache (with_lastUpdated now c) ;;;
      c <- get_cache ;;
      if (MAX_CACHE_SIZE <? JsMap.size (clients c))%nat
      then pruneCache
      else ret tt
  end.

(** The update of the cache for one id after the rows were updated. *)
Definition refresh_cached (updates : ClientUpdates) (id : jsstring) : M unit :=
  c <- get_cache ;;
  match JsMap.get id (clients c) with
  | Some client => cache_set id (apply_updates updates client)
  | None => ret tt
  end.

Definition updateClientLastMentioned (clientIds : list jsstring) : M unit :=
  match clientIds with
  | [] => ret tt
  | _ =>
      try_catch
        (now <- Date_now Out ;;
         let updates := mkClientUpdates now now in
         match clientIds with
         | [id] =>
             r <- await (ClientsUpdateEqId updates id) ;;
             match error r with
             | Some _ => ret tt
             | None => refresh_cached updates id
             end
         | _ =>
             r <- await (ClientsUpdateInId updates clientIds) ;;
             match error r with
             | Some _ => ret tt
             | None => for_each clientIds (refresh_cached updates)
             end
         end)
        (fun _ => ret tt)
  end.

(** [allClients]: the rows of the database, then the cached clients whose
    id is not among those already taken. *)
Definition combine_clients (dbClients cachedClients : list Client)
  : list Client :=
  fold_left
    (fun allClients cachedClient =>
       if existsb (fun client => eqb (client_id client) (client_id cachedClient))
                  allClients
       then allClients
       else allClients ++ [cachedClient])
    cachedClients dbClients.

Definition getRelevantClientContext (data : option (list Item)) : M Bundle :=
  try_catch
    (match data with
     | None | Some [] => ret (mkBundle [])
     | Some items =>
         let clientNames := extractClientNames items in
         match clientNames with
         | [] => ret (mkBundle [])
         | _ =>
             c <- get_cache ;;
             let cachedClients := getCachedClients clientNames c in
             now <- Date_now Out ;;
             if (List.length cachedClients =? List.length clientNames)%nat
                && (now - lastUpdated c <? CACHE_TTL)
             then ret (mkBundle cachedClients)
             else
               let missingClientNames :=
                 filter (fun name =>
                           negb (existsb (fun client =>
                                            eqb (client_name client) name)
                                         cachedClients)
                           || (CACHE_TTL <=? now - lastUpdated c))
                        clientNames in
               dbClients <-
                 match missingClientNames with
                 | [] => ret []
                 | _ =>
                     r <- await (ClientsSelectInName missingClientNames) ;;
                     match error r, Data.data r with
                     | Some _, _ => ret []
                     | None, Some rows =>
                         updateClientCache rows ;;;
                         updateClientLastMentioned (map client_id rows) ;;;
                         ret rows
                     | None, None => ret []
                     end
                 end ;;
               ret (mkBundle (combine_clients dbClients cachedClients))
         end
     end)
    (fun _ => ret (mkBundle [])).

Definition getClientById (clientId : option jsstring) : M (option Client) :=
  try_catch
    (match clientId with
     | None => ret None
     | Some id =>
         if negb (truthy id) then ret None
         else
           c <- get_cache ;;
           now <- Date_now Out ;;
           if JsMap.has id (clients c) && (now - lastUpdated c <? CACHE_TTL)
           then ret (JsMap.get id (clients c))
           else
             r <- await (ClientsSelectEqId id) ;;
             match error r, data r with
             | Some _, _ => ret None
             | None, None => ret None
             | None, Some client => cache_set id client ;;; ret (Some client)
             end
     end)
    (fun _ => ret None).

(** [clientData.name] when [clientData] and the name are truthy. *)
Definition valid_name (clientData : option ClientData) : option jsstring :=
  match clientData with
  | Some d =>
      match cd_name d with
      | Some name => if truthy name then Some name else None
      | None => None
      end
  | None => None
  end.

Definition unique_violation : jsstring := js "23505".

Definition createClient (clientData : option ClientData) : M (option Client) :=
  try_catch
    (match clientData, valid_name clientData with
     | Some d, Some name =>
         now <- Date_now Out ;;
         let clientInsertData :=
           mkClientInsert name
             (match cd_profile d with Some p => p | None => [] end)
             now now now in
         r <- await (ClientsInsert clientInsertData) ;;
         match error r with
         | Some err =>
             if match pg_code err with
                | Some code => eqb code unique_violation
                | None => false
                end
             then
               r' <- await (ClientsSelectEqName name) ;;
               match error r', data r' with
               | None, Some existingClient =>
                   cache_set (client_id existingClient) existingClient ;;;
                   ret (Some existingClient)
               | _, _ => ret None
               end
             else ret None
         | None =>
             match data r with
             | None => ret None
             | Some client =>
                 cache_set (client_id client) client ;;; ret (Some client)
             end
         end
     | _, _ => ret None
     end)
    (fun _ => ret None).

Definition getProjectById (projectId : option jsstring) : M (option Project) :=
  try_catch
    (match projectId with
     | None => ret None
     | Some id =>
         if negb (truthy id) then ret None
         else
           c <- get_cache ;;
           now <- Date_now Out ;;
           if JsMap.has id (projects c)
              && (now - projectsLastUpdated c <? CACHE_TTL)
           then ret (JsMap.get id (projects c))
           else
             r <- await (ProjectsSelectEqId id) ;;
             match error r, data r with
             | Some _, _ => ret None
             | None, None => ret None
             | None, Some project =>
                 c <- get_cache ;;
                 put_cache (with_projects (JsMap.set id project (projects c)) c) ;;;
                 now <- Date_now Out ;;
                 c <- get_cache ;;
                 put_cache (with_projectsLastUpdated now c) ;;;
                 ret (Some project)
             end
     end)
    (fun _ => ret None).

Definition getProjectsForClient (clientId : option jsstring)
  : M (list Project) :=
  try_catch
    (match clientId with
     | None => ret []
     | Some id =>
         if negb (truthy id) then ret []
         else
           r <- await (ProjectsSelectEqClientId id) ;;
           match error r, Data.data r with
           | Some _, _ => ret []
           | None, None => ret []
           | None, Some [] => ret []
           | None, Some found =>
               for_each found (fun project =>
                 c <- get_cache ;;
                 put_cache (with_projects
                              (JsMap.set (project_id project) project
                                         (projects c)) c)) ;;;
               now <- Date_now Out ;;
               c <- get_cache ;;
               put_cache (with_projectsLastUpdated now c) ;;;
               ret found
           end
     end)
    (fun _ => ret []).

(** [clearCache(cacheType)] *)
Definition clearCache (cacheType : option jsstring) : M unit :=
  let all := match cacheType with
             | Some t => negb (truthy t)
             | None => true
             end in
  let chosen t := match cacheType with
              | Some t' => eqb t' (js t)
              | None => false
              end in
  (if all || chosen "clients"%string then
     now <- Date_now Out ;;
     c <- get_cache ;;
     put_cache (with_lastUpdated now (with_clients [] c))
   else ret tt) ;;;
  (if all || chosen "projects"%string then
     now <- Date_now Out ;;
     c <- get_cache ;;
     put_cache (with_projectsLastUpdated now (with_projects [] c))
   else ret tt).

End Operations.

End ContextStore.

(** ** The feedback handler *)

Module FeedbackHandler.

Definition APPROVED : jsstring := js "approved".
Definition EDITED : jsstring := js "edited".
Definition REJECTED : jsstring := js "rejected".

(** [Object.values(RATING_TYPES)] *)
Definition RATING_TYPES : list jsstring := [APPROVED; EDITED; REJECTED].

Definition feedbackPatternsCache0 : FeedbackPatternsCache :=
  mkFeedbackPatternsCache None 0 (5 * 60 * 1000).

(** *** Numbers

    A JavaScript number that comes from a division is kept as an exact
    rational. *)

Definition num (n : nat) : Q := inject_Z (Z.of_nat n).

(** [t > 0 ? (a / t) * 100 : 0] *)
Definition percent (a t : nat) : Q :=
  if (0 <? t)%nat then (num a / num t * 100)%Q else 0%Q.

(** [obj[k] = (obj[k] || 0) + 1] on an object used as a table of counts,
    its keys in the order they were added (the order of [Object.entries] for
    keys that are not written as integers). *)
Fixpoint incr {K} (eqk : K -> K -> bool) (k : K) (o : list (K * nat))
  : list (K * nat) :=
  match o with
  | [] => [(k, 1%nat)]
  | (k', n) :: rest =>
      if eqk k k' then (k', S n) :: rest else (k', n) :: incr eqk k rest
  end.

(** *** Analysis of an edit *)

(** [toLowerCase], on the letters A to Z. *)
Definition toLowerCase (s : jsstring) : jsstring :=
  map (fun c => if is_upper c then (c + 32)%N else c) s.

Definition toneIndicators : list (jsstring * list jsstring) :=
  [(js "formal", map js ["therefore"; "consequently"; "furthermore"; "thus";
                         "hence"; "regarding"]%string);
   (js "casual", map js ["hey"; "cool"; "awesome"; "great"; "thanks";
                         "cheers"]%string);
   (js "technical", map js ["implement"; "system"; "process"; "function";
                            "data"; "analysis"]%string);
   (js "friendly", map js ["please"; "appreciate"; "thank you"; "welcome";
                           "happy to"]%string)].

(** The counts of one text: for each tone, how many of its words the text
    holds. *)
Definition tone_counts (text : jsstring) : list (jsstring * nat) :=
  map (fun tw =>
         (fst tw,
          List.length
            (filter (fun word => contains (toLowerCase word) (toLowerCase text))
                    (snd tw))))
      toneIndicators.

(** The first tone whose count is above all the counts before it. *)
Definition dominant_tone (counts : list (jsstring * nat)) : jsstring :=
  fst (fold_left
         (fun best tc =>
            if (snd best <? snd tc)%nat then (fst tc, snd tc) else best)
         counts (js "neutral", 0%nat)).

Definition analyzeToneChange (originalText editedText : jsstring) : jsstring :=
  let originalTone := dominant_tone (tone_counts originalText) in
  let editedTone := dominant_tone (tone_counts editedText) in
  if negb (eqb originalTone editedTone)
  then originalTone ++ js " to " ++ editedTone
  else js "unchanged".

(** [text.split(/[.!?]+/).filter(s => s.trim().length > 0)] *)
Definition sentences (text : jsstring) : list jsstring :=
  filter (fun s => truthy (trim s))
         (split_runs (fun c => (c =? 46) || (c =? 33) || (c =? 63))%N text).

Definition average_length (l : list jsstring) : Q :=
  match l with
  | [] => 0%Q
  | _ =>
      (num (fold_left (fun sum s => (sum + List.length s)%nat) l 0%nat)
       / num (List.length l))%Q
  end.

(** [(text.match(/[-*\u2022]/g) || []).length]: hyphens, asterisks and
    bullets (U+2022). *)
Definition bullets (text : jsstring) : nat :=
  List.length (filter (fun c => (c =? 45) || (c =? 42) || (c =? 8226))%N text).

Definition Qgt_bool (a b : Q) : bool := negb (Qle_bool a b).

(** The constant [1.2] is taken as the rational 6/5. *)
Definition analyzeStyleChange (originalText editedText : jsstring) : jsstring :=
  let originalAvgLength := average_length (sentences originalText) in
  let editedAvgLength := average_length (sentences editedText) in
  let originalBullets := bullets originalText in
  let editedBullets := bullets editedText in
  let sentenceLengthDiff := (editedAvgLength - originalAvgLength)%Q in
  let changes :=
    (if Qgt_bool (Qabs sentenceLengthDiff) 10%Q
     then [if Qgt_bool sentenceLengthDiff 0%Q
           then js "longer sentences" else js "shorter sentences"]
     else [])
    ++ (if (originalBullets + 2 <? editedBullets)%nat
        then [js "more bullet points"]
        else if (editedBullets + 2 <? originalBullets)%nat
             then [js "fewer bullet points"]
             else [])
    ++ (if Qgt_bool (num (List.length editedText))
                    (num (List.length originalText) * (6 # 5))%Q
        then [js "more detailed"]
        else if Qgt_bool (num (List.length originalText))
                         (num (List.length editedText) * (6 # 5))%Q
             then [js "more concise"]
             else []) in
  match changes with
  | [] => js "unchanged"
  | _ => join (js ", ") changes
  end.

(** *** Preferences read from the edit analyses *)

Definition opt_truthy (o : option jsstring) : option jsstring :=
  match o with
  | Some s => if truthy s then Some s else None
  | None => None
  end.

Definition filter_some {A} (l : list (option A)) : list A :=
  flat_map (fun o => match o with Some a => [a] | None => [] end) l.

(** [change.split(' to ')[1]] *)
Definition target_tone (change : jsstring) : option jsstring :=
  nth_error (split_str (js " to ") change) 1.

Definition preferred_tone (editAnalyses : list EditAnalysis) : jsstring :=
  let toneChanges :=
    filter (fun t => negb (eqb t (js "unchanged")))
           (filter_some (map (fun a => opt_truthy (ea_tone_change a))
                             editAnalyses)) in
  let toneCounts :=
    fold_left
      (fun counts change =>
         match opt_truthy (target_tone change) with
         | Some targetTone => incr eqb targetTone counts
         | None => counts
         end)
      toneChanges [] in
  fst (fold_left
         (fun best tc =>
            if (snd best <? snd tc)%nat then (fst tc, snd tc) else best)
         toneCounts (js "neutral", 0%nat)).

Definition count_with (word : jsstring) (l : list jsstring) : nat :=
  List.length (filter (contains word) l).

Definition preferred_length (editAnalyses : list EditAnalysis) : jsstring :=
  let lengthChanges :=
    filter (fun c => contains (js "concise") c || contains (js "detailed") c)
           (filter_some (map (fun a => opt_truthy (ea_style_change a))
                             editAnalyses)) in
  let moreDetailed := count_with (js "more detailed") lengthChanges in
  let moreConcise := count_with (js "more concise") lengthChanges in
  if (moreConcise <? moreDetailed)%nat then js "detailed"
  else if (moreDetailed <? moreConcise)%nat then js "concise"
       else js "medium".

Definition preferred_style (editAnalyses : list EditAnalysis) : jsstring :=
  let styleChanges :=
    filter (fun c => negb (contains (js "concise") c)
                     && negb (contains (js "detailed") c))
           (filter_some (map (fun a => opt_truthy (ea_style_change a))
                             editAnalyses)) in
  let moreBullets := count_with (js "more bullet") styleChanges in
  let fewerBullets := count_with (js "fewer bullet") styleChanges in
  let bullet := (fewerBullets <? moreBullets)%nat in
  let longerSentences := count_with (js "longer sentences") styleChanges in
  let shorterSentences := count_with (js "shorter sentences") styleChanges in
  if (shorterSentences <? longerSentences)%nat then
    if bullet then js "bullet-points-with-longer-sentences"
    else js "longer-sentences"
  else if (longerSentences <? shorterSentences)%nat then
    if bullet then js "bullet-points-with-shorter-sentences"
    else js "shorter-sentences"
  else if bullet then js "bullet-points" else js "professional".

(** The object of the early returns and of the [catch] of
    [getFeedbackStats]. *)
Definition no_stats : Stats :=
  mkStats 0 0 0 0 0%Q None None [] [].

Definition count_rating (rating : jsstring) (feedback : list Feedback) : nat :=
  List.length (filter (fun f => eqb (fb_rating f) rating) feedback).

(** A day of [setDate(getDate() - days)], taken as 24 hours. *)
Definition MS_PER_DAY : Z := 24 * 60 * 60 * 1000.

(** [stats.rate || fallback] *)
Definition rate_or (rate : option Q) (fallback : Q) : Q :=
  match rate with
  | Some q => if Qeq_bool q 0%Q then fallback else q
  | None => fallback
  end.

(** The object of the [catch] of [getFeedbackPatterns]. *)
Definition default_patterns : Patterns :=
  mkPatterns 0%Q 0%Q 0%Q (js "neutral") (js "medium") (js "professional") [] [].

(** *** The operations *)

Section Operations.
Variable E : Type.
Variable Out : Environment E.

Local Abbreviation M := (M E).
Local Abbreviation await := (await Out).

(** [feedbackPatternsCache.patterns = null] *)
Definition invalidate_patterns : M unit :=
  fc <- get_patterns_cache ;;
  put_patterns_cache (mkFeedbackPatternsCache None (fpc_lastUpdated fc) (ttl fc)).

Definition analyzeEdits (summary : option Summary) (editedText : jsstring)
  : M unit :=
  try_catch
    (match summary with
     | None => ret tt
     | Some summary =>
         if negb (truthy (summary_id summary)) then ret tt
         else if negb (truthy editedText) then ret tt
         else
           let originalText :=
             match summary_summary summary with Some s => s | None => [] end in
           let originalLength := List.length originalText in
           let editedLength := List.length editedText in
           let lengthChangePercent :=
             if (0 <? originalLength)%nat
             then ((num editedLength - num originalLength)
                   / num originalLength * 100)%Q
             else 0%Q in
           let toneChange := analyzeToneChange originalText editedText in
           let styleChange := analyzeStyleChange originalText editedText in
           now <- Date_now Out ;;
           let analysisData :=
             mkEditAnalysis (summary_id summary) originalLength editedLength
                            lengthChangePercent (Some toneChange)
                            (Some styleChange) (Some now) in
           try_catch (r <- await (EditAnalysesInsert analysisData) ;; ret tt)
                     (fun _ => ret tt)
     end)
    (fun _ => ret tt).

Definition analyzeRejection (summary : option Summary) : M unit :=
  try_catch
    (match summary with
     | None => ret tt
     | Some summary =>
         if negb (truthy (summary_id summary)) then ret tt
         else
           r <- await (SummariesSelectRecent (summary_source summary) 10) ;;
           match error r, data r with
           | Some _, _ => ret tt
           | None, None => throw (JsError (js "recentRejections is not iterable"))
           | None, Some recentRejections =>
               rejectionPatterns <-
                 fold_each recentRejections []
                   (fun found recentSummary =>
                      if eqb (summary_id recentSummary) (summary_id summary)
                      then ret found
                      else
                        r' <- await (FeedbackSelectRejected
                                       (summary_id recentSummary)) ;;
                        match data r' with
                        | Some (_ :: _) => ret (found ++ [recentSummary])
                        | _ => ret found
                        end) ;;
               now <- Date_now Out ;;
               let analysisData :=
                 mkRejectionAnalysis (summary_id summary)
                                     (summary_source summary)
                                     (summary_summary summary)
                                     (List.length rejectionPatterns) now in
               try_catch
                 (r' <- await (RejectionAnalysesInsert analysisData) ;; ret tt)
                 (fun _ => ret tt)
           end
     end)
    (fun _ => ret tt).

Definition trackFeedbackAnalytics (summaryId : option jsstring)
    (rating comment : jsstring) : M unit :=
  try_catch
    (match opt_truthy summaryId with
     | None => ret tt
     | Some id =>
         r <- await (SummariesSelectSourceEqId id) ;;
         match data r with
         | None => ret tt
         | Some summary =>
             now <- Date_now Out ;;
             let analyticsData :=
               mkAnalytics (js "feedback") (summary_source summary) rating
                           (truthy comment) now in
             try_catch (r' <- await (AnalyticsInsert analyticsData) ;; ret tt)
                       (fun _ => ret tt)
         end
     end)
    (fun _ => ret tt).

Definition pattern_type (rating : jsstring) : jsstring :=
  if eqb rating EDITED then js "edit"
  else if eqb rating REJECTED then js "rejection"
       else js "approval".

Definition updateFeedbackPatterns (summaryId : option jsstring)
    (rating comment : jsstring) : M unit :=
  try_catch
    (match opt_truthy summaryId with
     | None => ret tt
     | Some id =>
         r <- await (SummariesSelectEqId id) ;;
         match error r, data r with
         | Some _, _ => ret tt
         | None, None => ret tt
         | None, Some summary =>
             now <- Date_now Out ;;
             r' <- await (FeedbackPatternsInsert
                            (mkFeedbackPattern id rating
                               (summary_source summary) (pattern_type rating)
                               (summary_summary summary)
                               (opt_truthy (Some comment)) now)) ;;
             (if eqb rating EDITED && truthy comment
              then analyzeEdits (Some summary) comment
              else ret tt) ;;;
             (if eqb rating REJECTED
              then analyzeRejection (Some summary)
              else ret tt) ;;;
             invalidate_patterns
         end
     end)
    (fun _ => ret tt).

Definition storeFeedback (summaryId : option jsstring) (rating : jsstring)
    (comment : jsstring) (userId : option jsstring) : M (option Feedback) :=
  try_catch
    (match opt_truthy summaryId with
     | None => ret None
     | Some id =>
         let rating :=
           if includes RATING_TYPES rating then rating else APPROVED in
         now <- Date_now Out ;;
         let feedbackData :=
           mkFeedbackData id rating comment now (opt_truthy userId) in
         r <- await (FeedbackInsert feedbackData) ;;
         match error r with
         | Some _ => ret None
         | None =>
             updateFeedbackPatterns (Some id) rating comment ;;;
             invalidate_patterns ;;;
             trackFeedbackAnalytics (Some id) rating comment ;;;
             match data r with
             | None =>
                 throw (JsError
                          (js "Cannot read properties of null (reading 'id')"))
             | Some feedback => ret (Some feedback)
             end
         end
     end)
    (fun _ => ret None).

Definition getFeedbackStats (days : nat) : M Stats :=
  try_catch
    (now <- Date_now Out ;;
     let daysAgo := now - Z.of_nat days * MS_PER_DAY in
     r <- await (FeedbackSelectSince daysAgo) ;;
     match error r, data r with
     | Some _, _ => ret no_stats
     | None, None => ret no_stats
     | None, Some [] => ret no_stats
     | None, Some feedback =>
         let approved := count_rating APPROVED feedback in
         let edited := count_rating EDITED feedback in
         let rejected := count_rating REJECTED feedback in
         let total := List.length feedback in
         tables <-
           fold_each feedback ([], [])
             (fun tables f =>
                sources <-
                  match opt_truthy (fb_summary_id f) with
                  | Some id =>
                      try_catch
                        (r' <- await (SummariesSelectSourceEqId id) ;;
                         match data r' with
                         | Some summary =>
                             match opt_truthy (summary_source summary) with
                             | Some source =>
                                 ret (incr eqb source (fst tables))
                             | None => ret (fst tables)
                             end
                         | None => ret (fst tables)
                         end)
                        (fun _ => ret (fst tables))
                  | None => ret (fst tables)
                  end ;;
                let timeDistribution :=
                  match fb_created_at f with
                  | Some t => incr Z.eqb (t / MS_PER_DAY) (snd tables)
                  | None => snd tables
                  end in
                ret (sources, timeDistribution)) ;;
         ret (mkStats total approved edited rejected
                      (percent approved total)
                      (Some (percent edited total))
                      (Some (percent rejected total))
                      (fst tables) (snd tables))
     end)
    (fun _ => ret no_stats).

(** The part of [getFeedbackPatterns] after the check of the cache. *)
Definition compute_patterns : M Patterns :=
  stats <- getFeedbackStats 30 ;;
  editAnalyses <-
    try_catch
      (r <- await (EditAnalysesSelectRecent 20) ;;
       match error r, data r with
       | None, Some rows => ret rows
       | _, _ => ret []
       end)
      (fun _ => ret []) ;;
  let found :=
    mkPatterns
      (stats_approvalRate stats)
      (rate_or (stats_editRate stats)
               (percent (stats_edited stats) (stats_total stats)))
      (rate_or (stats_rejectionRate stats)
               (percent (stats_rejected stats) (stats_total stats)))
      (preferred_tone editAnalyses)
      (preferred_length editAnalyses)
      (preferred_style editAnalyses)
      (stats_sources stats) (stats_timeDistribution stats) in
  now <- Date_now Out ;;
  fc <- get_patterns_cache ;;
  put_patterns_cache (mkFeedbackPatternsCache (Some found) now (ttl fc)) ;;;
  ret found.

Definition getFeedbackPatterns : M Patterns :=
  try_catch
    (fc <- get_patterns_cache ;;
     now <- Date_now Out ;;
     match patterns fc with
     | Some cached =>
         if now - fpc_lastUpdated fc <? ttl fc then ret cached
         else compute_patterns
     | None => compute_patterns
     end)
    (fun _ => ret default_patterns).

End Operations.

End FeedbackHandler.

(** ** The model request of [processWithAI] *)

Module FetchHarvest.

Definition quote : jsstring := [34%N].
Definition LF : jsstring := [10%N].

(** [GetSubstitution] for a pattern that is a string, so without capture
    groups: in the replacement, [$$] stands for a dollar, [$&] for the
    matched text, [$`] and [$'] for what is before and after it; any other
    dollar stands for itself. *)
Fixpoint substitution (matched before after : jsstring) (r : jsstring)
  : jsstring :=
  match r with
  | [] => []
  | c :: rest =>
      if (c =? 36)%N then
        match rest with
        | d :: rest' =>
            if (d =? 36)%N then
              36%N :: substitution matched before after rest'
            else if (d =? 38)%N then
              matched ++ substitution matched before after rest'
            else if (d =? 96)%N then
              before ++ substitution matched before after rest'
            else if (d =? 39)%N then
              after ++ substitution matched before after rest'
            else c :: substitution matched before after rest
        | [] => [c]
        end
      else c :: substitution matched before after rest
  end.

(** [s.replace(pattern, replacement)] for a pattern that is a string: the
    leftmost occurrence is replaced. *)
Definition replace (pattern replacement s : jsstring) : jsstring :=
  match after_first N.eqb pattern s with
  | Some after =>
      let before := before_first N.eqb pattern s in
      before ++ substitution pattern before after replacement ++ after
  | None => s
  end.

Definition systemMessage (p : Patterns) : jsstring :=
  js "You are a helpful AI assistant that summarizes data and provides actionable insights."
  ++ LF ++ js "    " ++ LF
  ++ js "Based on user feedback, please follow these guidelines:" ++ LF
  ++ js "- Tone: " ++ tone p ++ LF
  ++ js "- Length: " ++ length_pref p ++ LF
  ++ js "- Style: " ++ style p ++ LF
  ++ LF
  ++ js "Format your response as a JSON object with the following structure:"
  ++ LF
  ++ js "{" ++ LF
  ++ js "  " ++ quote ++ js "summary" ++ quote ++ js ": " ++ quote
  ++ js "A concise summary of the key points" ++ quote ++ js "," ++ LF
  ++ js "  " ++ quote ++ js "action_items" ++ quote ++ js ": [" ++ quote
  ++ js "Action item 1" ++ quote ++ js ", " ++ quote ++ js "Action item 2"
  ++ quote ++ js ", ...]," ++ LF
  ++ js "  " ++ quote ++ js "suggested_messages" ++ quote ++ js ": [" ++ LF
  ++ js "    {" ++ LF
  ++ js "      " ++ quote ++ js "recipient" ++ quote ++ js ": " ++ quote
  ++ js "The person to send the message to" ++ quote ++ js "," ++ LF
  ++ js "      " ++ quote ++ js "subject" ++ quote ++ js ": " ++ quote
  ++ js "Optional subject line for emails" ++ quote ++ js "," ++ LF
  ++ js "      " ++ quote ++ js "message" ++ quote ++ js ": " ++ quote
  ++ js "The suggested message content" ++ quote ++ LF
  ++ js "    }," ++ LF
  ++ js "    ..." ++ LF
  ++ js "  ]" ++ LF
  ++ js "}".

Definition maxRetries : nat := 3.

(** *** The fallback extraction of the response *)

(** [item.trim().replace(/^-\s*/, '')] *)
Definition list_item (item : jsstring) : jsstring :=
  match trim item with
  | c :: rest => if (c =? 45)%N then trimStart rest else c :: rest
  | [] => []
  end.

(** [section.split('\n').filter(item => item.trim()).map(...)] *)
Definition list_items (section : jsstring) : list jsstring :=
  map list_item (filter (fun item => truthy (trim item)) (split_str LF section)).

(** [/summary:(.*?)(?=action_items:|$)/is]: the first group of the match. *)
Definition summary_section (aiResponse : jsstring) : option jsstring :=
  match after_first eq_ci (js "summary:") aiResponse with
  | Some rest => Some (before_first eq_ci (js "action_items:") rest)
  | None => None
  end.

(** [/action_items:(.*?)(?=suggested_messages:|$)/is] *)
Definition action_items_section (aiResponse : jsstring) : option jsstring :=
  match after_first eq_ci (js "action_items:") aiResponse with
  | Some rest => Some (before_first eq_ci (js "suggested_messages:") rest)
  | None => None
  end.

(** [/suggested_messages:(.*?)(?=$)/is] *)
Definition suggested_messages_section (aiResponse : jsstring)
  : option jsstring :=
  after_first eq_ci (js "suggested_messages:") aiResponse.

(** The object built in the [catch] of [JSON.parse]. *)
Definition extract_structured (aiResponse : jsstring) : Json :=
  let summary :=
    match summary_section aiResponse with
    | Some section =>
        if truthy (trim section) then trim section else aiResponse
    | None => aiResponse
    end in
  let actionItems :=
    match action_items_section aiResponse with
    | Some section => list_items section
    | None => []
    end in
  let suggestedMessages :=
    match suggested_messages_section aiResponse with
    | Some section => list_items section
    | None => []
    end in
  JObject [(js "summary", JString summary);
           (js "action_items", JArray (map JString actionItems));
           (js "suggested_messages", JArray (map JString suggestedMessages))].

(** The string that [JSON.parse] is given for a content. *)
Definition content_string (c : Content) : jsstring :=
  match c with
  | ContentText s => s
  | ContentNull => js "null"
  | ContentMissing => js "undefined"
  end.

Section Operations.
Variable E : Type.
Variable Out : Environment E.

(** [JSON.parse]; [None] when it throws a [SyntaxError]. *)
Variable JSON_parse : jsstring -> option Json.

(** [process.env.AI_MODEL] *)
Variable AI_MODEL : option jsstring.

Local Abbreviation M := (M E).
Local Abbreviation await := (await Out).

Definition model_name : jsstring :=
  match FeedbackHandler.opt_truthy AI_MODEL with
  | Some m => m
  | None => js "gpt-4o"
  end.

(** The loop [while (retries < maxRetries)] around the request. It ends
    with the response ([break]), or by the [throw] of the third failure;
    [None] is [response] left undefined. Each turn that goes on has raised
    [retries], so [maxRetries] turns are enough. *)
Fixpoint request_loop (turns : nat) (req : ChatRequest) (retries : nat)
  : M (option ChatCompletion) :=
  match turns with
  | O => ret None
  | S turns' =>
      if (retries <? maxRetries)%nat then
        r <- try_catch
               (response <- await (AxiosPost req) ;; ret (inl response))
               (fun requestError =>
                  let retries := S retries in
                  if (maxRetries <=? retries)%nat then
                    throw (JsError
                             (js "Failed to get AI response after 3 attempts: "
                              ++ exn_message requestError))
                  else
                    sleep Out (1000 * 2 ^ Z.of_nat retries) ;;;
                    ret (inr retries)) ;;
        match r with
        | inl response => ret (Some response)
        | inr retries' => request_loop turns' req retries'
        end
      else ret None
  end.

(** The parsing of the response, from [response.data.choices[0]] on. *)
Definition parse_response (response : option ChatCompletion) : M Json :=
  match response with
  | None =>
      throw (JsError (js "Cannot read properties of undefined (reading 'data')"))
  | Some completion =>
      match choices completion with
      | [] =>
          throw (JsError
                   (js "Cannot read properties of undefined (reading 'message')"))
      | content :: _ =>
          match JSON_parse (content_string content) with
          | Some value => ret value
          | None =>
              match content with
              | ContentText aiResponse => ret (extract_structured aiResponse)
              | _ =>
                  throw (JsError
                           (js "Cannot read properties of undefined (reading 'match')"))
              end
          end
      end
  end.

(** [processWithAI(promptTemplate, data)]; [data_json] is
    [JSON.stringify(data, null, 2)]. *)
Definition processWithAI (promptTemplate data_json : jsstring) : M Json :=
  try_catch
    (let prompt := replace (js "{{DATA}}") data_json promptTemplate in
     feedbackPatterns <- FeedbackHandler.getFeedbackPatterns Out ;;
     let req :=
       mkChatRequest model_name (systemMessage feedbackPatterns) prompt in
     response <- request_loop maxRetries req 0 ;;
     parse_response response)
    (fun error =>
       throw (JsError (js "AI processing failed: " ++ exn_message error))).

End Operations.

End FetchHarvest.

(** ** A reader of JSON texts

    [JSON.parse] belongs to the language, and the operations above take it
    as a parameter. This reader follows the JSON grammar and stands for it
    where a text is to be read: [None] is the [SyntaxError]. *)

Module JsonText.

(** The white space of JSON: space, tab, line feed, carriage return. *)
Definition is_json_space (c : N) : bool :=
  ((c =? 32) || (c =? 9) || (c =? 10) || (c =? 13))%N.

Fixpoint skip_space (s : jsstring) : jsstring :=
  match s with
  | c :: rest => if is_json_space c then skip_space rest else s
  | [] => []
  end.

Definition hex_digit (c : N) : option N :=
  (if is_digit c then Some (c - 48)
   else if (97 <=? c) && (c <=? 102) then Some (c - 87)
   else if (65 <=? c) && (c <=? 70) then Some (c - 55)
   else None)%N.

(** The rest of a string literal after its opening quote. *)
Fixpoint read_string (acc : jsstring) (s : jsstring)
  : option (jsstring * jsstring) :=
  match s with
  | [] => None
  | c :: rest =>
      if (c =? 34)%N then Some (rev acc, rest)
      else if (c <? 32)%N then None
      else if (c =? 92)%N then
        match rest with
        | e :: rest' =>
            if (e =? 117)%N then
              match rest' with
              | h1 :: h2 :: h3 :: h4 :: rest'' =>
                  match hex_digit h1, hex_digit h2, hex_digit h3, hex_digit h4
                  with
                  | Some a, Some b, Some c', Some d =>
                      read_string
                        ((a * 4096 + b * 256 + c' * 16 + d)%N :: acc) rest''
                  | _, _, _, _ => None
                  end
              | _ => None
              end
            else
              match
                (if (e =? 34) || (e =? 92) || (e =? 47) then Some e
                 else if e =? 98 then Some 8
                 else if e =? 102 then Some 12
                 else if e =? 110 then Some 10
                 else if e =? 114 then Some 13
                 else if e =? 116 then Some 9
                 else None)%N
              with
              | Some u => read_string (u :: acc) rest'
              | None => None
              end
        | [] => None
        end
      else read_string (c :: acc) rest
  end.

Fixpoint take_digits (s : jsstring) : jsstring * jsstring :=
  match s with
  | c :: rest =>
      if is_digit c then
        let (ds, rest') := take_digits rest in (c :: ds, rest')
      else ([], s)
  | [] => ([], [])
  end.

(** A number: an optional minus; a zero, or digits that do not start with
    a zero; an optional point with digits; an optional exponent. *)
Definition read_number (s : jsstring) : option (jsstring * jsstring) :=
  let (sign, s1) :=
    match s with
    | c :: rest => if (c =? 45)%N then ([c], rest) else ([], s)
    | [] => ([], s)
    end in
  let (int, s2) := take_digits s1 in
  match int with
  | [] => None
  | d :: more =>
      if (d =? 48)%N && truthy more then None
      else
        let frac :=
          match s2 with
          | c :: rest =>
              if (c =? 46)%N then
                let (ds, rest') := take_digits rest in
                match ds with
                | [] => None
                | _ => Some (c :: ds, rest')
                end
              else Some ([], s2)
          | [] => Some ([], s2)
          end in
        match frac with
        | None => None
        | Some (fr, s3) =>
            let expo :=
              match s3 with
              | c :: rest =>
                  if (c =? 101)%N || (c =? 69)%N then
                    let (sg, rest1) :=
                      match rest with
                      | g :: rest' =>
                          if (g =? 43)%N || (g =? 45)%N
                          then ([g], rest') else ([], rest)
                      | [] => ([], rest)
                      end in
                    let (ds, rest2) := take_digits rest1 in
                    match ds with
                    | [] => None
                    | _ => Some (c :: sg ++ ds, rest2)
                    end
                  else Some ([], s3)
              | [] => Some ([], s3)
              end in
            match expo with
            | None => None
            | Some (ex, s4) => Some (sign ++ int ++ fr ++ ex, s4)
            end
        end
  end.

Definition read_literal (word : jsstring) (v : Json) (s : jsstring)
  : option (Json * jsstring) :=
  if prefix_by N.eqb word s then Some (v, skipn (List.length word) s)
  else None.

(** A value, the elements of an array after its bracket or a comma, and the
    members of an object after its brace or a comma. Every call reads at
    least one code unit every second step, so twice the length of the text
    is fuel enough. *)
Fixpoint read_value (fuel : nat) (s : jsstring) : option (Json * jsstring) :=
  match fuel with
  | O => None
  | S fuel' =>
      match skip_space s with
      | [] => None
      | c :: rest =>
          if (c =? 34)%N then
            match read_string [] rest with
            | Some (str, rest') => Some (JString str, rest')
            | None => None
            end
          else if (c =? 91)%N then
            match skip_space rest with
            | d :: rest' =>
                if (d =? 93)%N then Some (JArray [], rest')
                else
                  match read_elements fuel' rest with
                  | Some (items, rest'') => Some (JArray items, rest'')
                  | None => None
                  end
            | [] => None
            end
          else if (c =? 123)%N then
            match skip_space rest with
            | d :: rest' =>
                if (d =? 125)%N then Some (JObject [], rest')
                else
                  match read_members fuel' rest with
                  | Some (members, rest'') => Some (JObject members, rest'')
                  | None => None
                  end
            | [] => None
            end
          else if (c =? 110)%N then read_literal (js "null") JNull (c :: rest)
          else if (c =? 116)%N then
            read_literal (js "true") (JBool true) (c :: rest)
          else if (c =? 102)%N then
            read_literal (js "false") (JBool false) (c :: rest)
          else
            match read_number (c :: rest) with
            | Some (text, rest') => Some (JNumber text, rest')
            | None => None
            end
      end
  end

with read_elements (fuel : nat) (s : jsstring)
  : option (list Json * jsstring) :=
  match fuel with
  | O => None
  | S fuel' =>
      match read_value fuel' s with
      | Some (v, rest) =>
          match skip_space rest with
          | c :: rest' =>
              if (c =? 93)%N then Some ([v], rest')
              else if (c =? 44)%N then
                match read_elements fuel' rest' with
                | Some (vs, rest'') => Some (v :: vs, rest'')
                | None => None
                end
              else None
          | [] => None
          end
      | None => None
      end
  end

with read_members (fuel : nat) (s : jsstring)
  : option (list (jsstring * Json) * jsstring) :=
  match fuel with
  | O => None
  | S fuel' =>
      match skip_space s with
      | q :: rest0 =>
          if (q =? 34)%N then
            match read_string [] rest0 with
            | Some (key, rest1) =>
                match skip_space rest1 with
                | colon :: rest2 =>
                    if (colon =? 58)%N then
                      match read_value fuel' rest2 with
                      | Some (v, rest3) =>
                          match skip_space rest3 with
                          | c :: rest4 =>
                              if (c =? 125)%N then Some ([(key, v)], rest4)
                              else if (c =? 44)%N then
                                match read_members fuel' rest4 with
                                | Some (ms, rest5) =>
                                    Some ((key, v) :: ms, rest5)
                                | None => None
                                end
                              else None
                          | [] => None
                          end
                      | None => None
                      end
                    else None
                | [] => None
                end
            | None => None
            end
          else None
      | [] => None
      end
  end.

(** The members of an object in the order of the text; a key that comes
    again replaces the value it had. *)
Fixpoint normalize (fuel : nat) (v : Json) : Json :=
  match fuel with
  | O => v
  | S fuel' =>
      match v with
      | JArray items => JArray (map (normalize fuel') items)
      | JObject members =>
          JObject (fold_left
                     (fun m kv => JsMap.set (fst kv) (normalize fuel' (snd kv)) m)
                     members [])
      | _ => v
      end
  end.

Definition parse (text : jsstring) : option Json :=
  let fuel := (2 * List.length text + 2)%nat in
  match read_value fuel text with
  | Some (v, rest) =>
      match skip_space rest with
      | [] => Some (normalize fuel v)
      | _ => None
      end
  | None => None
  end.

End JsonText.

(** ** An environment held in memory

    The tables [clients], [feedback], [summaries] and [edit_analyses] as
    lists of rows, a completion endpoint that gives the answers of a list in
    order, and a clock. The tables [rejection_analyses], [analytics] and
    [projects] are not there (error 42P01). Every call takes one
    millisecond. *)

Module MemoryStore.

Record Mem := mkMem {
  m_clients : list Client;
  m_feedback : list Feedback;
  m_summaries : list Summary;
  m_edit_analyses : list EditAnalysis;
  m_endpoint : list (Outcome ChatCompletion);
  m_created : N;
  m_time : Z
}.

Definition ok {A} (a : A) : Response A := mkResponse (Some a) None.

Definition done : Response unit := mkResponse None None.

Definition failed {A} (code message : string) : Response A :=
  mkResponse None (Some (mkPgError (Some (js code)) (js message))).

Definition no_rows {A} : Response A :=
  failed "PGRST116" "JSON object requested, multiple (or no) rows returned".

Definition no_table {A} : Response A :=
  failed "42P01" "relation does not exist".

Definition fresh_id (n : N) : jsstring :=
  js (NilEmpty.string_of_uint (N.to_uint n)).

Definition single {A} (found : option A) : Response A :=
  match found with
  | Some a => ok a
  | None => no_rows
  end.

Definition with_clients (l : list Client) (m : Mem) : Mem :=
  mkMem l (m_feedback m) (m_summaries m) (m_edit_analyses m) (m_endpoint m)
        (m_created m) (m_time m).

Definition touch (u : ClientUpdates) (ids : list jsstring) (m : Mem) : Mem :=
  with_clients
    (map (fun c => if includes ids (client_id c)
                   then ContextStore.apply_updates u c else c)
         (m_clients m)) m.

Definition answer {A} (call : Ext A) (m : Mem) : Outcome A * Mem :=
  match call in Ext T return Outcome T * Mem with
  | ClientsSelectInName names =>
      (Returned (ok (filter (fun c => includes names (client_name c))
                            (m_clients m))), m)
  | ClientsSelectEqId id =>
      (Returned (single (find (fun c => eqb (client_id c) id) (m_clients m))),
       m)
  | ClientsSelectEqName name =>
      (Returned (single (find (fun c => eqb (client_name c) name)
                              (m_clients m))), m)
  | ClientsInsert row =>
      if existsb (fun c => eqb (client_name c) (ci_name row)) (m_clients m)
      then (Returned (failed "23505"
                        "duplicate key value violates unique constraint"), m)
      else
        let client :=
          mkClient (fresh_id (m_created m)) (ci_name row) (ci_profile row)
                   (Some (ci_last_mentioned row)) (Some (ci_created_at row))
                   (Some (ci_updated_at row)) in
        (Returned (ok client),
         mkMem (m_clients m ++ [client]) (m_feedback m) (m_summaries m)
               (m_edit_analyses m) (m_endpoint m) (m_created m + 1)%N
               (m_time m))
  | ClientsUpdateEqId u id => (Returned done, touch u [id] m)
  | ClientsUpdateInId u ids => (Returned done, touch u ids m)
  | FeedbackInsert row =>
      if existsb (fun s => eqb (summary_id s) (fd_summary_id row))
                 (m_summaries m)
      then
        let feedback :=
          mkFeedback (fresh_id (m_created m)) (Some (fd_summary_id row))
                     (fd_rating row) (fd_comment row)
                     (Some (fd_created_at row)) (fd_user_id row) in
        (Returned (ok feedback),
         mkMem (m_clients m) (m_feedback m ++ [feedback]) (m_summaries m)
               (m_edit_analyses m) (m_endpoint m) (m_created m + 1)%N
               (m_time m))
      else (Returned (failed "23503"
                        "insert violates foreign key constraint"), m)
  | FeedbackSelectSince since =>
      (Returned (ok (filter (fun f => match fb_created_at f with
                                      | Some t => since <=? t
                                      | None => false
                                      end)
                            (m_feedback m))), m)
  | FeedbackSelectRejected summary =>
      (Returned (ok (filter (fun f =>
                               match fb_summary_id f with
                               | Some id => eqb id summary
                               | None => false
                               end
                               && eqb (fb_rating f) FeedbackHandler.REJECTED)
                            (m_feedback m))), m)
  | SummariesSelectEqId id =>
      (Returned (single (find (fun s => eqb (summary_id s) id)
                              (m_summaries m))), m)
  | SummariesSelectSourceEqId id =>
      (Returned (single (find (fun s => eqb (summary_id s) id)
                              (m_summaries m))), m)
  | SummariesSelectRecent source limit =>
      (Returned (ok (firstn limit
                       (rev (filter
                               (fun s =>
                                  match summary_source s, source with
                                  | Some a, Some b => eqb a b
                                  | _, _ => false
                                  end)
                               (m_summaries m))))), m)
  | FeedbackPatternsInsert _ => (Returned done, m)
  | EditAnalysesInsert row =>
      (Returned done,
       mkMem (m_clients m) (m_feedback m) (m_summaries m)
             (m_edit_analyses m ++ [row]) (m_endpoint m) (m_created m)
             (m_time m))
  | EditAnalysesSelectRecent limit =>
      (Returned (ok (firstn limit (rev (m_edit_analyses m)))), m)
  | RejectionAnalysesInsert _ => (Returned no_table, m)
  | AnalyticsInsert _ => (Returned no_table, m)
  | ProjectsSelectEqId _ => (Returned no_table, m)
  | ProjectsSelectEqClientId _ => (Returned no_table, m)
  | AxiosPost _ =>
      match m_endpoint m with
      | o :: rest =>
          (o, mkMem (m_clients m) (m_feedback m) (m_summaries m)
                    (m_edit_analyses m) rest (m_created m) (m_time m))
      | [] => (Threw (JsError (js "Network Error")), m)
      end
  end.

Definition advance (ms : Z) (m : Mem) : Mem :=
  mkMem (m_clients m) (m_feedback m) (m_summaries m) (m_edit_analyses m)
        (m_endpoint m) (m_created m) (m_time m + ms).

Definition memory : Environment Mem :=
  mkEnvironment
    (fun A call m => let (o, m') := answer call m in (o, advance 1 m'))
    advance
    m_time.

(** The world at the start of the process, around a given memory: the maps
    are empty and [shortTermCache.lastUpdated] is the time of the start. *)
Definition start (m : Mem) : World Mem :=
  mkWorld (mkShortTermCache [] (m_time m) [] (m_time m))
          FeedbackHandler.feedbackPatternsCache0 m [].

End MemoryStore.

(** * Properties *)

(** ** Strings *)

Module JsStringFacts.

Lemma eqb_eq a b : eqb a b = true <-> a = b.
Proof. unfold eqb. destruct (list_eq_dec N.eq_dec a b); split; congruence. Qed.

Lemma eqb_refl a : eqb a a = true.
Proof. now apply eqb_eq. Qed.

Lemma eqb_neq a b : eqb a b = false <-> a <> b.
Proof. unfold eqb. destruct (list_eq_dec N.eq_dec a b); split; congruence. Qed.

Lemma eqb_sym a b : eqb a b = eqb b a.
Proof.
  destruct (eqb b a) eqn:Hba.
  - apply eqb_eq in Hba. subst. apply eqb_refl.
  - apply eqb_neq. apply eqb_neq in Hba. congruence.
Qed.

Lemma includes_In l x : includes l x = true <-> In x l.
Proof.
  unfold includes. rewrite existsb_exists. split.
  - intros [y [Hy He]]. apply eqb_eq in He. now subst.
  - intros Hin. exists x. split; [assumption | apply eqb_refl].
Qed.

Lemma includes_not_In l x : includes l x = false <-> ~ In x l.
Proof.
  rewrite <- includes_In. destruct (includes l x); split; congruence.
Qed.

End JsStringFacts.

Import JsStringFacts.

(** ** Name extraction *)

Module NamesSpec.

(** The extraction in the words of its description: a token is a candidate
    when, once its punctuation is removed, it is longer than one character,
    starts with a capital letter and is not a common word; candidates that
    follow each other are joined by a space into one name. [current] is the
    name being read. *)
Definition candidate (token : jsstring) : bool :=
  let word := strip_punct token in
  (1 <? List.length word)%nat && starts_upper word
  && negb (includes commonWords word).

Fixpoint merge_adjacent (current : option jsstring) (tokens : list jsstring)
  : list jsstring :=
  match tokens with
  | [] =>
      match current with
      | Some name => [name]
      | None => []
      end
  | token :: rest =>
      if candidate token then
        merge_adjacent
          (Some (match current with
                 | Some name => name ++ js " " ++ strip_punct token
                 | None => strip_punct token
                 end))
          rest
      else
        match current with
        | Some name => name :: merge_adjacent None rest
        | None => merge_adjacent None rest
        end
  end.

(** The inner loop of [names_from], on its own. *)
Definition extend (name : jsstring) (ws : list jsstring) : list jsstring :=
  (fix extend (name : jsstring) (ws : list jsstring) {struct ws}
     : list jsstring :=
     match ws with
     | [] => [name]
     | w' :: rest' =>
         let nextWord := strip_punct w' in
         if name_word nextWord
         then extend (name ++ js " " ++ nextWord) rest'
         else name :: names_from ws
     end) name ws.

Lemma names_from_cons w rest :
  names_from (w :: rest) =
  if name_word (strip_punct w) then extend (strip_punct w) rest
  else names_from rest.
Proof. reflexivity. Qed.

Lemma extend_nil name : extend name [] = [name].
Proof. reflexivity. Qed.

Lemma extend_cons name w rest :
  extend name (w :: rest) =
  if name_word (strip_punct w)
  then extend (name ++ js " " ++ strip_punct w) rest
  else name :: names_from (w :: rest).
Proof. reflexivity. Qed.

Lemma candidate_name_word token : candidate token = name_word (strip_punct token).
Proof. reflexivity. Qed.

Lemma names_from_merge words :
  names_from words = merge_adjacent None words
  /\ forall name, extend name words = merge_adjacent (Some name) words.
Proof.
  induction words as [| w rest [IHn IHe]].
  - split; [reflexivity | intros; reflexivity].
  - split.
    + rewrite names_from_cons. cbn [merge_adjacent].
      rewrite candidate_name_word.
      destruct (name_word (strip_punct w)); [apply IHe | apply IHn].
    + intros name. rewrite extend_cons, names_from_cons.
      cbn [merge_adjacent]. rewrite candidate_name_word.
      destruct (name_word (strip_punct w)); [apply IHe | now rewrite IHn].
Qed.

(** No common word holds a space. *)
Lemma common_words_no_space :
  forallb (fun w => negb (existsb (N.eqb 32) w)) commonWords = true.
Proof. vm_compute. reflexivity. Qed.

Lemma spaced_not_common a b : isCommonWord (a ++ js " " ++ b) = false.
Proof.
  apply includes_not_In. intros Hin.
  pose proof common_words_no_space as Hall.
  rewrite forallb_forall in Hall. specialize (Hall _ Hin).
  apply negb_true_iff in Hall.
  assert (Hex : existsb (N.eqb 32) (a ++ js " " ++ b) = true).
  { apply existsb_exists. exists 32%N. split; [| reflexivity].
    apply in_or_app. right. simpl. now left. }
  congruence.
Qed.

Lemma merge_adjacent_not_common tokens :
  forall current name,
    (forall n, current = Some n -> isCommonWord n = false) ->
    In name (merge_adjacent current tokens) -> isCommonWord name = false.
Proof.
  induction tokens as [| token rest IH]; intros current name Hcur Hin.
  - destruct current as [n |]; simpl in Hin; [| contradiction].
    destruct Hin as [<- | []]. now apply Hcur.
  - cbn [merge_adjacent] in Hin.
    destruct (candidate token) eqn:Hc.
    + eapply IH; [| exact Hin].
      intros n Hn. injection Hn as <-.
      destruct current as [n0 |].
      * apply spaced_not_common.
      * unfold candidate in Hc.
        apply andb_true_iff in Hc. destruct Hc as [_ Hc].
        now apply negb_true_iff in Hc.
    + destruct current as [n0 |].
      * destruct Hin as [<- | Hin]; [now apply Hcur |].
        eapply IH; [| exact Hin]. intros n Hn. discriminate.
      * eapply IH; [| exact Hin]. intros n Hn. discriminate.
Qed.

End NamesSpec.

(** ** The names of a batch *)

Module BatchNames.

Import ContextStore.

Lemma set_add_keeps name s x : In x s -> In x (set_add name s).
Proof.
  unfold set_add. intros Hin.
  destruct (includes s name); [assumption | apply in_or_app; now left].
Qed.

Lemma set_add_has name s : In name (set_add name s).
Proof.
  unfold set_add. destruct (includes s name) eqn:Hi.
  - now apply includes_In.
  - apply in_or_app. right. now left.
Qed.

Lemma add_each_keeps names : forall s x, In x s -> In x (add_each names s).
Proof.
  unfold add_each. induction names as [| n rest IH]; intros s x Hin.
  - exact Hin.
  - simpl. apply IH. now apply set_add_keeps.
Qed.

Lemma add_each_has names : forall s x, In x names -> In x (add_each names s).
Proof.
  unfold add_each. induction names as [| n rest IH]; intros s x Hin.
  - contradiction.
  - simpl. destruct Hin as [-> | Hin].
    + apply (add_each_keeps rest). apply set_add_has.
    + now apply IH.
Qed.

Lemma add_from_text_keeps field s x : In x s -> In x (add_from_text field s).
Proof.
  unfold add_from_text. intros Hin.
  destruct field as [text |]; [| assumption].
  destruct (truthy text); [now apply add_each_keeps | assumption].
Qed.

Lemma add_client_details_keeps d s x :
  In x s -> In x (add_client_details d s).
Proof.
  unfold add_client_details. intros Hin.
  destruct d as [[name |] |]; try assumption.
  destruct (truthy name); [now apply set_add_keeps | assumption].
Qed.

Lemma add_item_keeps item s x : In x s -> In x (add_item s item).
Proof.
  unfold add_item. intros Hin.
  apply add_from_text_keeps, add_from_text_keeps, add_client_details_keeps,
    add_from_text_keeps, add_from_text_keeps, Hin.
Qed.

Lemma fold_add_item_keeps data : forall s x,
  In x s -> In x (fold_left add_item data s).
Proof.
  induction data as [| item rest IH]; intros s x Hin; simpl.
  - exact Hin.
  - apply IH. now apply add_item_keeps.
Qed.

(** A name read in the text of an item is among the names of the batch. *)
Lemma text_name_extracted pre item post text name :
  item_text item = Some text ->
  truthy text = true ->
  In name (extractNamesFromText text) ->
  In name (extractClientNames (pre ++ item :: post)).
Proof.
  intros Htext Htruthy Hname. unfold extractClientNames.
  rewrite fold_left_app. simpl. apply fold_add_item_keeps.
  unfold add_item. rewrite Htext.
  apply add_from_text_keeps, add_from_text_keeps, add_client_details_keeps,
    add_from_text_keeps.
  unfold add_from_text. rewrite Htruthy. now apply add_each_has.
Qed.

Definition acme_text : jsstring := js "Acme Corp needs an update".

Definition acme_item : Item := mkItem (Some acme_text) None None None.

(** A Harvest time entry of a client called "The". *)
Definition harvest_the : Item := mkItem None None (Some (Some (js "The"))) None.

(** C7, as stated, fails on two counts. A Harvest entry puts the name of its
    client among the names as it is, so a batch that holds the record "Acme
    Corp needs an update" can give the stop-word "The"; and a token of one
    letter, as the "B" of "Plan B", is capitalized and is no stop-word, yet
    is no candidate and is not joined to the name before it. *)
Lemma names_claim_counterexample :
  In (js "The") (extractClientNames [acme_item; harvest_the])
  /\ starts_upper (js "B") = true
  /\ isCommonWord (js "B") = false
  /\ extractNamesFromText (js "B") = []
  /\ extractNamesFromText (js "Plan B needs review") = [js "Plan"].
Proof. vm_compute. repeat split. right. now left. Qed.

(** C7, amended. Every batch that holds a record whose text is "Acme Corp
    needs an update" gives the name "Acme Corp"; no name read from a text is
    a common word; and the names read from a text are those obtained by
    taking as a candidate each token that, without its punctuation, is longer
    than one character, starts with a capital letter A to Z and is not in
    the list of common words, and by joining adjacent candidates with a
    space. *)
Theorem names_extracted :
  (forall pre item post,
      item_text item = Some acme_text ->
      In (js "Acme Corp") (extractClientNames (pre ++ item :: post)))
  /\ (forall text name,
         In name (extractNamesFromText text) -> isCommonWord name = false)
  /\ (forall text,
         extractNamesFromText text =
         NamesSpec.merge_adjacent None (split_ws text))
  /\ (forall token,
         NamesSpec.candidate token = true <->
         (1 < List.length (strip_punct token))%nat
         /\ starts_upper (strip_punct token) = true
         /\ ~ In (strip_punct token) commonWords).
Proof.
  split; [| split; [| split]].
  - intros pre item post Htext.
    apply (text_name_extracted pre item post (text := acme_text));
      [assumption | reflexivity |].
    vm_compute. now left.
  - intros text name Hin. unfold extractNamesFromText in Hin.
    rewrite (proj1 (NamesSpec.names_from_merge _)) in Hin.
    eapply NamesSpec.merge_adjacent_not_common; [| exact Hin].
    intros n Hn. discriminate.
  - intros text. unfold extractNamesFromText.
    apply (proj1 (NamesSpec.names_from_merge _)).
  - intros token. unfold NamesSpec.candidate.
    rewrite !andb_true_iff, Nat.ltb_lt, negb_true_iff, includes_not_In.
    tauto.
Qed.

Lemma names_extracted_witness :
  In (js "Acme Corp") (extractClientNames ([harvest_the] ++ acme_item :: []))
  /\ isCommonWord (js "Acme Corp") = false.
Proof.
  split.
  - apply (proj1 names_extracted [harvest_the] acme_item []). reflexivity.
  - apply (proj1 (proj2 names_extracted) acme_text (js "Acme Corp")).
    vm_compute. now left.
Defined.

End BatchNames.

(** ** Sorting and pruning *)

Module PruneFacts.

Import ContextStore.

Section Oldest.
Variable A : Type.
Variable key : A -> Z.

(** The element that eviction takes first: the one of least key, the
    earliest of the list among equals. *)
Fixpoint oldest (l : list A) : option A :=
  match l with
  | [] => None
  | x :: rest =>
      match oldest rest with
      | Some y => if key x <=? key y then Some x else Some y
      | None => Some x
      end
  end.

Lemma insert_sorted_perm x l : Permutation (insert_sorted key x l) (x :: l).
Proof.
  induction l as [| y rest IH]; simpl.
  - apply Permutation_refl.
  - destruct (key x <=? key y).
    + apply Permutation_refl.
    + eapply perm_trans; [apply perm_skip, IH | apply perm_swap].
Qed.

Lemma sort_by_perm l : Permutation (sort_by key l) l.
Proof.
  induction l as [| x rest IH]; simpl.
  - apply perm_nil.
  - eapply perm_trans; [apply insert_sorted_perm | now apply perm_skip].
Qed.

Lemma sort_by_length l : List.length (sort_by key l) = List.length l.
Proof. apply Permutation_length, sort_by_perm. Qed.

Lemma hd_insert_sorted x l :
  hd_error (insert_sorted key x l) =
  match hd_error l with
  | Some y => if key x <=? key y then Some x else Some y
  | None => Some x
  end.
Proof.
  destruct l as [| y rest]; simpl; [reflexivity |].
  now destruct (key x <=? key y).
Qed.

Lemma hd_sort_by l : hd_error (sort_by key l) = oldest l.
Proof.
  induction l as [| x rest IH]; simpl; [reflexivity |].
  now rewrite hd_insert_sorted, IH.
Qed.

Lemma oldest_split l v :
  oldest l = Some v ->
  exists pre post,
    l = pre ++ v :: post
    /\ (forall z, In z pre -> key v < key z)
    /\ (forall z, In z post -> key v <= key z).
Proof.
  revert v. induction l as [| x rest IH]; intros v Hv; simpl in Hv.
  - discriminate.
  - destruct (oldest rest) as [y |] eqn:Hy.
    + destruct (IH y eq_refl) as (pre & post & Hl & Hpre & Hpost).
      destruct (key x <=? key y) eqn:Hle; injection Hv as <-.
      * apply Z.leb_le in Hle.
        exists [], rest. split; [reflexivity |]. split; [intros z [] |].
        intros z Hz. subst rest. apply in_app_or in Hz.
        destruct Hz as [Hz | [<- | Hz]].
        -- specialize (Hpre z Hz). lia.
        -- exact Hle.
        -- specialize (Hpost z Hz). lia.
      * apply Z.leb_gt in Hle.
        exists (x :: pre), post. subst rest. split; [reflexivity |].
        split; [| exact Hpost].
        intros z [<- | Hz]; [exact Hle | now apply Hpre].
    + injection Hv as <-. destruct rest as [| r rest'].
      * exists [], []. repeat split; intros z [].
      * simpl in Hy. destruct (oldest rest'); [destruct (key r <=? _) |];
          discriminate.
Qed.

End Oldest.

Lemma NoDup_app_disjoint (l l' : list jsstring) x :
  NoDup (l ++ l') -> In x l -> In x l' -> False.
Proof.
  induction l as [| a rest IH]; intros Hnd Hl Hl'; [contradiction |].
  simpl in Hnd. inversion Hnd as [| ? ? Hnot Hrest]; subst.
  destruct Hl as [-> | Hl].
  - apply Hnot, in_or_app. now right.
  - now apply IH.
Qed.

Section Maps.
Variable V : Type.

Definition keys (m : JsMap.t V) : list jsstring := map fst m.

Lemma delete_absent id (m : JsMap.t V) :
  ~ In id (keys m) -> JsMap.delete id m = m.
Proof.
  induction m as [| [k v] rest IH]; intros Hnot; simpl; [reflexivity |].
  simpl in Hnot. destruct (eqb id k) eqn:He.
  - apply eqb_eq in He. subst. exfalso. apply Hnot. now left.
  - simpl. f_equal. apply IH. intros Hin. apply Hnot. now right.
Qed.

Lemma delete_present pre id v (post : JsMap.t V) :
  NoDup (keys (pre ++ (id, v) :: post)) ->
  JsMap.delete id (pre ++ (id, v) :: post) = pre ++ post.
Proof.
  intros Hnd. unfold keys in Hnd. rewrite map_app in Hnd. simpl in Hnd.
  pose proof (NoDup_remove_2 _ _ _ Hnd) as Hnot.
  unfold JsMap.delete. rewrite filter_app. simpl.
  rewrite eqb_refl. simpl.
  fold (JsMap.delete id pre). fold (JsMap.delete id post).
  rewrite !delete_absent; [reflexivity | |];
    intros Hin; apply Hnot, in_or_app; [now right | now left].
Qed.

Lemma set_keys id v (m : JsMap.t V) :
  keys (JsMap.set id v m) = if JsMap.has id m then keys m else keys m ++ [id].
Proof.
  unfold JsMap.has. induction m as [| [k x] rest IH]; simpl; [reflexivity |].
  destruct (eqb id k) eqn:He.
  - simpl. apply eqb_eq in He. now subst.
  - simpl. rewrite IH. now destruct (JsMap.get id rest).
Qed.

Lemma has_In id (m : JsMap.t V) : JsMap.has id m = true <-> In id (keys m).
Proof.
  unfold JsMap.has. induction m as [| [k x] rest IH]; simpl.
  - split; [discriminate | intros []].
  - destruct (eqb id k) eqn:He.
    + apply eqb_eq in He. subst. split; [now left | reflexivity].
    + apply eqb_neq in He. rewrite IH. split; [now right |].
      intros [Hk | Hin]; [congruence | assumption].
Qed.

Lemma set_NoDup id v (m : JsMap.t V) :
  NoDup (keys m) -> NoDup (keys (JsMap.set id v m)).
Proof.
  intros Hnd. rewrite set_keys. destruct (JsMap.has id m) eqn:Hh.
  - exact Hnd.
  - apply NoDup_app; [exact Hnd | repeat constructor; intros [] |].
    intros k Hk [<- | []]. apply has_In in Hk. congruence.
Qed.

(** Deleting the keys of [gone] one after the other keeps the entries whose
    key is none of them. *)
Lemma delete_each (gone : list (jsstring * V)) : forall m : JsMap.t V,
  fold_left (fun m e => JsMap.delete (fst e) m) gone m =
  filter (fun e => negb (existsb (fun g => eqb (fst g) (fst e)) gone)) m.
Proof.
  induction gone as [| g rest IH]; intros m; simpl.
  - induction m as [| e m' IHm]; simpl; [reflexivity | now rewrite <- IHm].
  - rewrite IH. unfold JsMap.delete.
    induction m as [| e m' IHm]; simpl; [reflexivity |].
    destruct (eqb (fst g) (fst e)); simpl; [exact IHm |].
    destruct (existsb _ rest); simpl; [exact IHm | now rewrite IHm].
Qed.

Lemma filter_perm_length (f : jsstring * V -> bool) l l' :
  Permutation l l' -> List.length (filter f l) = List.length (filter f l').
Proof.
  induction 1 as [| x l l' _ IH | x y l | l l' l'' _ IH1 _ IH2]; simpl.
  - reflexivity.
  - destruct (f x); simpl; congruence.
  - destruct (f x), (f y); reflexivity.
  - congruence.
Qed.

Lemma filter_all (f : jsstring * V -> bool) l :
  (forall e, In e l -> f e = true) -> filter f l = l.
Proof.
  induction l as [| e rest IH]; intros Hall; simpl; [reflexivity |].
  rewrite (Hall e (or_introl eq_refl)). f_equal.
  apply IH. intros e' He'. apply Hall. now right.
Qed.

Lemma filter_none (f : jsstring * V -> bool) l :
  (forall e, In e l -> f e = false) -> filter f l = [].
Proof.
  induction l as [| e rest IH]; intros Hall; simpl; [reflexivity |].
  rewrite (Hall e (or_introl eq_refl)).
  apply IH. intros e' He'. apply Hall. now right.
Qed.

(** Of a list with distinct keys, what is left after the keys of its
    front part are removed is its back part. *)
Lemma filter_front_gone (front back : list (jsstring * V)) :
  NoDup (keys (front ++ back)) ->
  filter (fun e => negb (existsb (fun g => eqb (fst g) (fst e)) front))
         (front ++ back) = back.
Proof.
  intros Hnd. rewrite filter_app, filter_none, filter_all; [reflexivity | |].
  - intros e He. apply negb_true_iff.
    destruct (existsb (fun g => eqb (fst g) (fst e)) front) eqn:Hex;
      [| reflexivity].
    apply existsb_exists in Hex. destruct Hex as (g & Hg & Heq).
    apply eqb_eq in Heq. exfalso.
    assert (Hf : In (fst e) (map fst front))
      by (rewrite <- Heq; now apply in_map).
    assert (Hb : In (fst e) (map fst back)) by now apply in_map.
    unfold keys in Hnd. rewrite map_app in Hnd.
    exact (NoDup_app_disjoint _ _ _ Hnd Hf Hb).
  - intros e He. apply negb_false_iff, existsb_exists.
    exists e. split; [exact He | apply eqb_refl].
Qed.

Variable date : V -> Z.

(** Pruning a map that holds more than [MAX_CACHE_SIZE] entries leaves
    [MAX_CACHE_SIZE] of them. *)
Lemma prune_map_size (m : JsMap.t V) :
  NoDup (keys m) ->
  (MAX_CACHE_SIZE < JsMap.size m)%nat ->
  JsMap.size (prune_map date m) = MAX_CACHE_SIZE.
Proof.
  intros Hnd Hbig. unfold prune_map.
  apply Nat.ltb_lt in Hbig. rewrite Hbig. apply Nat.ltb_lt in Hbig.
  pose proof (sort_by_perm (fun e => date (snd e)) m) as Hperm.
  pose proof (sort_by_length (fun e => date (snd e)) m) as Hlen.
  remember (sort_by (fun e => date (snd e)) m) as sorted eqn:Hs.
  remember (List.length sorted - MAX_CACHE_SIZE)%nat as k eqn:Hk.
  rewrite delete_each. unfold JsMap.size in *.
  rewrite (filter_perm_length _ (Permutation_sym Hperm)).
  assert (Hnds : NoDup (keys sorted)).
  { eapply Permutation_NoDup; [| exact Hnd].
    apply Permutation_map, Permutation_sym, Hperm. }
  assert (Hsplit : sorted = firstn k sorted ++ skipn k sorted)
    by (symmetry; apply firstn_skipn).
  remember (firstn k sorted) as front eqn:Hfront.
  rewrite Hsplit in Hnds. rewrite Hsplit.
  rewrite (filter_front_gone _ _ Hnds).
  rewrite length_skipn. lia.
Qed.

(** Pruning a map of [MAX_CACHE_SIZE + 1] entries removes its oldest entry
    and nothing else. *)
Lemma prune_map_one_over (m : JsMap.t V) :
  NoDup (keys m) ->
  JsMap.size m = S MAX_CACHE_SIZE ->
  exists pre id victim post,
    m = pre ++ (id, victim) :: post
    /\ prune_map date m = pre ++ post
    /\ (forall e, In e pre -> date victim < date (snd e))
    /\ (forall e, In e post -> date victim <= date (snd e)).
Proof.
  intros Hnd Hsize. unfold prune_map. rewrite Hsize.
  replace (MAX_CACHE_SIZE <? S MAX_CACHE_SIZE)%nat with true by reflexivity.
  rewrite sort_by_length. unfold JsMap.size in Hsize. rewrite Hsize.
  replace (S MAX_CACHE_SIZE - MAX_CACHE_SIZE)%nat with 1%nat by reflexivity.
  pose proof (hd_sort_by (fun e => date (snd e)) m) as Hhd.
  destruct (sort_by (fun e => date (snd e)) m) as [| [id victim] sorted] eqn:Hs.
  - pose proof (sort_by_length (fun e => date (snd e)) m) as Hl.
    rewrite Hs, Hsize in Hl. discriminate.
  - simpl in Hhd. symmetry in Hhd.
    destruct (oldest_split _ _ Hhd) as (pre & post & Hm & Hpre & Hpost).
    exists pre, id, victim, post. simpl.
    split; [exact Hm |]. split; [| split; assumption].
    rewrite Hm. apply delete_present. now rewrite <- Hm.
Qed.

End Maps.

End PruneFacts.

(** ** Running the operations of the context store *)

Module ContextStoreRuns.

Import ContextStore PruneFacts.

Definition set_cache {E} (c : ShortTermCache) (w : World E) : World E :=
  mkWorld c (feedbackPatternsCache w) (env w) (trace w).

(** The map after the loop of [updateClientCache] over the new clients. *)
Definition merged (new_clients : list Client) (m : JsMap.t Client)
  : JsMap.t Client :=
  fold_left
    (fun m client =>
       if truthy (client_id client) then JsMap.set (client_id client) client m
       else m)
    new_clients m.

(** The date by which clients are sorted. *)
Definition client_date (c : Client) : Z := date_or_epoch (last_mentioned c).

(** The cache after [updateClientCache] at the time [now]. *)
Definition updated (now : Z) (new_clients : list Client) (c : ShortTermCache)
  : ShortTermCache :=
  match new_clients with
  | [] => c
  | _ =>
      let c' := with_lastUpdated now (with_clients (merged new_clients (clients c)) c) in
      if (MAX_CACHE_SIZE <? JsMap.size (clients c'))%nat then pruned c' else c'
  end.

Section Runs.
Variable E : Type.
Variable Out : Environment E.

Lemma set_cache_same (w : World E) : set_cache (shortTermCache w) w = w.
Proof. now destruct w. Qed.

Lemma with_clients_same c : with_clients (clients c) c = c.
Proof. now destruct c. Qed.

Lemma for_each_set (new_clients : list Client) : forall w : World E,
  for_each new_clients
    (fun client =>
       if truthy (client_id client)
       then cache_set (E := E) (client_id client) client
       else ret tt) w
  = (Returned tt,
     set_cache (with_clients (merged new_clients (clients (shortTermCache w)))
                             (shortTermCache w)) w).
Proof.
  induction new_clients as [| client rest IH]; intros w.
  - simpl. unfold ret. now rewrite with_clients_same, set_cache_same.
  - cbn [for_each merged fold_left]. unfold bind at 1.
    destruct (truthy (client_id client)).
    + unfold cache_set, bind, get_cache, put_cache.
      rewrite IH. reflexivity.
    + unfold ret at 1. apply IH.
Qed.

Lemma updateClientCache_run (new_clients : list Client) (w : World E) :
  updateClientCache Out new_clients w
  = (Returned tt,
     set_cache (updated (clock Out (env w)) new_clients (shortTermCache w)) w).
Proof.
  destruct new_clients as [| client rest].
  - simpl. unfold ret. now rewrite set_cache_same.
  - unfold updateClientCache, updated.
    unfold bind at 1. rewrite for_each_set.
    unfold bind, Date_now, get_cache, put_cache, pruneCache. cbn -[merged pruned Nat.ltb MAX_CACHE_SIZE].
    destruct (MAX_CACHE_SIZE <? _)%nat; reflexivity.
Qed.

Lemma merged_NoDup (new_clients : list Client) : forall m,
  NoDup (keys m) -> NoDup (keys (merged new_clients m)).
Proof.
  induction new_clients as [| client rest IH]; intros m Hnd; simpl.
  - exact Hnd.
  - apply IH. destruct (truthy (client_id client)); [| exact Hnd].
    now apply set_NoDup.
Qed.

End Runs.

End ContextStoreRuns.

(** ** Eviction *)

Module Eviction.

Import ContextStore PruneFacts ContextStoreRuns.

(** A client of the examples: row number [n], last mentioned at [t]. *)
Definition numbered (n : N) (t : option Timestamp) : Client :=
  mkClient (MemoryStore.fresh_id n) (js "Client " ++ MemoryStore.fresh_id n)
           [] t (Some 1700000000000) (Some 1700000000000).

(** A full cache: the clients 0 to 99, the client [n] last mentioned at
    [when n]. *)
Definition full_cache (when : nat -> option Timestamp) : JsMap.t Client :=
  map (fun n => let c := numbered (N.of_nat n) (when n) in (client_id c, c))
      (seq 0 100).

Definition full_world (when : nat -> option Timestamp)
  : World MemoryStore.Mem :=
  mkWorld (mkShortTermCache (full_cache when) 1700000000000 [] 1700000000000)
          FeedbackHandler.feedbackPatternsCache0
          (MemoryStore.mkMem [] [] [] [] [] 200 1700000100000) [].

(** The client 0 was never mentioned, the client 1 was last mentioned on
    the last day of 1969, the others in November 2023. *)
Definition before_epoch (n : nat) : option Timestamp :=
  match n with
  | O => None
  | S O => Some (-86400000)
  | _ => Some (1700000000000 + Z.of_nat n)
  end.

(** The client 0 was never mentioned, the others in November 2023. *)
Definition after_epoch (n : nat) : option Timestamp :=
  match n with
  | O => None
  | _ => Some (1700000000000 + Z.of_nat n)
  end.

Definition newcomer : Client := numbered 100 (Some 1700000050000).

(** The full world after a lookup has brought the newcomer. *)
Definition after_lookup (when : nat -> option Timestamp)
  : World MemoryStore.Mem :=
  snd (updateClientCache MemoryStore.memory [newcomer] (full_world when)).

Fixpoint distinct (l : list jsstring) : bool :=
  match l with
  | [] => true
  | x :: rest => negb (includes rest x) && distinct rest
  end.

Lemma distinct_NoDup l : distinct l = true -> NoDup l.
Proof.
  induction l as [| x rest IH]; simpl; intros Hd; [constructor |].
  apply andb_true_iff in Hd. destruct Hd as [Hx Hrest].
  constructor; [| now apply IH].
  apply negb_true_iff in Hx. now apply includes_not_In.
Qed.

Section Eviction.
Variable E : Type.
Variable Out : Environment E.

Lemma updated_clients now new_clients c :
  new_clients <> [] ->
  clients (updated now new_clients c) =
  prune_map client_date (merged new_clients (clients c)).
Proof.
  intros Hne. unfold updated. destruct new_clients as [| x l]; [congruence |].
  set (c' := with_lastUpdated now (with_clients (merged (x :: l) (clients c)) c)).
  assert (Hc : clients c' = merged (x :: l) (clients c)) by reflexivity.
  destruct (MAX_CACHE_SIZE <? JsMap.size (clients c'))%nat eqn:Hbig.
  - change (clients (pruned c')) with (prune_map client_date (clients c')).
    now rewrite Hc.
  - rewrite Hc in Hbig. unfold prune_map. rewrite Hbig. exact Hc.
Qed.

Lemma delete_NoDup {V} id (m : JsMap.t V) :
  NoDup (keys m) -> NoDup (keys (JsMap.delete id m)).
Proof.
  unfold JsMap.delete, keys. induction m as [| [k v] rest IH]; intros Hnd.
  - constructor.
  - simpl in Hnd. inversion Hnd as [| ? ? Hnot Hrest]; subst.
    simpl. destruct (negb (eqb id k)); [| now apply IH].
    simpl. constructor; [| now apply IH].
    intros Hin. apply Hnot. apply in_map_iff in Hin.
    destruct Hin as (e & He & Hin). apply filter_In in Hin.
    apply in_map_iff. exists e. now split.
Qed.

Lemma prune_map_NoDup {V} (date : V -> Z) (m : JsMap.t V) :
  NoDup (keys m) -> NoDup (keys (prune_map date m)).
Proof.
  intros Hnd. unfold prune_map.
  destruct (MAX_CACHE_SIZE <? JsMap.size m)%nat; [| exact Hnd].
  generalize (firstn (List.length (sort_by (fun e => date (snd e)) m)
                      - MAX_CACHE_SIZE)
                     (sort_by (fun e => date (snd e)) m)).
  intros gone. revert m Hnd.
  induction gone as [| g rest IH]; intros m Hnd; simpl; [exact Hnd |].
  apply IH. now apply delete_NoDup.
Qed.

(** The keys of the map of clients stay distinct through
    [updateClientCache]. *)
Lemma update_keeps_distinct (w : World E) new_clients :
  NoDup (keys (clients (shortTermCache w))) ->
  NoDup (keys (clients (shortTermCache
                          (snd (updateClientCache Out new_clients w))))).
Proof.
  intros Hnd. rewrite updateClientCache_run.
  cbn [snd set_cache shortTermCache].
  destruct new_clients as [| x l]; [exact Hnd |].
  rewrite updated_clients by discriminate.
  apply prune_map_NoDup. now apply merged_NoDup.
Qed.

(** However many clients a lookup brings, the map is back to
    [MAX_CACHE_SIZE] entries after it when it had gone over. *)
Lemma update_keeps_capacity (w : World E) new_clients :
  new_clients <> [] ->
  NoDup (keys (clients (shortTermCache w))) ->
  (MAX_CACHE_SIZE
   < JsMap.size (merged new_clients (clients (shortTermCache w))))%nat ->
  JsMap.size
    (clients (shortTermCache (snd (updateClientCache Out new_clients w))))
  = MAX_CACHE_SIZE.
Proof.
  intros Hne Hnd Hbig. rewrite updateClientCache_run.
  cbn [snd set_cache shortTermCache].
  rewrite updated_clients by assumption.
  apply prune_map_size; [now apply merged_NoDup | exact Hbig].
Qed.

(** C5, amended. When the clients of a lookup bring the map (whose keys
    are distinct, as those of a [Map] are) to [MAX_CACHE_SIZE + 1] entries,
    [updateClientCache] leaves [MAX_CACHE_SIZE] of them: one entry is
    evicted and the others stay, in their order. The evicted entry is the
    one with the oldest [last_mentioned], a missing [last_mentioned]
    counting as the epoch (time 0): it is older than every entry inserted
    before it and at least as old as every entry inserted after it. *)
Theorem eviction_takes_oldest (w : World E) new_clients :
  new_clients <> [] ->
  NoDup (keys (clients (shortTermCache w))) ->
  JsMap.size (merged new_clients (clients (shortTermCache w)))
  = S MAX_CACHE_SIZE ->
  exists pre id victim post,
    merged new_clients (clients (shortTermCache w))
    = pre ++ (id, victim) :: post
    /\ clients (shortTermCache (snd (updateClientCache Out new_clients w)))
       = pre ++ post
    /\ JsMap.size (pre ++ post) = MAX_CACHE_SIZE
    /\ (forall e, In e pre -> client_date victim < client_date (snd e))
    /\ (forall e, In e post -> client_date victim <= client_date (snd e)).
Proof.
  intros Hne Hnd Hsize.
  rewrite updateClientCache_run. cbn [snd set_cache shortTermCache].
  rewrite updated_clients by assumption.
  assert (Hnd' : NoDup (keys (merged new_clients (clients (shortTermCache w)))))
    by now apply merged_NoDup.
  destruct (prune_map_one_over client_date _ Hnd' Hsize)
    as (pre & id & victim & post & Hm & Hp & Hpre & Hpost).
  exists pre, id, victim, post. repeat split; try assumption.
  rewrite <- Hp. apply prune_map_size; [assumption |].
  rewrite Hsize. unfold MAX_CACHE_SIZE. lia.
Qed.

End Eviction.

(** C5, as stated, fails on a [last_mentioned] before 1970. The cache holds
    100 clients; the client 0 has no [last_mentioned] and the client 1 was
    last mentioned on the last day of 1969. When a lookup brings one more
    client, the client 1 is evicted and the client 0 stays: the missing
    value did not sort as the oldest. *)
Lemma eviction_claim_counterexample :
  option_map last_mentioned
    (JsMap.get (js "0") (clients (shortTermCache (full_world before_epoch))))
  = Some None
  /\ option_map last_mentioned
       (JsMap.get (js "1") (clients (shortTermCache (full_world before_epoch))))
     = Some (Some (-86400000))
  /\ JsMap.size (clients (shortTermCache (after_lookup before_epoch)))
     = 100%nat
  /\ JsMap.has (js "0") (clients (shortTermCache (after_lookup before_epoch)))
     = true
  /\ JsMap.has (js "1") (clients (shortTermCache (after_lookup before_epoch)))
     = false.
Proof. vm_compute. repeat split. Qed.

Lemma eviction_takes_oldest_witness :
  exists pre id victim post,
    merged [newcomer] (clients (shortTermCache (full_world after_epoch)))
    = pre ++ (id, victim) :: post
    /\ clients (shortTermCache
                  (snd (updateClientCache MemoryStore.memory [newcomer]
                                          (full_world after_epoch))))
       = pre ++ post
    /\ JsMap.size (pre ++ post) = MAX_CACHE_SIZE
    /\ (forall e, In e pre -> client_date victim < client_date (snd e))
    /\ (forall e, In e post -> client_date victim <= client_date (snd e)).
Proof.
  apply (eviction_takes_oldest MemoryStore.memory (full_world after_epoch)
                               (new_clients := [newcomer])).
  - discriminate.
  - apply distinct_NoDup. vm_compute. reflexivity.
  - vm_compute. reflexivity.
Defined.

End Eviction.

(** ** Reads of the client cache *)

Module ClientCache.

Import ContextStore PruneFacts ContextStoreRuns.

Section ClientCache.
Variable E : Type.
Variable Out : Environment E.

(** C8. When [getRelevantClientContext] is given no array, an empty array,
    or items from which no name is extracted, it returns the bundle without
    clients and leaves the world as it was: the caches are unchanged (and
    the result does not depend on them) and no call was made to the
    store. *)
Theorem no_names_no_effect (w : World E) (data : option (list Item)) :
  data = None
  \/ (exists items, data = Some items /\ extractClientNames items = []) ->
  getRelevantClientContext Out data w = (Returned (mkBundle []), w).
Proof.
  intros [-> | (items & -> & Hnames)]; [reflexivity |].
  unfold getRelevantClientContext, try_catch.
  destruct items as [| item rest]; [reflexivity |].
  now rewrite Hnames.
Qed.

Lemma pruned_lastUpdated c : lastUpdated (pruned c) = lastUpdated c.
Proof. reflexivity. Qed.

Lemma updated_lastUpdated now new_clients c :
  new_clients <> [] -> lastUpdated (updated now new_clients c) = now.
Proof.
  intros Hne. unfold updated. destruct new_clients as [| x l]; [congruence |].
  destruct (MAX_CACHE_SIZE <? _)%nat; reflexivity.
Qed.

Lemma get_has {V} id (m : JsMap.t V) v :
  JsMap.get id m = Some v -> JsMap.has id m = true.
Proof. unfold JsMap.has. now intros ->. Qed.

(** C9. The freshness of the client cache is one time for the whole map.
    When [updateClientCache] is given the rows of a lookup, [lastUpdated]
    becomes the current time, whatever it was. From then on, as long as
    less than [CACHE_TTL] has passed, every client that is in the map,
    however long ago it was put there, is served from the cache without a
    call to the store, by [getClientById] and by [getRelevantClientContext]
    when all the names of the batch are cached; once [CACHE_TTL] has passed,
    [getClientById] asks the store again. *)
Theorem pool_wide_freshness (w w' : World E) (new_clients : list Client) :
  new_clients <> [] ->
  let after := shortTermCache (snd (updateClientCache Out new_clients w)) in
  lastUpdated after = clock Out (env w)
  /\ (shortTermCache w' = after ->
      clock Out (env w') - clock Out (env w) < CACHE_TTL ->
      (forall id c,
          truthy id = true ->
          JsMap.get id (clients after) = Some c ->
          getClientById Out (Some id) w' = (Returned (Some c), w'))
      /\ (forall items,
             extractClientNames items <> [] ->
             List.length (getCachedClients (extractClientNames items) after)
             = List.length (extractClientNames items) ->
             getRelevantClientContext Out (Some items) w'
             = (Returned
                  (mkBundle (getCachedClients (extractClientNames items) after)),
                w')))
  /\ (shortTermCache w' = after ->
      CACHE_TTL <= clock Out (env w') - clock Out (env w) ->
      forall id,
        truthy id = true ->
        trace (snd (getClientById Out (Some id) w'))
        = trace w' ++ [Ev (ClientsSelectEqId id)]).
Proof.
  intros Hne after.
  assert (Hlast : lastUpdated after = clock Out (env w)).
  { unfold after. rewrite updateClientCache_run.
    cbn [snd set_cache shortTermCache]. now apply updated_lastUpdated. }
  split; [exact Hlast |]. split.
  - intros Hcache Hfresh.
    assert (Hlt : (clock Out (env w') - lastUpdated (shortTermCache w')
                   <? CACHE_TTL) = true)
      by (rewrite Hcache, Hlast; now apply Z.ltb_lt).
    split.
    + intros id c Hid Hget.
      unfold getClientById, try_catch, bind, get_cache, Date_now.
      rewrite Hid. cbn [negb]. rewrite Hlt, Hcache.
      rewrite (get_has _ _ Hget). cbn [andb]. unfold ret. now rewrite Hget.
    + intros items Hnames Hall.
      unfold getRelevantClientContext, try_catch.
      destruct items as [| item rest]; [now elim Hnames |].
      destruct (extractClientNames (item :: rest)) as [| n ns] eqn:Hn;
        [now elim Hnames |].
      unfold bind, get_cache, Date_now.
      rewrite Hlt, Hcache, Hall, Nat.eqb_refl. reflexivity.
  - intros Hcache Hstale id Hid.
    assert (Hge : (clock Out (env w') - lastUpdated (shortTermCache w')
                   <? CACHE_TTL) = false)
      by (rewrite Hcache, Hlast; now apply Z.ltb_ge).
    unfold getClientById, try_catch, bind, get_cache, Date_now.
    rewrite Hid. cbn [negb]. rewrite Hge, andb_false_r.
    unfold await.
    destruct (handle Out (ClientsSelectEqId id) (env w')) as [[r | e] e'].
    + destruct (error r); [reflexivity |].
      destruct (data r); reflexivity.
    + reflexivity.
Qed.

End ClientCache.

(** A Slack message in which no name is read. *)
Definition quiet_item : Item :=
  mkItem (Some (js "nothing new on the project today")) None None None.

Lemma no_names_no_effect_witness :
  getRelevantClientContext MemoryStore.memory (Some [quiet_item])
    (Eviction.full_world Eviction.after_epoch)
  = (Returned (mkBundle []), Eviction.full_world Eviction.after_epoch).
Proof.
  apply (no_names_no_effect MemoryStore.memory
           (Eviction.full_world Eviction.after_epoch)
           (data := Some [quiet_item])).
  right. exists [quiet_item]. split; reflexivity.
Defined.

(** A world whose cache was last updated at the epoch, long before the
    time of its clock, and holds one client. *)
Definition old_client : Client :=
  mkClient (js "7") (js "Acme Corp") [] (Some 1000) (Some 1000) (Some 1000).

Definition stale_world : World MemoryStore.Mem :=
  mkWorld (mkShortTermCache [(js "7", old_client)] 0 [] 0)
          FeedbackHandler.feedbackPatternsCache0
          (MemoryStore.mkMem [] [] [] [] [] 200 1700000100000) [].

(** The same world four minutes after the clients of a lookup were put in
    the cache. *)
Definition later_world : World MemoryStore.Mem :=
  mkWorld (shortTermCache
             (snd (updateClientCache MemoryStore.memory [Eviction.newcomer]
                                     stale_world)))
          FeedbackHandler.feedbackPatternsCache0
          (MemoryStore.mkMem [] [] [] [] [] 200 1700000340000) [].

Lemma pool_wide_freshness_witness :
  getClientById MemoryStore.memory (Some (js "7")) stale_world
  <> (Returned (Some old_client), stale_world)
  /\ getClientById MemoryStore.memory (Some (js "7")) later_world
     = (Returned (Some old_client), later_world).
Proof.
  split; [vm_compute; discriminate |].
  destruct (pool_wide_freshness MemoryStore.memory stale_world later_world
              (new_clients := [Eviction.newcomer]))
    as (_ & Hfresh & _); [discriminate |].
  destruct Hfresh as [Hget _]; [reflexivity | reflexivity |].
  apply Hget; reflexivity.
Defined.

End ClientCache.

(** ** Creating a client whose name is taken *)

Module CreateClient.

Import ContextStore ContextStoreRuns.

(** The secondary fetch failed: the promise was rejected, or the answer
    holds an error or no row. *)
Definition fetch_failed (o : Outcome (Response Client)) : Prop :=
  match o with
  | Returned r => error r <> None \/ data r = None
  | Threw _ => True
  end.

(** [clientInsertData] *)
Definition insert_row (now : Z) (name : jsstring) (d : ClientData)
  : ClientInsert :=
  mkClientInsert name (match cd_profile d with Some p => p | None => [] end)
                 now now now.

Section CreateClient.
Variable E : Type.
Variable Out : Environment E.

(** C10. When the insert of [createClient] is answered with the error of a
    unique-constraint violation (code 23505), the client of that name is
    fetched from the store. If the fetch gives a row without an error, the
    row is put in the cache under its id and returned, after exactly these
    two calls to the store. [createClient] returns [null] only when the fetch
    failed, and it never throws. *)
Theorem duplicate_name_gives_existing (w : World E) (d : ClientData)
    (name : jsstring) (r : Response Client) (err : PgError) (e1 : E) :
  valid_name (Some d) = Some name ->
  let row := insert_row (clock Out (env w)) name d in
  handle Out (ClientsInsert row) (env w) = (Returned r, e1) ->
  error r = Some err ->
  pg_code err = Some unique_violation ->
  let fetch := handle Out (ClientsSelectEqName name) e1 in
  (forall existing,
      fst fetch = Returned (mkResponse (Some existing) None) ->
      createClient Out (Some d) w
      = (Returned (Some existing),
         mkWorld
           (with_clients
              (JsMap.set (client_id existing) existing
                         (clients (shortTermCache w)))
              (shortTermCache w))
           (feedbackPatternsCache w) (snd fetch)
           ((trace w ++ [Ev (ClientsInsert row)])
            ++ [Ev (ClientsSelectEqName name)])))
  /\ (fst (createClient Out (Some d) w) = Returned None ->
      fetch_failed (fst fetch))
  /\ (forall e, fst (createClient Out (Some d) w) <> Threw e).
Proof.
  intros Hname row Hinsert Herr Hcode fetch.
  assert (Hrun :
    createClient Out (Some d) w =
    match fst fetch with
    | Returned r' =>
        match error r', data r' with
        | None, Some existing =>
            (Returned (Some existing),
             mkWorld
               (with_clients
                  (JsMap.set (client_id existing) existing
                             (clients (shortTermCache w)))
                  (shortTermCache w))
               (feedbackPatternsCache w) (snd fetch)
               ((trace w ++ [Ev (ClientsInsert row)])
                ++ [Ev (ClientsSelectEqName name)]))
        | _, _ =>
            (Returned None,
             mkWorld (shortTermCache w) (feedbackPatternsCache w) (snd fetch)
                     ((trace w ++ [Ev (ClientsInsert row)])
                      ++ [Ev (ClientsSelectEqName name)]))
        end
    | Threw _ =>
        (Returned None,
         mkWorld (shortTermCache w) (feedbackPatternsCache w) (snd fetch)
                 ((trace w ++ [Ev (ClientsInsert row)])
                  ++ [Ev (ClientsSelectEqName name)]))
    end).
  { unfold createClient, try_catch. rewrite Hname.
    unfold bind at 1. unfold Date_now at 1.
    unfold bind at 1. unfold await at 1.
    fold (insert_row (clock Out (env w)) name d). fold row.
    rewrite Hinsert. rewrite Herr, Hcode.
    unfold unique_violation. rewrite eqb_refl.
    unfold bind, await. cbn [env shortTermCache feedbackPatternsCache trace].
    fold fetch. destruct fetch as [[r' | ex] e2]; cbn [fst snd].
    - destruct (error r'); [reflexivity |].
      destruct (data r'); reflexivity.
    - reflexivity. }
  split; [| split].
  - intros existing Hfetch. rewrite Hrun, Hfetch. reflexivity.
  - rewrite Hrun. unfold fetch_failed.
    destruct (fst fetch) as [r' | ex]; [| trivial].
    destruct (error r') eqn:He; [left; discriminate |].
    destruct (data r') eqn:Hd; [| now right].
    cbn [fst]. discriminate.
  - intros e. rewrite Hrun.
    destruct (fst fetch) as [r' | ex]; [| discriminate].
    destruct (error r'); [discriminate |].
    destruct (data r'); discriminate.
Qed.

End CreateClient.

(** A store that holds the client "Acme Corp". *)
Definition acme : Client :=
  mkClient (js "41") (js "Acme Corp") [] (Some 1690000000000)
           (Some 1690000000000) (Some 1690000000000).

Definition acme_world : World MemoryStore.Mem :=
  MemoryStore.start (MemoryStore.mkMem [acme] [] [] [] [] 42 1700000000000).

Definition acme_data : ClientData := mkClientData (Some (js "Acme Corp")) None.

Lemma duplicate_name_gives_existing_witness :
  fst (createClient MemoryStore.memory (Some acme_data) acme_world)
  = Returned (Some acme)
  /\ JsMap.get (js "41")
       (clients (shortTermCache
                   (snd (createClient MemoryStore.memory (Some acme_data)
                                      acme_world))))
     = Some acme.
Proof.
  destruct (duplicate_name_gives_existing MemoryStore.memory acme_world
              acme_data (name := js "Acme Corp")
              (r := MemoryStore.failed "23505"
                      "duplicate key value violates unique constraint")
              (err := mkPgError (Some (js "23505"))
                        (js "duplicate key value violates unique constraint"))
              (e1 := MemoryStore.advance 1 (env acme_world))
              eq_refl eq_refl eq_refl eq_refl) as (Hexisting & _ & _).
  rewrite (Hexisting acme eq_refl). split; reflexivity.
Defined.

End CreateClient.

(** ** What an operation leaves as it was

    [keeps R m] says that the world after [m] is related by [R] to the world
    before it. For a relation that is reflexive and transitive it follows
    the structure of the operation, down to the primitive steps. *)

Module Frames.

Section Keeps.
Variable E : Type.
Variable Out : Environment E.
Variable R : World E -> World E -> Prop.

Definition keeps {A} (m : M E A) : Prop := forall w, R w (snd (m w)).

Hypothesis R_refl : forall w, R w w.
Hypothesis R_trans : forall w1 w2 w3, R w1 w2 -> R w2 w3 -> R w1 w3.

Lemma keeps_ret {A} (a : A) : keeps (ret a).
Proof. intros w. apply R_refl. Qed.

Lemma keeps_throw {A} e : keeps (throw (A := A) e).
Proof. intros w. apply R_refl. Qed.

Lemma keeps_bind {A B} (m : M E A) (k : A -> M E B) :
  keeps m -> (forall a, keeps (k a)) -> keeps (bind m k).
Proof.
  intros Hm Hk w. unfold bind. specialize (Hm w).
  destruct (m w) as [[a | e] w']; simpl in *.
  - eapply R_trans; [exact Hm | apply Hk].
  - exact Hm.
Qed.

Lemma keeps_try_catch {A} (m : M E A) (h : Exn -> M E A) :
  keeps m -> (forall e, keeps (h e)) -> keeps (try_catch m h).
Proof.
  intros Hm Hh w. unfold try_catch. specialize (Hm w).
  destruct (m w) as [[a | e] w']; simpl in *.
  - exact Hm.
  - eapply R_trans; [exact Hm | apply Hh].
Qed.

Lemma keeps_Date_now : keeps (Date_now Out).
Proof. intros w. apply R_refl. Qed.

Lemma keeps_get_cache : keeps (get_cache (E := E)).
Proof. intros w. apply R_refl. Qed.

Lemma keeps_get_patterns_cache : keeps (get_patterns_cache (E := E)).
Proof. intros w. apply R_refl. Qed.

Lemma keeps_for_each {A} (l : list A) (body : A -> M E unit) :
  (forall a, keeps (body a)) -> keeps (for_each l body).
Proof.
  intros Hb. induction l as [| x rest IH]; simpl.
  - apply keeps_ret.
  - apply keeps_bind; [apply Hb | intros _; exact IH].
Qed.

Lemma keeps_fold_each {A S} (l : list A) (body : S -> A -> M E S) :
  (forall s a, keeps (body s a)) -> forall s, keeps (fold_each l s body).
Proof.
  intros Hb. induction l as [| x rest IH]; intros s; simpl.
  - apply keeps_ret.
  - apply keeps_bind; [apply Hb | intros s'; apply IH].
Qed.

End Keeps.

(** The structure of an operation, taken apart, for a relation with the
    proofs [Hrefl] and [Htrans]. The primitive steps are left to the lemmas
    of the relation at hand. *)
Ltac keeps_step Hrefl Htrans :=
  match goal with
  | |- keeps _ (bind _ _) => apply keeps_bind; [apply Htrans | | intros]
  | |- keeps _ (try_catch _ _) =>
      apply keeps_try_catch; [apply Htrans | | intros]
  | |- keeps _ (ret _) => apply keeps_ret; apply Hrefl
  | |- keeps _ (throw _) => apply keeps_throw; apply Hrefl
  | |- keeps _ (Date_now _) => apply keeps_Date_now; apply Hrefl
  | |- keeps _ get_cache => apply keeps_get_cache; apply Hrefl
  | |- keeps _ get_patterns_cache =>
      apply keeps_get_patterns_cache; apply Hrefl
  | |- keeps _ (for_each _ _) =>
      apply keeps_for_each; [apply Hrefl | apply Htrans | intros]
  | |- keeps _ (fold_each _ _ _) =>
      apply keeps_fold_each; [apply Hrefl | apply Htrans | intros]
  | |- keeps _ (match ?x with _ => _ end) => destruct x
  | |- keeps _ (if ?b then _ else _) => destruct b
  end.

(** *** The trace only grows *)

Definition grows {E} (w w' : World E) : Prop :=
  exists more, trace w' = trace w ++ more.

Lemma grows_refl {E} (w : World E) : grows w w.
Proof. exists []. now rewrite app_nil_r. Qed.

Lemma grows_trans {E} (w1 w2 w3 : World E) :
  grows w1 w2 -> grows w2 w3 -> grows w1 w3.
Proof.
  intros [m1 H1] [m2 H2]. exists (m1 ++ m2). now rewrite H2, H1, app_assoc.
Qed.

(** *** The cache of the feedback patterns is untouched *)

Definition same_patterns {E} (w w' : World E) : Prop :=
  feedbackPatternsCache w' = feedbackPatternsCache w.

Lemma same_patterns_refl {E} (w : World E) : same_patterns w w.
Proof. reflexivity. Qed.

Lemma same_patterns_trans {E} (w1 w2 w3 : World E) :
  same_patterns w1 w2 -> same_patterns w2 w3 -> same_patterns w1 w3.
Proof. unfold same_patterns. congruence. Qed.

Section Primitives.
Variable E : Type.
Variable Out : Environment E.

Lemma grows_await {A} (call : Ext A) : keeps grows (await Out call).
Proof.
  intros w. unfold await. destruct (handle Out call (env w)) as [o e'].
  now exists [Ev call].
Qed.

Lemma grows_sleep ms : keeps grows (sleep Out ms).
Proof. intros w. now exists [Slept ms]. Qed.

Lemma grows_put_cache c : keeps (E := E) grows (put_cache c).
Proof. intros w. exists []. simpl. now rewrite app_nil_r. Qed.

Lemma grows_put_patterns_cache c : keeps (E := E) grows (put_patterns_cache c).
Proof. intros w. exists []. simpl. now rewrite app_nil_r. Qed.

Lemma same_patterns_await {A} (call : Ext A) :
  keeps same_patterns (await Out call).
Proof.
  intros w. unfold await. now destruct (handle Out call (env w)).
Qed.

Lemma same_patterns_put_cache c : keeps (E := E) same_patterns (put_cache c).
Proof. intros w. reflexivity. Qed.

End Primitives.

Ltac grows_tac :=
  repeat first
    [ keeps_step (@grows_refl) (@grows_trans)
    | apply grows_await | apply grows_sleep
    | apply grows_put_cache | apply grows_put_patterns_cache ].

Ltac same_patterns_tac :=
  repeat first
    [ keeps_step (@same_patterns_refl) (@same_patterns_trans)
    | apply same_patterns_await | apply same_patterns_put_cache ].

End Frames.

(** ** Operations that do not throw, and the first call of an operation *)

Module Returns.

Import Frames.

Section Returns.
Variable E : Type.
Variable Out : Environment E.

Definition returns {A} (m : M E A) : Prop :=
  forall w, exists a, fst (m w) = Returned a.

Lemma returns_ret {A} (a : A) : returns (ret a).
Proof. intros w. now exists a. Qed.

Lemma returns_bind {A B} (m : M E A) (k : A -> M E B) :
  returns m -> (forall a, returns (k a)) -> returns (bind m k).
Proof.
  intros Hm Hk w. unfold bind. destruct (Hm w) as [a Ha].
  destruct (m w) as [o w']. simpl in Ha. subst o. apply Hk.
Qed.

Lemma returns_try_catch {A} (m : M E A) (h : Exn -> M E A) :
  (forall e, returns (h e)) -> returns (try_catch m h).
Proof.
  intros Hh w. unfold try_catch. destruct (m w) as [[a | e] w'].
  - now exists a.
  - apply Hh.
Qed.

Lemma returns_Date_now : returns (Date_now Out).
Proof. intros w. now eexists. Qed.

Lemma returns_get_cache : returns (get_cache (E := E)).
Proof. intros w. now eexists. Qed.

Lemma returns_put_cache c : returns (put_cache (E := E) c).
Proof. intros w. now eexists. Qed.

Lemma returns_get_patterns_cache : returns (get_patterns_cache (E := E)).
Proof. intros w. now eexists. Qed.

Lemma returns_put_patterns_cache c : returns (put_patterns_cache (E := E) c).
Proof. intros w. now eexists. Qed.

(** An operation of result [unit] that returns gives [tt]. *)
Lemma returns_tt (m : M E unit) w : returns m -> fst (m w) = Returned tt.
Proof. intros Hm. destruct (Hm w) as [[] Ha]. exact Ha. Qed.

(** The first call awaited by an operation run in [w]. *)
Definition first_call {A B} (call : Ext B) (m : M E A) (w : World E) : Prop :=
  exists more, trace (snd (m w)) = trace w ++ Ev call :: more.

Lemma first_call_await {A B} (call : Ext B) (k : B -> M E A) w :
  (forall b, keeps grows (k b)) -> first_call call (bind (await Out call) k) w.
Proof.
  intros Hk. unfold first_call, bind, await.
  destruct (handle Out call (env w)) as [[b | e] e'].
  - match goal with |- context [k b ?w1] => destruct (Hk b w1) as [more Hm] end.
    exists more. rewrite Hm. simpl. now rewrite <- app_assoc.
  - now exists [].
Qed.

Lemma first_call_now {A C} (call : Ext C) (k : Z -> M E A) w :
  first_call call (k (clock Out (env w))) w ->
  first_call call (bind (Date_now Out) k) w.
Proof. intros Hk. exact Hk. Qed.

Lemma first_call_bind {A B C} (call : Ext C) (m : M E A) (k : A -> M E B) w :
  first_call call m w -> (forall a, keeps grows (k a)) ->
  first_call call (bind m k) w.
Proof.
  intros [more Hm] Hk. unfold first_call, bind.
  destruct (m w) as [[a | e] w']; simpl in Hm.
  - destruct (Hk a w') as [more' Hm']. exists (more ++ more').
    rewrite Hm', Hm. now rewrite <- app_assoc.
  - now exists more.
Qed.

Lemma first_call_try_catch {A C} (call : Ext C) (m : M E A) h w :
  first_call call m w -> (forall e, keeps grows (h e)) ->
  first_call call (try_catch m h) w.
Proof.
  intros [more Hm] Hh. unfold first_call, try_catch.
  destruct (m w) as [[a | e] w']; simpl in Hm.
  - now exists more.
  - destruct (Hh e w') as [more' Hm']. exists (more ++ more').
    rewrite Hm', Hm. now rewrite <- app_assoc.
Qed.

End Returns.

Ltac returns_tac :=
  repeat first
    [ apply returns_try_catch; intros
    | apply returns_bind; [| intros]
    | apply returns_ret
    | apply returns_Date_now
    | apply returns_get_cache | apply returns_put_cache
    | apply returns_get_patterns_cache | apply returns_put_patterns_cache
    | match goal with
      | |- returns (match ?x with _ => _ end) => destruct x
      | |- returns (if ?b then _ else _) => destruct b
      end ].

End Returns.

(** ** A lookup refreshes the whole pool *)

Module PoolRefresh.

Import ContextStore ContextStoreRuns Frames.

(** [shortTermCache.lastUpdated] is untouched. *)
Definition same_lastUpdated {E} (w w' : World E) : Prop :=
  lastUpdated (shortTermCache w') = lastUpdated (shortTermCache w).

Lemma same_lastUpdated_refl {E} (w : World E) : same_lastUpdated w w.
Proof. reflexivity. Qed.

Lemma same_lastUpdated_trans {E} (w1 w2 w3 : World E) :
  same_lastUpdated w1 w2 -> same_lastUpdated w2 w3 -> same_lastUpdated w1 w3.
Proof. unfold same_lastUpdated. congruence. Qed.

(** [missingClientNames] of [getRelevantClientContext]. *)
Definition missing_names (now : Z) (clientNames : list jsstring)
    (c : ShortTermCache) : list jsstring :=
  filter (fun name =>
            negb (existsb (fun client => eqb (client_name client) name)
                          (getCachedClients clientNames c))
            || (CACHE_TTL <=? now - lastUpdated c))
         clientNames.

Section PoolRefresh.
Variable E : Type.
Variable Out : Environment E.

Lemma same_lastUpdated_await {A} (call : Ext A) :
  keeps same_lastUpdated (await Out call).
Proof.
  intros w. unfold await. now destruct (handle Out call (env w)).
Qed.

Lemma same_lastUpdated_cache_set id client :
  keeps (E := E) same_lastUpdated (cache_set id client).
Proof. intros w. reflexivity. Qed.

Lemma updateClientLastMentioned_same_lastUpdated ids :
  keeps same_lastUpdated (updateClientLastMentioned Out ids).
Proof.
  unfold updateClientLastMentioned, refresh_cached.
  repeat first
    [ keeps_step (@same_lastUpdated_refl) (@same_lastUpdated_trans)
    | apply same_lastUpdated_await | apply same_lastUpdated_cache_set ].
Qed.

(** When [getRelevantClientContext] asks the store for the names it misses
    and is answered with rows, [lastUpdated] is, at its end, the time at
    which the answer came. *)
Lemma lookup_refreshes_pool (w : World E) (items : list Item)
    (rows : list Client) (e1 : E) :
  let c := shortTermCache w in
  let now := clock Out (env w) in
  let names := extractClientNames items in
  names <> [] ->
  (List.length (getCachedClients names c) =? List.length names)%nat
  && (now - lastUpdated c <? CACHE_TTL) = false ->
  missing_names now names c <> [] ->
  handle Out (ClientsSelectInName (missing_names now names c)) (env w)
  = (Returned (mkResponse (Some rows) None), e1) ->
  rows <> [] ->
  lastUpdated
    (shortTermCache (snd (getRelevantClientContext Out (Some items) w)))
  = clock Out e1.
Proof.
  intros c now names Hnames Hslow Hmissing Hanswer Hrows.
  unfold getRelevantClientContext, try_catch.
  destruct items as [| item rest]; [now elim Hnames |].
  fold names. destruct names as [| n ns] eqn:Hn; [now elim Hnames |].
  unfold bind at 1, get_cache at 1. unfold bind at 1, Date_now at 1.
  fold c now. rewrite Hslow.
  fold (missing_names now (n :: ns) c).
  destruct (missing_names now (n :: ns) c) as [| m ms] eqn:Hm;
    [now elim Hmissing |].
  unfold bind at 1. unfold bind at 1. unfold await at 1. rewrite Hanswer.
  cbn [error data]. unfold bind at 1.
  rewrite updateClientCache_run. cbn [env fst snd].
  match goal with
  | |- context [set_cache ?c' ?w1] => set (w2 := set_cache c' w1)
  end.
  assert (Hlast : lastUpdated (shortTermCache w2) = clock Out e1).
  { unfold w2. cbn [set_cache shortTermCache].
    now apply ClientCache.updated_lastUpdated. }
  unfold bind at 1.
  pose proof (updateClientLastMentioned_same_lastUpdated
                (map client_id rows) w2) as Hsame.
  destruct (updateClientLastMentioned Out (map client_id rows) w2)
    as [[[] | ex] w3]; unfold same_lastUpdated in Hsame; cbn [snd] in Hsame;
    unfold ret; cbn [fst snd shortTermCache]; congruence.
Qed.

End PoolRefresh.

End PoolRefresh.

(** ** Storing feedback *)

Module FeedbackSpec.

Import FeedbackHandler Frames Returns.

Section FeedbackSpec.
Variable E : Type.
Variable Out : Environment E.

Lemma invalidate_grows : keeps grows (invalidate_patterns (E := E)).
Proof. unfold invalidate_patterns. grows_tac. Qed.

Lemma analyzeEdits_grows summary text :
  keeps grows (analyzeEdits Out summary text).
Proof. unfold analyzeEdits. grows_tac. Qed.

Lemma analyzeRejection_grows summary :
  keeps grows (analyzeRejection Out summary).
Proof. unfold analyzeRejection. grows_tac. Qed.

Lemma updateFeedbackPatterns_grows id rating comment :
  keeps grows (updateFeedbackPatterns Out id rating comment).
Proof.
  unfold updateFeedbackPatterns.
  grows_tac; first [apply analyzeEdits_grows | apply analyzeRejection_grows
                   | apply invalidate_grows].
Qed.

Lemma updateFeedbackPatterns_returns id rating comment :
  returns (updateFeedbackPatterns Out id rating comment).
Proof. unfold updateFeedbackPatterns. returns_tac. Qed.

Lemma trackFeedbackAnalytics_grows id rating comment :
  keeps grows (trackFeedbackAnalytics Out id rating comment).
Proof. unfold trackFeedbackAnalytics. grows_tac. Qed.

Lemma trackFeedbackAnalytics_same_patterns id rating comment :
  keeps same_patterns (trackFeedbackAnalytics Out id rating comment).
Proof. unfold trackFeedbackAnalytics. same_patterns_tac. Qed.

Lemma trackFeedbackAnalytics_returns id rating comment :
  returns (trackFeedbackAnalytics Out id rating comment).
Proof. unfold trackFeedbackAnalytics. returns_tac. Qed.

Lemma getFeedbackStats_grows days : keeps grows (getFeedbackStats Out days).
Proof. unfold getFeedbackStats. grows_tac. Qed.

Lemma getFeedbackStats_returns days : returns (getFeedbackStats Out days).
Proof. unfold getFeedbackStats. returns_tac. Qed.

Lemma compute_patterns_grows : keeps grows (compute_patterns Out).
Proof.
  unfold compute_patterns. grows_tac. apply getFeedbackStats_grows.
Qed.

(** The row that [storeFeedback] inserts for a rating among
    [RATING_TYPES]. *)
Definition feedback_row (w : World E) (id rating comment : jsstring)
    (userId : option jsstring) : FeedbackData :=
  mkFeedbackData id rating comment (clock Out (env w)) (opt_truthy userId).

(** [storeFeedback] after an insert that the store answered without an
    error: the result is the row of the answer, the cached patterns are
    gone, and the insert was the first call. *)
Lemma storeFeedback_inserted (w : World E) id rating comment userId r e1 :
  truthy id = true ->
  includes RATING_TYPES rating = true ->
  handle Out (FeedbackInsert (feedback_row w id rating comment userId)) (env w)
  = (Returned r, e1) ->
  error r = None ->
  let after := storeFeedback Out (Some id) rating comment userId w in
  fst after = Returned (data r)
  /\ patterns (feedbackPatternsCache (snd after)) = None
  /\ first_call (FeedbackInsert (feedback_row w id rating comment userId))
                (storeFeedback Out (Some id) rating comment userId) w.
Proof.
  intros Hid Hrating Hinsert Herr after.
  assert (Hrun : exists w' more,
             storeFeedback Out (Some id) rating comment userId w
             = (Returned (data r), w')
             /\ patterns (feedbackPatternsCache w') = None
             /\ trace w' =
                trace w ++ Ev (FeedbackInsert
                                 (feedback_row w id rating comment userId))
                      :: more).
  { unfold storeFeedback, try_catch.
    cbn [opt_truthy]. rewrite Hid, Hrating.
    unfold bind at 1. unfold Date_now at 1.
    unfold bind at 1. unfold await at 1.
    fold (feedback_row w id rating comment userId).
    rewrite Hinsert, Herr.
    set (w1 := mkWorld (shortTermCache w) (feedbackPatternsCache w) e1
                       (trace w ++ [Ev (FeedbackInsert
                                          (feedback_row w id rating comment
                                                        userId))])).
    unfold bind at 1.
    pose proof (returns_tt w1 (updateFeedbackPatterns_returns
                                 (Some id) rating comment)) as Hu.
    pose proof (updateFeedbackPatterns_grows (Some id) rating comment w1)
      as [more2 Hg2].
    destruct (updateFeedbackPatterns Out (Some id) rating comment w1)
      as [o2 w2]. simpl in Hu, Hg2. subst o2.
    unfold bind at 1. unfold invalidate_patterns at 1.
    unfold bind at 1, get_patterns_cache at 1, put_patterns_cache at 1.
    set (w3 := mkWorld (shortTermCache w2)
                       (mkFeedbackPatternsCache None
                          (fpc_lastUpdated (feedbackPatternsCache w2))
                          (ttl (feedbackPatternsCache w2)))
                       (env w2) (trace w2)).
    unfold bind at 1.
    pose proof (returns_tt w3 (trackFeedbackAnalytics_returns
                                 (Some id) rating comment)) as Ht.
    pose proof (trackFeedbackAnalytics_grows (Some id) rating comment w3)
      as [more4 Hg4].
    pose proof (trackFeedbackAnalytics_same_patterns
                  (Some id) rating comment w3) as Hs4.
    destruct (trackFeedbackAnalytics Out (Some id) rating comment w3)
      as [o4 w4]. simpl in Ht, Hg4, Hs4. subst o4.
    unfold same_patterns in Hs4.
    exists w4, (more2 ++ more4).
    split; [destruct (data r); reflexivity |].
    split; [now rewrite Hs4 |].
    rewrite Hg4. subst w3. simpl. rewrite Hg2. subst w1. simpl.
    now rewrite <- !app_assoc. }
  destruct Hrun as (w' & more & Hrun & Hnone & Htrace).
  unfold after, first_call. rewrite Hrun. cbn [fst snd].
  split; [reflexivity |]. split; [exact Hnone |]. now exists more.
Qed.

(** A rating that is not among [RATING_TYPES] is treated as
    ["approved"]. *)
Lemma storeFeedback_normalizes (w : World E) summaryId rating comment userId :
  includes RATING_TYPES rating = false ->
  storeFeedback Out summaryId rating comment userId w
  = storeFeedback Out summaryId APPROVED comment userId w.
Proof.
  intros Hrating. unfold storeFeedback. now rewrite Hrating.
Qed.

(** C1, amended. When [summaryId] is null, undefined or the empty string,
    [storeFeedback] returns [null] at once, without throwing: nothing was
    asked of the store, so no feedback was persisted, and the caches are as
    they were. *)
Theorem empty_summary_id_returns_null (w : World E)
    (summaryId : option jsstring) (rating comment : jsstring)
    (userId : option jsstring) :
  opt_truthy summaryId = None ->
  storeFeedback Out summaryId rating comment userId w = (Returned None, w).
Proof.
  intros Hempty. unfold storeFeedback, try_catch. now rewrite Hempty.
Qed.

(** The first thing that [storeFeedback] asks of the store, for a
    [summaryId] that is not empty and a rating among [RATING_TYPES], is the
    insert of the feedback. *)
Lemma storeFeedback_first_call (w : World E) id rating comment userId :
  truthy id = true ->
  includes RATING_TYPES rating = true ->
  first_call (FeedbackInsert (feedback_row w id rating comment userId))
             (storeFeedback Out (Some id) rating comment userId) w.
Proof.
  intros Hid Hrating. unfold storeFeedback. cbn [opt_truthy].
  rewrite Hid, Hrating.
  apply first_call_try_catch; [| intros ex; grows_tac].
  apply first_call_now. apply first_call_await.
  intros r. grows_tac;
    first [apply updateFeedbackPatterns_grows | apply invalidate_grows
          | apply trackFeedbackAnalytics_grows].
Qed.

(** C4. With a [summaryId] that is not empty and a rating outside
    ["approved"], ["edited"], ["rejected"], [storeFeedback] is not refused:
    it does, in every world, what it does for the rating ["approved"]. The
    first thing it asks of the store is the insert of the feedback with the
    rating ["approved"], and when the store answers with the stored row and
    no error, that row is returned. *)
Theorem unknown_rating_stored_as_approved (w : World E)
    (id rating comment : jsstring) (userId : option jsstring) :
  truthy id = true ->
  includes RATING_TYPES rating = false ->
  let row := feedback_row w id APPROVED comment userId in
  (forall w',
      storeFeedback Out (Some id) rating comment userId w'
      = storeFeedback Out (Some id) APPROVED comment userId w')
  /\ first_call (FeedbackInsert row)
                (storeFeedback Out (Some id) rating comment userId) w
  /\ (forall stored e1,
         handle Out (FeedbackInsert row) (env w)
         = (Returned (mkResponse (Some stored) None), e1) ->
         fst (storeFeedback Out (Some id) rating comment userId w)
         = Returned (Some stored)).
Proof.
  intros Hid Hrating row.
  assert (Hnorm : forall w',
             storeFeedback Out (Some id) rating comment userId w'
             = storeFeedback Out (Some id) APPROVED comment userId w')
    by (intros w'; now apply storeFeedback_normalizes).
  split; [exact Hnorm |]. split.
  - pose proof (@storeFeedback_first_call w id APPROVED comment userId Hid
                                          eq_refl) as Hfirst.
    unfold first_call in *. now rewrite Hnorm.
  - intros stored e1 Hinsert. rewrite Hnorm.
    now destruct (@storeFeedback_inserted w id APPROVED comment userId _ e1
                    Hid eq_refl Hinsert eq_refl) as (Hres & _ & _).
Qed.

(** The rating that is stored. *)
Definition normalized (rating : jsstring) : jsstring :=
  if includes RATING_TYPES rating then rating else APPROVED.

Lemma normalized_valid rating : includes RATING_TYPES (normalized rating) = true.
Proof.
  unfold normalized. destruct (includes RATING_TYPES rating) eqn:Hr;
    [exact Hr | reflexivity].
Qed.

Lemma storeFeedback_normalized (w : World E) summaryId rating comment userId :
  storeFeedback Out summaryId rating comment userId w
  = storeFeedback Out summaryId (normalized rating) comment userId w.
Proof.
  unfold normalized. destruct (includes RATING_TYPES rating) eqn:Hr;
    [reflexivity | now apply storeFeedback_normalizes].
Qed.

(** *** The cached patterns *)

Lemma getFeedbackStats_same_patterns days :
  keeps same_patterns (getFeedbackStats Out days).
Proof. unfold getFeedbackStats. same_patterns_tac. Qed.

(** The patterns are computed without an exception, from the statistics of
    the last 30 days on, and are put in the cache with the time of the end
    of the computation. *)
Lemma compute_patterns_run (w : World E) :
  exists found w',
    compute_patterns Out w = (Returned found, w')
    /\ feedbackPatternsCache w'
       = mkFeedbackPatternsCache (Some found) (clock Out (env w'))
                                 (ttl (feedbackPatternsCache w))
    /\ first_call (FeedbackSelectSince (clock Out (env w) - 30 * MS_PER_DAY))
                  (compute_patterns Out) w.
Proof.
  assert (Hfirst : first_call
                     (FeedbackSelectSince (clock Out (env w) - 30 * MS_PER_DAY))
                     (compute_patterns Out) w).
  { unfold compute_patterns.
    apply first_call_bind.
    - unfold getFeedbackStats. apply first_call_try_catch.
      + apply first_call_now.
        apply first_call_await. intros r. grows_tac.
      + intros e. grows_tac.
    - intros stats. grows_tac. }
  unfold compute_patterns in *. unfold bind at 1.
  destruct (getFeedbackStats_returns 30 w) as [stats Hstats].
  pose proof (getFeedbackStats_same_patterns 30 w) as Hs1.
  destruct (getFeedbackStats Out 30 w) as [o1 w1].
  simpl in Hstats, Hs1. subst o1. unfold same_patterns in Hs1.
  unfold bind at 1.
  match goal with
  | |- context [try_catch ?m ?h w1] => set (block := try_catch m h)
  end.
  assert (Hret : returns block) by (unfold block; returns_tac).
  assert (Hsame : keeps same_patterns block)
    by (unfold block; same_patterns_tac).
  destruct (Hret w1) as [rows Hrows]. specialize (Hsame w1).
  destruct (block w1) as [o2 w2]. simpl in Hrows, Hsame. subst o2.
  unfold same_patterns in Hsame.
  unfold bind, Date_now, get_patterns_cache, put_patterns_cache, ret.
  cbn [fst snd feedbackPatternsCache env].
  eexists. eexists. split; [reflexivity |]. split; [| exact Hfirst].
  cbn [feedbackPatternsCache env]. now rewrite Hsame, Hs1.
Qed.

Lemma getFeedbackPatterns_hit (w : World E) (cached : Patterns) :
  patterns (feedbackPatternsCache w) = Some cached ->
  clock Out (env w) - fpc_lastUpdated (feedbackPatternsCache w)
  < ttl (feedbackPatternsCache w) ->
  getFeedbackPatterns Out w = (Returned cached, w).
Proof.
  intros Hp Hfresh. apply Z.ltb_lt in Hfresh.
  unfold getFeedbackPatterns, try_catch, bind, get_patterns_cache, Date_now.
  now rewrite Hp, Hfresh.
Qed.

Lemma getFeedbackPatterns_miss (w : World E) :
  patterns (feedbackPatternsCache w) = None ->
  getFeedbackPatterns Out w = compute_patterns Out w.
Proof.
  intros Hp.
  unfold getFeedbackPatterns, try_catch, bind, get_patterns_cache, Date_now.
  rewrite Hp. destruct (compute_patterns_run w) as (found & w' & Hrun & _).
  now rewrite Hrun.
Qed.

(** After [getFeedbackPatterns] the cache holds what was returned. *)
Lemma getFeedbackPatterns_caches (w : World E) :
  exists p,
    fst (getFeedbackPatterns Out w) = Returned p
    /\ patterns (feedbackPatternsCache (snd (getFeedbackPatterns Out w)))
       = Some p
    /\ ttl (feedbackPatternsCache (snd (getFeedbackPatterns Out w)))
       = ttl (feedbackPatternsCache w).
Proof.
  destruct (compute_patterns_run w) as (found & w' & Hrun & Hfc & _).
  unfold getFeedbackPatterns, try_catch, bind, get_patterns_cache, Date_now.
  destruct (patterns (feedbackPatternsCache w)) as [cached |] eqn:Hp.
  - destruct (_ <? _).
    + exists cached. unfold ret. cbn [fst snd]. now rewrite Hp.
    + exists found. rewrite Hrun. cbn [fst snd]. now rewrite Hfc.
  - exists found. rewrite Hrun. cbn [fst snd]. now rewrite Hfc.
Qed.


End FeedbackSpec.

(** A store with one summary, and the process at its start. *)
Definition weekly : Summary :=
  mkSummary (js "s1") (Some (js "slack"))
            (Some (js "Weekly summary. The system process data."))
            (Some 1699990000000).

Definition feedback_world : World MemoryStore.Mem :=
  MemoryStore.start (MemoryStore.mkMem [] [] [weekly] [] [] 1 1700000000000).

(** C1, as stated, fails: with an empty [summaryId] the call does not end
    with an error of validation thrown to the caller. It returns [null], as
    does a call whose insert the store refuses (here for a summary that does
    not exist), so the caller cannot tell the two apart. *)
Lemma validation_claim_counterexample :
  storeFeedback MemoryStore.memory (Some (js "")) (js "approved") (js "") None
                feedback_world
  = (Returned None, feedback_world)
  /\ fst (storeFeedback MemoryStore.memory (Some (js "no-such-summary"))
                        (js "approved") (js "") None feedback_world)
     = Returned None.
Proof. split; vm_compute; reflexivity. Qed.

Lemma empty_summary_id_returns_null_witness :
  storeFeedback MemoryStore.memory (Some (js "")) (js "rejected")
                (js "not useful") None feedback_world
  = (Returned None, feedback_world).
Proof.
  apply (@empty_summary_id_returns_null _ MemoryStore.memory feedback_world
           (Some (js "")) (js "rejected") (js "not useful") None).
  reflexivity.
Defined.

(** The row that the store gives back for the first feedback on the
    summary, rated ["approved"]. *)
Definition stored_approved : Feedback :=
  mkFeedback (js "1") (Some (js "s1")) APPROVED (js "") (Some 1700000000000)
             None.

Lemma unknown_rating_stored_as_approved_witness :
  fst (storeFeedback MemoryStore.memory (Some (js "s1")) (js "bogus") (js "")
                     None feedback_world)
  = Returned (Some stored_approved).
Proof.
  destruct (@unknown_rating_stored_as_approved _ MemoryStore.memory
              feedback_world (js "s1") (js "bogus") (js "") None
              eq_refl eq_refl) as (_ & _ & Hstored).
  exact (Hstored stored_approved _ eq_refl).
Defined.

(** One minute after the first call. *)
Definition minute_later (w : World MemoryStore.Mem) : World MemoryStore.Mem :=
  mkWorld (shortTermCache w) (feedbackPatternsCache w)
          (MemoryStore.advance 60000 (env w)) (trace w).





End FeedbackSpec.

(** ** The request to the model *)

Module ModelRequest.

Import FetchHarvest Frames Returns.

(** The error thrown by [processWithAI] for the error [ex] caught in it. *)
Definition failed (ex : Exn) : Exn :=
  JsError (js "AI processing failed: " ++ exn_message ex).

(** The error thrown by the loop at the third failure [ex]. *)
Definition gave_up (ex : Exn) : Exn :=
  JsError (js "Failed to get AI response after 3 attempts: " ++ exn_message ex).

(** The calls and waits of three attempts. *)
Definition three_attempts (req : ChatRequest) : list Event :=
  [Ev (AxiosPost req); Slept 2000; Ev (AxiosPost req); Slept 4000;
   Ev (AxiosPost req)].

Definition is_wait (ev : Event) : bool :=
  match ev with
  | Slept _ => true
  | Ev _ => false
  end.

(** The member [key] of a JSON value that is an object. *)
Definition member (key : string) (v : Json) : option Json :=
  match v with
  | JObject members => JsMap.get (js key) members
  | _ => None
  end.

Section ModelRequest.
Variable E : Type.
Variable Out : Environment E.
Variable JSON_parse : jsstring -> option Json.
Variable AI_MODEL : option jsstring.

(** The patterns that [processWithAI] reads in [w], and its request. *)
Definition patterns_in (w : World E) : Patterns :=
  match fst (FeedbackHandler.getFeedbackPatterns Out w) with
  | Returned p => p
  | Threw _ => FeedbackHandler.default_patterns
  end.

Definition request_in (w : World E) (promptTemplate data_json : jsstring)
  : ChatRequest :=
  mkChatRequest (model_name AI_MODEL) (systemMessage (patterns_in w))
                (replace (js "{{DATA}}") data_json promptTemplate).

Definition with_env (e : E) (more : list Event) (w : World E) : World E :=
  mkWorld (shortTermCache w) (feedbackPatternsCache w) e (trace w ++ more).

Lemma request_loop_gives_up req (w : World E) x1 e1 x2 e2 x3 e3 :
  handle Out (AxiosPost req) (env w) = (Threw x1, e1) ->
  handle Out (AxiosPost req) (elapse Out 2000 e1) = (Threw x2, e2) ->
  handle Out (AxiosPost req) (elapse Out 4000 e2) = (Threw x3, e3) ->
  request_loop Out maxRetries req 0 w
  = (Threw (gave_up x3), with_env e3 (three_attempts req) w).
Proof.
  intros H1 H2 H3. unfold maxRetries, with_env, three_attempts.
  cbn [request_loop Nat.ltb Nat.leb maxRetries].
  unfold bind, try_catch, await, sleep, ret, throw.
  cbn [env trace shortTermCache feedbackPatternsCache].
  rewrite H1.
  cbn [Nat.leb maxRetries env trace shortTermCache feedbackPatternsCache].
  change (1000 * 2 ^ Z.of_nat 1) with 2000.
  rewrite H2.
  cbn [Nat.leb maxRetries env trace shortTermCache feedbackPatternsCache].
  change (1000 * 2 ^ Z.of_nat 2) with 4000.
  rewrite H3. cbn [Nat.leb maxRetries]. unfold gave_up.
  now rewrite <- !app_assoc.
Qed.

Lemma request_loop_third_time req (w : World E) x1 e1 x2 e2 completion e3 :
  handle Out (AxiosPost req) (env w) = (Threw x1, e1) ->
  handle Out (AxiosPost req) (elapse Out 2000 e1) = (Threw x2, e2) ->
  handle Out (AxiosPost req) (elapse Out 4000 e2) = (Returned completion, e3) ->
  request_loop Out maxRetries req 0 w
  = (Returned (Some completion), with_env e3 (three_attempts req) w).
Proof.
  intros H1 H2 H3. unfold maxRetries, with_env, three_attempts.
  cbn [request_loop Nat.ltb Nat.leb maxRetries].
  unfold bind, try_catch, await, sleep, ret, throw.
  cbn [env trace shortTermCache feedbackPatternsCache].
  rewrite H1.
  cbn [Nat.leb maxRetries env trace shortTermCache feedbackPatternsCache].
  change (1000 * 2 ^ Z.of_nat 1) with 2000.
  rewrite H2.
  cbn [Nat.leb maxRetries env trace shortTermCache feedbackPatternsCache].
  change (1000 * 2 ^ Z.of_nat 2) with 4000.
  rewrite H3. now rewrite <- !app_assoc.
Qed.

Lemma request_loop_first_time req (w : World E) completion e1 :
  handle Out (AxiosPost req) (env w) = (Returned completion, e1) ->
  request_loop Out maxRetries req 0 w
  = (Returned (Some completion), with_env e1 [Ev (AxiosPost req)] w).
Proof.
  intros H1. unfold maxRetries, with_env.
  cbn [request_loop Nat.ltb Nat.leb maxRetries].
  unfold bind, try_catch, await, ret. now rewrite H1.
Qed.

(** [processWithAI] reads the patterns, runs the loop of the request, and
    parses the response; an error of the loop or of the parsing is thrown
    again as [failed]. *)
Lemma processWithAI_run (w : World E) promptTemplate data_json :
  processWithAI Out JSON_parse AI_MODEL promptTemplate data_json w
  = match
      request_loop Out maxRetries (request_in w promptTemplate data_json) 0
                   (snd (FeedbackHandler.getFeedbackPatterns Out w))
    with
    | (Returned response, w2) =>
        match parse_response JSON_parse response w2 with
        | (Returned value, w3) => (Returned value, w3)
        | (Threw ex, w3) => (Threw (failed ex), w3)
        end
    | (Threw ex, w2) => (Threw (failed ex), w2)
    end.
Proof.
  unfold processWithAI, try_catch, request_in, patterns_in. unfold bind at 1.
  destruct (FeedbackSpec.getFeedbackPatterns_caches Out w) as (p & Hp & _).
  destruct (FeedbackHandler.getFeedbackPatterns Out w) as [o1 w1].
  simpl in Hp. subst o1. cbn [fst snd]. unfold bind.
  destruct (request_loop _ _ _ _ w1) as [[response | ex] w2]; [| reflexivity].
  destruct (parse_response JSON_parse response w2) as [[v | ex] w3];
    reflexivity.
Qed.

Lemma parse_response_world response (w : World E) :
  snd (parse_response JSON_parse response w) = w.
Proof.
  unfold parse_response. destruct response as [completion |]; [| reflexivity].
  destruct (choices completion) as [| content rest]; [reflexivity |].
  destruct (JSON_parse (content_string content)); [reflexivity |].
  destruct content; reflexivity.
Qed.

(** C2, amended. [processWithAI] first reads the feedback patterns; let
    [w1] be the world after that and [req] its request. If the endpoint
    fails at the first attempt, at the second, made after a wait of 2
    seconds, and at the third, made after a further wait of 4 seconds (the
    wait after the k-th failure is 1000 * 2^k milliseconds), then
    [processWithAI] throws, with the message of the third failure, and
    exactly these three requests and two waits were made. If the third
    attempt succeeds instead, [processWithAI] ends as the parsing of that
    response does, after the same requests and waits, which are longer than
    1 and 2 seconds. *)
Theorem three_attempts_with_backoff (w : World E)
    (promptTemplate data_json : jsstring) :
  let w1 := snd (FeedbackHandler.getFeedbackPatterns Out w) in
  let req := request_in w promptTemplate data_json in
  (forall x1 e1 x2 e2 x3 e3,
      handle Out (AxiosPost req) (env w1) = (Threw x1, e1) ->
      handle Out (AxiosPost req) (elapse Out 2000 e1) = (Threw x2, e2) ->
      handle Out (AxiosPost req) (elapse Out 4000 e2) = (Threw x3, e3) ->
      processWithAI Out JSON_parse AI_MODEL promptTemplate data_json w
      = (Threw (failed (gave_up x3)), with_env e3 (three_attempts req) w1))
  /\ (forall x1 e1 x2 e2 completion e3,
         handle Out (AxiosPost req) (env w1) = (Threw x1, e1) ->
         handle Out (AxiosPost req) (elapse Out 2000 e1) = (Threw x2, e2) ->
         handle Out (AxiosPost req) (elapse Out 4000 e2)
         = (Returned completion, e3) ->
         let w3 := with_env e3 (three_attempts req) w1 in
         processWithAI Out JSON_parse AI_MODEL promptTemplate data_json w
         = (match fst (parse_response JSON_parse (Some completion) w3) with
            | Returned value => Returned value
            | Threw ex => Threw (failed ex)
            end, w3))
  /\ filter is_wait (three_attempts req) = [Slept 2000; Slept 4000].
Proof.
  intros w1 req. split; [| split].
  - intros x1 e1 x2 e2 x3 e3 H1 H2 H3.
    rewrite processWithAI_run. fold w1 req.
    now rewrite (request_loop_gives_up req w1 H1 H2 H3).
  - intros x1 e1 x2 e2 completion e3 H1 H2 H3 w3.
    rewrite processWithAI_run. fold w1 req.
    rewrite (request_loop_third_time req w1 H1 H2 H3). fold w3.
    pose proof (parse_response_world (Some completion) w3) as Hw.
    destruct (parse_response JSON_parse (Some completion) w3) as [[v | ex] w'];
      simpl in Hw; now subst w'.
  - reflexivity.
Qed.

(** C3, amended. When the loop of the request ends with a response whose
    content is a text that [JSON.parse] refuses, [processWithAI] does not
    fail: it returns the object built from the labeled sections of the text,
    whose members are [summary], a string, and [action_items] and
    [suggested_messages], two arrays of strings that may be empty. The object
    holds no flag that tells that the text was not JSON. *)
Theorem malformed_response_is_extracted (w w2 : World E)
    (promptTemplate data_json aiResponse : jsstring)
    (completion : ChatCompletion) (others : list Content) :
  let w1 := snd (FeedbackHandler.getFeedbackPatterns Out w) in
  let req := request_in w promptTemplate data_json in
  request_loop Out maxRetries req 0 w1 = (Returned (Some completion), w2) ->
  choices completion = ContentText aiResponse :: others ->
  JSON_parse aiResponse = None ->
  processWithAI Out JSON_parse AI_MODEL promptTemplate data_json w
  = (Returned (extract_structured aiResponse), w2)
  /\ exists summary actionItems suggestedMessages,
      extract_structured aiResponse
      = JObject [(js "summary", JString summary);
                 (js "action_items", JArray (map JString actionItems));
                 (js "suggested_messages",
                  JArray (map JString suggestedMessages))].
Proof.
  intros w1 req Hloop Hchoices Hparse. split.
  - rewrite processWithAI_run. fold w1 req. rewrite Hloop.
    unfold parse_response. rewrite Hchoices. cbn [content_string].
    now rewrite Hparse.
  - unfold extract_structured. now eexists _, _, _.
Qed.

End ModelRequest.

(** A world whose endpoint gives the answers of [answers], in order, and
    then fails. *)
Definition endpoint_world (answers : list (Outcome ChatCompletion))
  : World MemoryStore.Mem :=
  MemoryStore.start
    (MemoryStore.mkMem [] [] [FeedbackSpec.weekly] [] answers 1 1700000000000).

Definition template : jsstring := js "Summarize this: {{DATA}}".

(** C2, as stated, fails on the lengths of the waits. With an endpoint that
    fails at every attempt, the waits between the three attempts are of 2
    and 4 seconds, not of 1 and 2 seconds. *)
Lemma backoff_claim_counterexample :
  filter is_wait
    (trace (snd (processWithAI MemoryStore.memory JsonText.parse None
                               template (js "[]") (endpoint_world []))))
  = [Slept 2000; Slept 4000]
  /\ fst (processWithAI MemoryStore.memory JsonText.parse None
                        template (js "[]") (endpoint_world []))
     = Threw (failed (gave_up (JsError (js "Network Error")))).
Proof. split; vm_compute; reflexivity. Qed.

(** An endpoint that fails twice and then answers. *)
Definition network_error : Outcome ChatCompletion :=
  Threw (JsError (js "Network Error")).

Definition quiet_completion : ChatCompletion :=
  mkChatCompletion [ContentText (js "All quiet today.")] (Some 321%N).

Definition third_time_world : World MemoryStore.Mem :=
  endpoint_world [network_error; network_error; Returned quiet_completion].

Lemma three_attempts_with_backoff_witness :
  fst (processWithAI MemoryStore.memory JsonText.parse None template (js "[]")
                     (endpoint_world []))
  = Threw (failed (gave_up (JsError (js "Network Error"))))
  /\ fst (processWithAI MemoryStore.memory JsonText.parse None template
                        (js "[]") third_time_world)
     = Returned (extract_structured (js "All quiet today.")).
Proof.
  split.
  - destruct (three_attempts_with_backoff MemoryStore.memory JsonText.parse
                None (endpoint_world []) template (js "[]"))
      as (Hfail & _ & _).
    rewrite (Hfail (JsError (js "Network Error")) _
                   (JsError (js "Network Error")) _
                   (JsError (js "Network Error")) _
                   eq_refl eq_refl eq_refl).
    reflexivity.
  - destruct (three_attempts_with_backoff MemoryStore.memory JsonText.parse
                None third_time_world template (js "[]"))
      as (_ & Hthird & _).
    rewrite (Hthird (JsError (js "Network Error")) _
                    (JsError (js "Network Error")) _
                    quiet_completion _
                    eq_refl eq_refl eq_refl).
    reflexivity.
Defined.

(** An answer of the model in plain prose, and the JSON text of the same
    summary. *)
Definition prose : jsstring := js "All quiet today.".

Definition json_text : jsstring :=
  js "{" ++ quote ++ js "summary" ++ quote ++ js ": " ++ quote
  ++ js "All quiet today." ++ quote ++ js ", " ++ quote ++ js "action_items"
  ++ quote ++ js ": [], " ++ quote ++ js "suggested_messages" ++ quote
  ++ js ": []}".

Definition completion_of (text : jsstring) : Outcome ChatCompletion :=
  Returned (mkChatCompletion [ContentText text] (Some 321%N)).

Definition quiet_summary : Json :=
  JObject [(js "summary", JString (js "All quiet today."));
           (js "action_items", JArray []);
           (js "suggested_messages", JArray [])].

(** C3, as stated, fails on the flag. The answer in prose, which is not
    JSON, gives the very object that the JSON text of the same summary
    gives: no member of the result, and nothing else that is returned, tells
    that the fallback was used. *)
Lemma degraded_flag_claim_counterexample :
  JsonText.parse prose = None
  /\ JsonText.parse json_text = Some quiet_summary
  /\ fst (processWithAI MemoryStore.memory JsonText.parse None template
                        (js "[]") (endpoint_world [completion_of prose]))
     = Returned quiet_summary
  /\ fst (processWithAI MemoryStore.memory JsonText.parse None template
                        (js "[]") (endpoint_world [completion_of json_text]))
     = Returned quiet_summary
  /\ member "ParseDegraded" quiet_summary = None.
Proof. repeat split; vm_compute; reflexivity. Qed.

Lemma malformed_response_is_extracted_witness :
  fst (processWithAI MemoryStore.memory JsonText.parse None template (js "[]")
                     (endpoint_world [completion_of prose]))
  = Returned quiet_summary.
Proof.
  destruct (@malformed_response_is_extracted _ MemoryStore.memory
              JsonText.parse None (endpoint_world [completion_of prose])
              (snd (request_loop MemoryStore.memory maxRetries
                      (request_in MemoryStore.memory None
                                  (endpoint_world [completion_of prose])
                                  template (js "[]"))
                      0
                      (snd (FeedbackHandler.getFeedbackPatterns
                              MemoryStore.memory
                              (endpoint_world [completion_of prose])))))
              template (js "[]") prose
              (mkChatCompletion [ContentText prose] (Some 321%N)) []
              eq_refl eq_refl eq_refl) as (Hextracted & _).
  rewrite Hextracted. reflexivity.
Defined.

End ModelRequest.

(** ** The operations do not throw

    Each operation of the two stores catches what is thrown in it and
    returns its value of failure instead. *)

Module NeverThrows.

Import Returns.

Section NeverThrows.
Variable E : Type.
Variable Out : Environment E.

Lemma getRelevantClientContext_returns data :
  returns (ContextStore.getRelevantClientContext Out data).
Proof. unfold ContextStore.getRelevantClientContext. returns_tac. Qed.

Lemma getClientById_returns clientId :
  returns (ContextStore.getClientById Out clientId).
Proof. unfold ContextStore.getClientById. returns_tac. Qed.

Lemma createClient_returns clientData :
  returns (ContextStore.createClient Out clientData).
Proof. unfold ContextStore.createClient. returns_tac. Qed.

Lemma storeFeedback_returns summaryId rating comment userId :
  returns (FeedbackHandler.storeFeedback Out summaryId rating comment userId).
Proof. unfold FeedbackHandler.storeFeedback. returns_tac. Qed.

Lemma getFeedbackPatterns_returns :
  returns (FeedbackHandler.getFeedbackPatterns Out).
Proof. unfold FeedbackHandler.getFeedbackPatterns. returns_tac. Qed.

End NeverThrows.

End NeverThrows.

(** * Further properties

    What the operations do in the cases that the properties above leave
    out: failures of the store, the other ways into the cache, the
    statistics, the analysis of an edit, and the request to the model in
    every world. *)

(** ** Other stores

    The memory store answers every query of the clients; the stores below
    fail, or hold a table of projects. *)

Module Outside.

Import MemoryStore.

(** A store that cannot be reached: every promise is rejected. *)
Definition unreachable : Environment Mem :=
  mkEnvironment
    (fun A (call : Ext A) m =>
       (Threw (JsError (js "fetch failed")), advance 1 m))
    advance m_time.

Definition unavailable {A} : Response A :=
  failed "57P03" "the database system is starting up".

(** A store that answers every query with an error, and an endpoint that
    fails. *)
Definition refuse {A} (call : Ext A) (m : Mem) : Outcome A * Mem :=
  match call in Ext T return Outcome T * Mem with
  | AxiosPost _ => (Threw (JsError (js "Network Error")), m)
  | _ => (Returned unavailable, m)
  end.

Definition erring : Environment Mem :=
  mkEnvironment
    (fun A call m => let (o, m') := refuse call m in (o, advance 1 m'))
    advance m_time.

(** The memory store with a table of projects. *)
Definition answer_projects (rows : list Project) {A} (call : Ext A) (m : Mem)
  : Outcome A * Mem :=
  match call in Ext T return Outcome T * Mem with
  | ProjectsSelectEqId id =>
      (Returned (single (find (fun p => eqb (project_id p) id) rows)), m)
  | ProjectsSelectEqClientId client =>
      (Returned (ok (filter (fun p => eqb (project_client_id p) client) rows)),
       m)
  | other => answer other m
  end.

Definition project_store (rows : list Project) : Environment Mem :=
  mkEnvironment
    (fun A call m =>
       let (o, m') := answer_projects rows call m in (o, advance 1 m'))
    advance m_time.

(** The world after the call [call] was answered or rejected, the
    environment being then [e1]; nothing else has changed. *)
Definition asked {E A} (call : Ext A) (e1 : E) (w : World E) : World E :=
  mkWorld (shortTermCache w) (feedbackPatternsCache w) e1
          (trace w ++ [Ev call]).

End Outside.

Import Outside.

(** ** The names read in a batch *)

Module NameShape.

Import ContextStore.

(** *** The names of a batch are a set *)

Lemma set_add_NoDup name s : NoDup s -> NoDup (set_add name s).
Proof.
  intros Hnd. unfold set_add. destruct (includes s name) eqn:Hi; [exact Hnd |].
  apply NoDup_app; [exact Hnd | repeat constructor; intros [] |].
  intros x Hx [<- | []]. apply includes_not_In in Hi. contradiction.
Qed.

Lemma add_each_NoDup names : forall s, NoDup s -> NoDup (add_each names s).
Proof.
  unfold add_each. induction names as [| n rest IH]; intros s Hnd; simpl.
  - exact Hnd.
  - apply IH. now apply set_add_NoDup.
Qed.

Lemma add_from_text_NoDup field s : NoDup s -> NoDup (add_from_text field s).
Proof.
  intros Hnd. unfold add_from_text. destruct field as [text |]; [| exact Hnd].
  destruct (truthy text); [now apply add_each_NoDup | exact Hnd].
Qed.

Lemma add_client_details_NoDup d s :
  NoDup s -> NoDup (add_client_details d s).
Proof.
  intros Hnd. unfold add_client_details.
  destruct d as [[name |] |]; try exact Hnd.
  destruct (truthy name); [now apply set_add_NoDup | exact Hnd].
Qed.

Lemma add_item_NoDup item s : NoDup s -> NoDup (add_item s item).
Proof.
  intros Hnd. unfold add_item.
  apply add_from_text_NoDup, add_from_text_NoDup, add_client_details_NoDup,
    add_from_text_NoDup, add_from_text_NoDup, Hnd.
Qed.

(** X1. The names that [extractClientNames] gives for a batch are distinct:
    a name that is read several times, in one item or in several, is there
    once. *)
Theorem extractClientNames_distinct (data : list Item) :
  NoDup (extractClientNames data).
Proof.
  unfold extractClientNames.
  assert (H : forall s, NoDup s -> NoDup (fold_left add_item data s)).
  { induction data as [| item rest IH]; intros s Hnd; simpl.
    - exact Hnd.
    - apply IH. now apply add_item_NoDup. }
  apply H. constructor.
Qed.

(** *** The shape of a name read in a text *)

(** The pieces of a split hold no separator, and the code units of a piece
    are code units of the string. *)
Lemma split_runs_from_pieces sep s : forall in_run cur piece c,
  In piece (split_runs_from sep in_run cur s) ->
  In c piece ->
  (In c cur \/ (In c s /\ sep c = false)).
Proof.
  induction s as [| d rest IH]; intros in_run cur piece c Hp Hc; simpl in Hp.
  - destruct Hp as [<- | []]. left. now apply in_rev.
  - destruct (sep d) eqn:Hd.
    + destruct in_run.
      * destruct (IH _ _ _ _ Hp Hc) as [Hcur | [Hin Hs]];
          [now left | right; split; [now right | assumption]].
      * destruct Hp as [<- | Hp]; [left; now apply in_rev |].
        destruct (IH _ _ _ _ Hp Hc) as [[] | [Hin Hs]].
        right. split; [now right | assumption].
    + destruct (IH _ _ _ _ Hp Hc) as [[<- | Hcur] | [Hin Hs]].
      * right. split; [now left | assumption].
      * now left.
      * right. split; [now right | assumption].
Qed.

Lemma split_ws_pieces text piece c :
  In piece (split_ws text) -> In c piece -> In c text /\ is_space c = false.
Proof.
  intros Hp Hc.
  destruct (split_runs_from_pieces _ _ _ _ _ _ Hp Hc) as [[] | H]. exact H.
Qed.

(** A word of a name: code units of the class [\w] only, the first one a
    capital letter, and at least two of them. *)
Definition word_shape (from : jsstring) (word : jsstring) : Prop :=
  (1 < List.length word)%nat
  /\ starts_upper word = true
  /\ Forall (fun c => is_word c = true /\ In c from) word.

(** A name: words joined by one space. *)
Inductive name_shape (from : jsstring) : jsstring -> Prop :=
| one_word word : word_shape from word -> name_shape from word
| more_words name word :
    name_shape from name -> word_shape from word ->
    name_shape from (name ++ js " " ++ word).

Lemma strip_punct_word from token :
  (forall c, In c token -> In c from /\ is_space c = false) ->
  name_word (strip_punct token) = true ->
  word_shape from (strip_punct token).
Proof.
  intros Htoken Hname. unfold name_word in Hname.
  apply andb_true_iff in Hname. destruct Hname as [Hname _].
  apply andb_true_iff in Hname. destruct Hname as [Hlen Hup].
  apply Nat.ltb_lt in Hlen. split; [exact Hlen |]. split; [exact Hup |].
  apply Forall_forall. intros c Hc. unfold strip_punct in Hc.
  apply filter_In in Hc. destruct Hc as [Hin Hkeep].
  destruct (Htoken c Hin) as [Hfrom Hsp]. rewrite Hsp, orb_false_r in Hkeep.
  now split.
Qed.

Lemma merge_adjacent_shape from tokens : forall current name,
  (forall token c, In token tokens -> In c token ->
                   In c from /\ is_space c = false) ->
  (forall n, current = Some n -> name_shape from n) ->
  In name (NamesSpec.merge_adjacent current tokens) ->
  name_shape from name.
Proof.
  induction tokens as [| token rest IH]; intros current name Htok Hcur Hin.
  - destruct current as [n |]; simpl in Hin; [| contradiction].
    destruct Hin as [<- | []]. now apply Hcur.
  - assert (Hrest : forall t c, In t rest -> In c t ->
                                In c from /\ is_space c = false)
      by (intros t c Ht; apply Htok; now right).
    cbn [NamesSpec.merge_adjacent] in Hin.
    destruct (NamesSpec.candidate token) eqn:Hc.
    + rewrite NamesSpec.candidate_name_word in Hc.
      assert (Hw : word_shape from (strip_punct token)).
      { apply strip_punct_word; [| exact Hc].
        intros c Hin'. apply (Htok token); [now left | exact Hin']. }
      eapply IH; [exact Hrest | | exact Hin].
      intros n Hn. injection Hn as <-.
      destruct current as [n0 |].
      * apply more_words; [now apply Hcur | exact Hw].
      * now apply one_word.
    + destruct current as [n0 |].
      * destruct Hin as [<- | Hin]; [now apply Hcur |].
        eapply IH; [exact Hrest | | exact Hin]. intros n Hn. discriminate.
      * eapply IH; [exact Hrest | | exact Hin]. intros n Hn. discriminate.
Qed.

(** X2. Every name that [extractNamesFromText] reads in a text is made of
    words joined by one space; each word has at least two code units, all of
    the class [\w] and all taken from the text, and starts with a capital
    letter A to Z. *)
Theorem extracted_name_shape (text name : jsstring) :
  In name (extractNamesFromText text) -> name_shape text name.
Proof.
  intros Hin. unfold extractNamesFromText in Hin.
  rewrite (proj1 (NamesSpec.names_from_merge _)) in Hin.
  eapply merge_adjacent_shape; [| | exact Hin].
  - intros token c Ht Hc. exact (split_ws_pieces _ _ _ Ht Hc).
  - intros n Hn. discriminate.
Qed.

Lemma extracted_name_shape_witness :
  name_shape (js "Call Acme Corp, today") (js "Call Acme Corp").
Proof.
  apply (extracted_name_shape (js "Call Acme Corp, today") (js "Call Acme Corp")).
  vm_compute. now left.
Defined.

Lemma name_shape_upper from name :
  name_shape from name -> exists c, In c from /\ is_upper c = true.
Proof.
  induction 1 as [word (Hlen & Hup & Hall) | name word _ IH _]; [| exact IH].
  destruct word as [| c rest]; [discriminate |].
  exists c. inversion Hall as [| ? ? [_ Hfrom] _]; subst. now split.
Qed.

(** X3. A text that holds no capital letter A to Z gives no name. *)
Theorem no_capital_no_name (text : jsstring) :
  forallb (fun c => negb (is_upper c)) text = true ->
  extractNamesFromText text = [].
Proof.
  intros Hlow. destruct (extractNamesFromText text) as [| name rest] eqn:Hn;
    [reflexivity |].
  assert (Hin : In name (extractNamesFromText text)) by (rewrite Hn; now left).
  unfold extractNamesFromText in Hin.
  rewrite (proj1 (NamesSpec.names_from_merge _)) in Hin.
  assert (Hshape : name_shape text name).
  { eapply merge_adjacent_shape; [| | exact Hin].
    - intros token c Ht Hc. exact (split_ws_pieces _ _ _ Ht Hc).
    - intros n Hn'. discriminate. }
  destruct (name_shape_upper Hshape) as (c & Hc & Hup).
  rewrite forallb_forall in Hlow. specialize (Hlow c Hc).
  rewrite Hup in Hlow. discriminate.
Qed.

Lemma no_capital_no_name_witness :
  extractNamesFromText (js "nothing new on the project today") = [].
Proof.
  apply (no_capital_no_name (js "nothing new on the project today")).
  vm_compute. reflexivity.
Defined.

End NameShape.

(** ** A lookup that needs the store *)

Module Lookup.

Import ContextStore PruneFacts ContextStoreRuns PoolRefresh Frames Returns.

(** *** The clients of the store and of the cache, put together *)

Definition ids (l : list Client) : list jsstring := map client_id l.

(** One turn of the loop over [cachedClients]. *)
Definition push_unless_taken (allClients : list Client) (cachedClient : Client)
  : list Client :=
  if existsb (fun client => eqb (client_id client) (client_id cachedClient))
             allClients
  then allClients
  else allClients ++ [cachedClient].

Lemma taken_In (allClients : list Client) c :
  existsb (fun client => eqb (client_id client) (client_id c)) allClients = true
  <-> In (client_id c) (ids allClients).
Proof.
  rewrite existsb_exists. unfold ids. rewrite in_map_iff. split.
  - intros (x & Hx & He). apply eqb_eq in He. now exists x.
  - intros (x & He & Hx). exists x. split; [exact Hx |]. now apply eqb_eq.
Qed.

Lemma combine_clients_spec cachedClients : forall dbClients,
  exists added,
    combine_clients dbClients cachedClients = dbClients ++ added
    /\ (forall c, In c added ->
                  In c cachedClients /\ ~ In (client_id c) (ids dbClients))
    /\ (NoDup (ids dbClients) -> NoDup (ids (dbClients ++ added)))
    /\ (forall c, In c cachedClients ->
                  In (client_id c) (ids (dbClients ++ added))).
Proof.
  unfold combine_clients.
  induction cachedClients as [| c rest IH]; intros dbClients; simpl.
  - exists []. rewrite app_nil_r. repeat split; try tauto; intros c [].
  - fold (push_unless_taken dbClients c).
    destruct (IH (push_unless_taken dbClients c))
      as (added & Heq & Hfrom & Hnd & Hall).
    unfold push_unless_taken in *.
    destruct (existsb _ dbClients) eqn:Htaken.
    + exists added. split; [exact Heq |]. split; [| split].
      * intros x Hx. destruct (Hfrom x Hx). split; [now right | assumption].
      * exact Hnd.
      * intros x [<- | Hx]; [| now apply Hall].
        apply taken_In in Htaken. unfold ids in *. rewrite map_app.
        apply in_or_app. now left.
    + assert (Hfree : ~ In (client_id c) (ids dbClients)).
      { intros Hin. apply taken_In in Hin. congruence. }
      exists (c :: added). rewrite Heq, <- app_assoc. simpl.
      split; [reflexivity |]. split; [| split].
      * intros x [<- | Hx]; [split; [now left | exact Hfree] |].
        destruct (Hfrom x Hx) as [Hin Hnot]. split; [now right |].
        intros Hid. apply Hnot. unfold ids in *. rewrite map_app.
        apply in_or_app. now left.
      * intros Hdb. rewrite <- app_assoc in Hnd. simpl in Hnd. apply Hnd.
        unfold ids. rewrite map_app. simpl.
        apply NoDup_app; [exact Hdb | repeat constructor; intros [] |].
        intros k Hk [<- | []]. contradiction.
      * rewrite <- app_assoc in Hall. simpl in Hall.
        intros x [<- | Hx]; [| now apply Hall].
        unfold ids. rewrite map_app. apply in_or_app. right. now left.
Qed.

(** X4. [allClients] of [getRelevantClientContext] starts with the rows of
    the store, in their order; what follows are cached clients whose id is
    not among the rows. Every cached client is there by its id, from the
    store or from the cache, and when the ids of the rows are distinct, so
    are the ids of the result. *)
Theorem store_rows_come_first (dbClients cachedClients : list Client) :
  exists added,
    combine_clients dbClients cachedClients = dbClients ++ added
    /\ Forall (fun c => In c cachedClients
                        /\ ~ In (client_id c) (ids dbClients)) added
    /\ Forall (fun c => In (client_id c)
                           (ids (combine_clients dbClients cachedClients)))
              cachedClients
    /\ (NoDup (ids dbClients) ->
        NoDup (ids (combine_clients dbClients cachedClients))).
Proof.
  destruct (combine_clients_spec cachedClients dbClients)
    as (added & Heq & Hfrom & Hnd & Hall).
  exists added. rewrite Heq. split; [reflexivity |].
  split; [now apply Forall_forall |]. split; [now apply Forall_forall |].
  exact Hnd.
Qed.

Lemma combine_clients_nil cachedClients :
  NoDup (ids cachedClients) -> combine_clients [] cachedClients = cachedClients.
Proof.
  unfold combine_clients.
  assert (H : forall front,
             NoDup (ids (front ++ cachedClients)) ->
             fold_left push_unless_taken cachedClients front
             = front ++ cachedClients).
  { induction cachedClients as [| c rest IH]; intros front Hnd; simpl.
    - now rewrite app_nil_r.
    - unfold push_unless_taken at 2.
      destruct (existsb _ front) eqn:Htaken.
      + apply taken_In in Htaken. unfold ids in Hnd. rewrite map_app in Hnd.
        simpl in Hnd. apply NoDup_remove_2 in Hnd. exfalso. apply Hnd.
        apply in_or_app. now left.
      + rewrite IH; rewrite <- app_assoc; [reflexivity | exact Hnd]. }
  intros Hnd. exact (H [] Hnd).
Qed.

(** *** A lookup that asks the store *)

Section Lookup.
Variable E : Type.
Variable Out : Environment E.

Lemma updateClientLastMentioned_returns clientIds :
  returns (updateClientLastMentioned Out clientIds).
Proof. unfold updateClientLastMentioned. returns_tac. Qed.

(** The batch [items] needs the store in [w]: names are read in it, they
    are not all found in a cache that is fresh, and one of them at least is
    not cached, or the cache is stale. *)
Definition needs_store (items : list Item) (w : World E) : Prop :=
  let c := shortTermCache w in
  let now := clock Out (env w) in
  let names := extractClientNames items in
  names <> []
  /\ (List.length (getCachedClients names c) =? List.length names)%nat
     && (now - lastUpdated c <? CACHE_TTL) = false
  /\ missing_names now names c <> [].

Definition lookup_call (items : list Item) (w : World E)
  : Ext (Response (list Client)) :=
  ClientsSelectInName
    (missing_names (clock Out (env w)) (extractClientNames items)
                   (shortTermCache w)).

Definition cached_hits (items : list Item) (w : World E) : list Client :=
  getCachedClients (extractClientNames items) (shortTermCache w).

Lemma lookup_run (w : World E) (items : list Item) :
  needs_store items w ->
  getRelevantClientContext Out (Some items) w =
  match handle Out (lookup_call items w) (env w) with
  | (Threw _, e1) => (Returned (mkBundle []), asked (lookup_call items w) e1 w)
  | (Returned r, e1) =>
      let w1 := asked (lookup_call items w) e1 w in
      match error r, Data.data r with
      | None, Some rows =>
          (Returned (mkBundle (combine_clients rows (cached_hits items w))),
           snd (updateClientLastMentioned Out (map client_id rows)
                  (set_cache (updated (clock Out e1) rows (shortTermCache w))
                             w1)))
      | _, _ =>
          (Returned (mkBundle (combine_clients [] (cached_hits items w))), w1)
      end
  end.
Proof.
  intros (Hnames & Hslow & Hmissing).
  unfold lookup_call, cached_hits, asked.
  unfold getRelevantClientContext, try_catch.
  destruct items as [| item rest]; [now elim Hnames |].
  set (names := extractClientNames (item :: rest)) in *.
  destruct names as [| n ns] eqn:Hn; [now elim Hnames |].
  unfold bind at 1, get_cache at 1. unfold bind at 1, Date_now at 1.
  rewrite Hslow.
  fold (missing_names (clock Out (env w)) (n :: ns) (shortTermCache w)).
  destruct (missing_names (clock Out (env w)) (n :: ns) (shortTermCache w))
    as [| m ms] eqn:Hm; [now elim Hmissing |].
  unfold bind at 1. unfold bind at 1. unfold await at 1.
  destruct (handle Out (ClientsSelectInName (m :: ms)) (env w))
    as [[r | ex] e1]; [| reflexivity].
  destruct (error r) as [err |]; [reflexivity |].
  destruct (Data.data r) as [rows |]; [| reflexivity].
  unfold bind at 1. rewrite updateClientCache_run.
  cbn [env fst snd shortTermCache].
  unfold bind at 1.
  match goal with
  | |- context [updateClientLastMentioned Out ?l ?w2] =>
      pose proof (returns_tt w2 (updateClientLastMentioned_returns l)) as Hu;
      destruct (updateClientLastMentioned Out l w2) as [o w3]
  end.
  simpl in Hu. subst o. reflexivity.
Qed.

(** X5. When [getRelevantClientContext] asks the store and the answer
    holds an error, the clients found in the cache are returned all the
    same (each id once): the lookup is degraded, not failed. The cache is as
    it was and the store was asked once. *)
Theorem store_error_gives_cached (w : World E) (items : list Item)
    (r : Response (list Client)) (err : PgError) (e1 : E) :
  needs_store items w ->
  handle Out (lookup_call items w) (env w) = (Returned r, e1) ->
  error r = Some err ->
  getRelevantClientContext Out (Some items) w
  = (Returned (mkBundle (combine_clients [] (cached_hits items w))),
     asked (lookup_call items w) e1 w)
  /\ (NoDup (ids (cached_hits items w)) ->
      combine_clients [] (cached_hits items w) = cached_hits items w).
Proof.
  intros Hneeds Hanswer Herr. split; [| apply combine_clients_nil].
  rewrite (lookup_run Hneeds), Hanswer. cbn zeta. now rewrite Herr.
Qed.

(** X6. When the call to the store is rejected (the promise throws),
    [getRelevantClientContext] returns the bundle without clients: the
    clients found in the cache are not returned. *)
Theorem store_rejection_gives_nothing (w : World E) (items : list Item)
    (ex : Exn) (e1 : E) :
  needs_store items w ->
  handle Out (lookup_call items w) (env w) = (Threw ex, e1) ->
  getRelevantClientContext Out (Some items) w
  = (Returned (mkBundle []), asked (lookup_call items w) e1 w).
Proof.
  intros Hneeds Hanswer. now rewrite (lookup_run Hneeds), Hanswer.
Qed.

(** X7. When the store answers with rows, the result holds the rows first
    and then the cached clients that are not among them, as they were found
    in the cache before the rows were put there: a cached client that the
    store no longer returns is still in the result, however old the cache
    is. When there is a row at least, [lastUpdated] is afterwards the time
    at which the answer came. *)
Theorem store_rows_and_cached (w : World E) (items : list Item)
    (rows : list Client) (e1 : E) :
  needs_store items w ->
  handle Out (lookup_call items w) (env w)
  = (Returned (mkResponse (Some rows) None), e1) ->
  let after := getRelevantClientContext Out (Some items) w in
  fst after
  = Returned (mkBundle (combine_clients rows (cached_hits items w)))
  /\ Forall (fun c => In (client_id c)
                         (ids (combine_clients rows (cached_hits items w))))
            (cached_hits items w)
  /\ (exists added,
         combine_clients rows (cached_hits items w) = rows ++ added)
  /\ (rows <> [] -> lastUpdated (shortTermCache (snd after)) = clock Out e1).
Proof.
  intros Hneeds Hanswer after. unfold after.
  split; [| split; [| split]].
  - rewrite (lookup_run Hneeds), Hanswer. reflexivity.
  - destruct (combine_clients_spec (cached_hits items w) rows)
      as (added & Heq & _ & _ & Hall).
    rewrite Heq. now apply Forall_forall.
  - destruct (combine_clients_spec (cached_hits items w) rows)
      as (added & Heq & _).
    now exists added.
  - intros Hrows. destruct Hneeds as (Hnames & Hslow & Hmissing).
    now apply (lookup_refreshes_pool Out w items Hnames Hslow Hmissing Hanswer).
Qed.

End Lookup.

(** The store holds the client "Acme Corp" under the id 41; the cache,
    last updated at the epoch, holds a client of that name under the id
    7. *)
Definition two_acmes : World MemoryStore.Mem :=
  mkWorld (mkShortTermCache [(js "7", ClientCache.old_client)] 0 [] 0)
          FeedbackHandler.feedbackPatternsCache0
          (MemoryStore.mkMem [CreateClient.acme] [] [] [] [] 42 1700000100000)
          [].

Lemma store_rows_come_first_witness :
  NoDup (ids (combine_clients [CreateClient.acme] [ClientCache.old_client])).
Proof.
  destruct (store_rows_come_first [CreateClient.acme] [ClientCache.old_client])
    as (added & _ & _ & _ & Hdistinct).
  apply Hdistinct. apply Eviction.distinct_NoDup. reflexivity.
Defined.

Lemma store_error_gives_cached_witness :
  fst (getRelevantClientContext erring (Some [BatchNames.acme_item]) two_acmes)
  = Returned (mkBundle [ClientCache.old_client]).
Proof.
  destruct (@store_error_gives_cached _ erring two_acmes
              [BatchNames.acme_item] unavailable
              (mkPgError (Some (js "57P03"))
                         (js "the database system is starting up"))
              (MemoryStore.advance 1 (env two_acmes)))
    as [Hrun _].
  - repeat split; discriminate.
  - reflexivity.
  - reflexivity.
  - rewrite Hrun. reflexivity.
Defined.

Lemma store_rejection_gives_nothing_witness :
  fst (getRelevantClientContext unreachable (Some [BatchNames.acme_item])
                                two_acmes)
  = Returned (mkBundle [])
  /\ cached_hits [BatchNames.acme_item] two_acmes = [ClientCache.old_client].
Proof.
  split; [| reflexivity].
  rewrite (@store_rejection_gives_nothing _ unreachable two_acmes
             [BatchNames.acme_item] (JsError (js "fetch failed"))
             (MemoryStore.advance 1 (env two_acmes))).
  - reflexivity.
  - repeat split; discriminate.
  - reflexivity.
Defined.

Lemma store_rows_and_cached_witness :
  fst (getRelevantClientContext MemoryStore.memory
         (Some [BatchNames.acme_item]) two_acmes)
  = Returned (mkBundle [CreateClient.acme; ClientCache.old_client]).
Proof.
  destruct (@store_rows_and_cached _ MemoryStore.memory two_acmes
              [BatchNames.acme_item] [CreateClient.acme]
              (MemoryStore.advance 1 (env two_acmes)))
    as (Hres & _).
  - repeat split; discriminate.
  - reflexivity.
  - rewrite Hres. reflexivity.
Defined.

End Lookup.

(** ** Clients fetched and created one by one *)

Module ById.

Import ContextStore PruneFacts ContextStoreRuns PoolRefresh Frames Returns.

Lemma set_size {V} id (v : V) (m : JsMap.t V) :
  JsMap.size (JsMap.set id v m)
  = if JsMap.has id m then JsMap.size m else S (JsMap.size m).
Proof.
  unfold JsMap.size.
  rewrite <- (length_map fst (JsMap.set id v m)), <- (length_map fst m).
  fold (keys (JsMap.set id v m)). fold (keys m). rewrite set_keys.
  destruct (JsMap.has id m); [reflexivity |].
  rewrite length_app. simpl. lia.
Qed.

Lemma get_set {V} k id (v : V) (m : JsMap.t V) :
  JsMap.get k (JsMap.set id v m) = if eqb k id then Some v else JsMap.get k m.
Proof.
  induction m as [| [k' v'] rest IH]; simpl.
  - reflexivity.
  - destruct (eqb id k') eqn:Hid; simpl.
    + apply eqb_eq in Hid. subst k'. now destruct (eqb k id).
    + destruct (eqb k k') eqn:Hk.
      * apply eqb_eq in Hk. subst k'. rewrite eqb_sym in Hid. now rewrite Hid.
      * exact IH.
Qed.

Section ById.
Variable E : Type.
Variable Out : Environment E.

(** The world after the call [call] was answered, the environment being
    then [e1], with the client [client] put in the cache under [id]. *)
Definition fetched {A} (call : Ext A) (e1 : E) (id : jsstring)
    (client : Client) (w : World E) : World E :=
  mkWorld (with_clients (JsMap.set id client (clients (shortTermCache w)))
                        (shortTermCache w))
          (feedbackPatternsCache w) e1 (trace w ++ [Ev call]).

Lemma getClientById_same_lastUpdated clientId :
  keeps same_lastUpdated (getClientById Out clientId).
Proof.
  unfold getClientById.
  repeat first
    [ keeps_step (@same_lastUpdated_refl) (@same_lastUpdated_trans)
    | apply same_lastUpdated_await | apply same_lastUpdated_cache_set ].
Qed.

(** In a pool that is stale, or that does not hold [id], the first thing
    [getClientById] does is to ask the store for [id]. *)
Lemma getClientById_asks (w : World E) id :
  truthy id = true ->
  JsMap.has id (clients (shortTermCache w))
  && (clock Out (env w) - lastUpdated (shortTermCache w) <? CACHE_TTL) = false ->
  first_call (ClientsSelectEqId id) (getClientById Out (Some id)) w.
Proof.
  intros Hid Hmiss. unfold getClientById. rewrite Hid. cbn [negb].
  apply first_call_try_catch; [| intros ex; grows_tac].
  unfold first_call, bind at 1, get_cache at 1. cbn [fst snd].
  apply first_call_now. rewrite Hmiss.
  apply first_call_await. intros r. unfold cache_set. grows_tac.
Qed.

(** X8. A client that [getClientById] fetches from the store is put in the
    cache under the id asked for, and [lastUpdated] stays as it was. So in a
    pool that is stale the client is cached but not served: as long as the
    pool is not refreshed by a lookup and the clock does not go back, the
    next call for the same id asks the store again. *)
Theorem fetched_by_id_is_not_fresh (w : World E) (id : jsstring)
    (client : Client) (e1 : E) :
  truthy id = true ->
  CACHE_TTL <= clock Out (env w) - lastUpdated (shortTermCache w) ->
  handle Out (ClientsSelectEqId id) (env w)
  = (Returned (mkResponse (Some client) None), e1) ->
  let w1 := fetched (ClientsSelectEqId id) e1 id client w in
  getClientById Out (Some id) w = (Returned (Some client), w1)
  /\ JsMap.get id (clients (shortTermCache w1)) = Some client
  /\ lastUpdated (shortTermCache w1) = lastUpdated (shortTermCache w)
  /\ forall w2,
      shortTermCache w2 = shortTermCache w1 ->
      clock Out (env w) <= clock Out (env w2) ->
      first_call (ClientsSelectEqId id) (getClientById Out (Some id)) w2.
Proof.
  intros Hid Hstale Hanswer w1.
  assert (Hge : (clock Out (env w) - lastUpdated (shortTermCache w)
                 <? CACHE_TTL) = false) by now apply Z.ltb_ge.
  split; [| split; [| split]].
  - unfold getClientById, try_catch, bind, get_cache, Date_now, cache_set.
    rewrite Hid. cbn [negb]. rewrite Hge, andb_false_r.
    unfold await, put_cache, ret. now rewrite Hanswer.
  - unfold w1, fetched. cbn [shortTermCache clients with_clients].
    now rewrite get_set, eqb_refl.
  - reflexivity.
  - intros w2 Hcache Hclock. apply getClientById_asks; [exact Hid |].
    rewrite Hcache. unfold w1, fetched.
    cbn [shortTermCache lastUpdated with_clients].
    apply andb_false_iff. right. apply Z.ltb_ge. lia.
Qed.

(** The insert of [createClient] in [w]. *)
Definition insert_call (w : World E) (name : jsstring) (d : ClientData)
  : Ext (Response Client) :=
  ClientsInsert (CreateClient.insert_row (clock Out (env w)) name d).

(** X9. When the store accepts the insert of [createClient], the new row
    is returned and put in the cache under its id, after that one call. The
    map is not pruned: with an id that is new to it, it holds one entry
    more than before, whatever its size was. *)
Theorem created_client_is_cached (w : World E) (d : ClientData)
    (name : jsstring) (client : Client) (e1 : E) :
  valid_name (Some d) = Some name ->
  handle Out (insert_call w name d) (env w)
  = (Returned (mkResponse (Some client) None), e1) ->
  let w1 := fetched (insert_call w name d) e1 (client_id client) client w in
  createClient Out (Some d) w = (Returned (Some client), w1)
  /\ JsMap.get (client_id client) (clients (shortTermCache w1)) = Some client
  /\ (JsMap.has (client_id client) (clients (shortTermCache w)) = false ->
      JsMap.size (clients (shortTermCache w1))
      = S (JsMap.size (clients (shortTermCache w)))).
Proof.
  intros Hname Hanswer w1. split; [| split].
  - unfold createClient, try_catch. rewrite Hname.
    unfold bind at 1. unfold Date_now at 1.
    unfold bind at 1. unfold await at 1.
    fold (CreateClient.insert_row (clock Out (env w)) name d).
    fold (insert_call w name d). rewrite Hanswer. reflexivity.
  - unfold w1, fetched. cbn [shortTermCache clients with_clients].
    now rewrite get_set, eqb_refl.
  - intros Hnew. unfold w1, fetched.
    cbn [shortTermCache clients with_clients]. now rewrite set_size, Hnew.
Qed.

(** The insert failed for another reason than a name that is taken. *)
Definition insert_failed (o : Outcome (Response Client)) : Prop :=
  match o with
  | Returned r =>
      match error r with
      | Some err => pg_code err <> Some unique_violation
      | None => Data.data r = None
      end
  | Threw _ => True
  end.

(** X10. When the insert of [createClient] fails for another reason than
    a name that is taken (an error with another code or without one, an
    answer without a row, a rejected promise), [createClient] returns
    [null] after that one call and leaves the caches as they were. *)
Theorem failed_insert_gives_null (w : World E) (d : ClientData)
    (name : jsstring) (o : Outcome (Response Client)) (e1 : E) :
  valid_name (Some d) = Some name ->
  handle Out (insert_call w name d) (env w) = (o, e1) ->
  insert_failed o ->
  createClient Out (Some d) w
  = (Returned None, asked (insert_call w name d) e1 w).
Proof.
  intros Hname Hanswer Hfailed.
  unfold createClient, try_catch. rewrite Hname.
  unfold bind at 1. unfold Date_now at 1.
  unfold bind at 1. unfold await at 1.
  fold (CreateClient.insert_row (clock Out (env w)) name d).
  fold (insert_call w name d). rewrite Hanswer.
  destruct o as [r | ex]; [| reflexivity].
  unfold insert_failed in Hfailed.
  destruct (error r) as [err |].
  - destruct (pg_code err) as [code |]; [| reflexivity].
    destruct (eqb code unique_violation) eqn:Hcode; [| reflexivity].
    apply eqb_eq in Hcode. subst code. now elim Hfailed.
  - now rewrite Hfailed.
Qed.

Lemma createClient_same_lastUpdated clientData :
  keeps same_lastUpdated (createClient Out clientData).
Proof.
  unfold createClient.
  repeat first
    [ keeps_step (@same_lastUpdated_refl) (@same_lastUpdated_trans)
    | apply same_lastUpdated_await | apply same_lastUpdated_cache_set ].
Qed.

(** X30. The operations that work on one client at a time never move
    [lastUpdated], whatever the store answers: neither [getClientById] nor
    [createClient], which put a client in the cache, nor
    [updateClientLastMentioned], which stamps cached clients. *)
Theorem lastUpdated_is_left_alone (w : World E) (clientId : option jsstring)
    (clientData : option ClientData) (clientIds : list jsstring) :
  lastUpdated (shortTermCache (snd (getClientById Out clientId w)))
  = lastUpdated (shortTermCache w)
  /\ lastUpdated (shortTermCache (snd (createClient Out clientData w)))
     = lastUpdated (shortTermCache w)
  /\ lastUpdated
       (shortTermCache (snd (updateClientLastMentioned Out clientIds w)))
     = lastUpdated (shortTermCache w).
Proof.
  split; [| split].
  - apply (getClientById_same_lastUpdated clientId w).
  - apply (createClient_same_lastUpdated clientData w).
  - apply (updateClientLastMentioned_same_lastUpdated Out clientIds w).
Qed.

End ById.

(** The store holds the client "Acme Corp" under the id 41; the cache is
    empty and was last updated at the epoch. *)
Definition stale_acme_world : World MemoryStore.Mem :=
  mkWorld (mkShortTermCache [] 0 [] 0)
          FeedbackHandler.feedbackPatternsCache0
          (MemoryStore.mkMem [CreateClient.acme] [] [] [] [] 42 1700000100000)
          [].

Lemma fetched_by_id_is_not_fresh_witness :
  fst (getClientById MemoryStore.memory (Some (js "41")) stale_acme_world)
  = Returned (Some CreateClient.acme)
  /\ first_call (ClientsSelectEqId (js "41"))
       (getClientById MemoryStore.memory (Some (js "41")))
       (snd (getClientById MemoryStore.memory (Some (js "41"))
                           stale_acme_world)).
Proof.
  destruct (@fetched_by_id_is_not_fresh _ MemoryStore.memory stale_acme_world
              (js "41") CreateClient.acme
              (MemoryStore.advance 1 (env stale_acme_world)))
    as (Hrun & _ & _ & Hagain).
  - reflexivity.
  - vm_compute. discriminate.
  - reflexivity.
  - rewrite Hrun. split; [reflexivity |]. apply Hagain; [reflexivity |].
    vm_compute. discriminate.
Defined.

(** The client that the memory store creates for "Globex" in the world of
    the full cache. *)
Definition globex_data : ClientData := mkClientData (Some (js "Globex")) None.

Definition globex : Client :=
  mkClient (js "200") (js "Globex") [] (Some 1700000100000)
           (Some 1700000100000) (Some 1700000100000).

Lemma created_client_is_cached_witness :
  fst (createClient MemoryStore.memory (Some globex_data)
                    (Eviction.full_world Eviction.after_epoch))
  = Returned (Some globex)
  /\ JsMap.size
       (clients (shortTermCache
                   (snd (createClient MemoryStore.memory (Some globex_data)
                           (Eviction.full_world Eviction.after_epoch)))))
     = 101%nat.
Proof.
  destruct (@created_client_is_cached _ MemoryStore.memory
              (Eviction.full_world Eviction.after_epoch) globex_data
              (js "Globex") globex
              (MemoryStore.advance 1
                 (MemoryStore.mkMem [globex] [] [] [] [] 201 1700000100000)))
    as (Hrun & _ & Hsize).
  - reflexivity.
  - reflexivity.
  - rewrite Hrun. split; [reflexivity |].
    cbn [snd]. rewrite Hsize; [| vm_compute]; reflexivity.
Defined.

Lemma failed_insert_gives_null_witness :
  createClient unreachable (Some globex_data) stale_acme_world
  = (Returned None,
     asked (insert_call unreachable stale_acme_world (js "Globex") globex_data)
           (MemoryStore.advance 1 (env stale_acme_world)) stale_acme_world).
Proof.
  apply (@failed_insert_gives_null _ unreachable stale_acme_world globex_data
           (js "Globex") (Threw (JsError (js "fetch failed")))
           (MemoryStore.advance 1 (env stale_acme_world))).
  - reflexivity.
  - reflexivity.
  - exact I.
Defined.

End ById.

(** ** The time of the last mention *)

Module Mention.

Import ContextStore PruneFacts ContextStoreRuns PoolRefresh Frames Returns ById.

(** The call of [updateClientLastMentioned]: an update by [eq] for one id,
    by [in] for several. *)
Definition mention_call (now : Z) (clientIds : list jsstring)
  : Ext (Response unit) :=
  match clientIds with
  | [id] => ClientsUpdateEqId (mkClientUpdates now now) id
  | _ => ClientsUpdateInId (mkClientUpdates now now) clientIds
  end.

(** The entry of the cache under [k] after the clients [clientIds] were
    mentioned at [now]. *)
Definition mentioned (now : Z) (clientIds : list jsstring) (k : jsstring)
    (before : option Client) : option Client :=
  if includes clientIds k
  then option_map (apply_updates (mkClientUpdates now now)) before
  else before.

Section Mention.
Variable E : Type.
Variable Out : Environment E.

Lemma refresh_cached_run u id (w : World E) :
  refresh_cached u id w
  = (Returned tt,
     set_cache
       (with_clients
          (match JsMap.get id (clients (shortTermCache w)) with
           | Some client =>
               JsMap.set id (apply_updates u client)
                         (clients (shortTermCache w))
           | None => clients (shortTermCache w)
           end)
          (shortTermCache w)) w).
Proof.
  unfold refresh_cached, bind, get_cache.
  destruct (JsMap.get id (clients (shortTermCache w))) as [client |].
  - reflexivity.
  - unfold ret. now rewrite with_clients_same, set_cache_same.
Qed.

Lemma refresh_each_run u clientIds : forall w : World E,
  exists m,
    for_each clientIds (refresh_cached u) w
    = (Returned tt, set_cache (with_clients m (shortTermCache w)) w)
    /\ keys m = keys (clients (shortTermCache w))
    /\ forall k,
        JsMap.get k m =
        if includes clientIds k
        then option_map (apply_updates u)
                        (JsMap.get k (clients (shortTermCache w)))
        else JsMap.get k (clients (shortTermCache w)).
Proof.
  induction clientIds as [| id rest IH]; intros w.
  - exists (clients (shortTermCache w)). simpl. unfold ret.
    now rewrite with_clients_same, set_cache_same.
  - cbn [for_each]. unfold bind. rewrite refresh_cached_run.
    match goal with
    | |- context [set_cache ?c w] => set (w1 := set_cache c w)
    end.
    destruct (IH w1) as (m & Hrun & Hkeys & Hget).
    exists m. split; [| split].
    + rewrite Hrun. reflexivity.
    + rewrite Hkeys. unfold w1.
      cbn [set_cache shortTermCache with_clients clients].
      destruct (JsMap.get id (clients (shortTermCache w))) as [c |] eqn:Hc;
        [| reflexivity].
      rewrite set_keys. now rewrite (ClientCache.get_has _ _ Hc).
    + intros k. rewrite Hget. unfold w1.
      cbn [set_cache shortTermCache with_clients clients includes existsb].
      fold (includes rest k).
      assert (Hfirst :
        JsMap.get k
          match JsMap.get id (clients (shortTermCache w)) with
          | Some client =>
              JsMap.set id (apply_updates u client) (clients (shortTermCache w))
          | None => clients (shortTermCache w)
          end
        = if eqb k id
          then option_map (apply_updates u)
                          (JsMap.get k (clients (shortTermCache w)))
          else JsMap.get k (clients (shortTermCache w))).
      { destruct (eqb k id) eqn:Hk.
        - apply eqb_eq in Hk. subst k.
          destruct (JsMap.get id (clients (shortTermCache w))) as [c |] eqn:Hc.
          + now rewrite get_set, eqb_refl.
          + now rewrite Hc.
        - destruct (JsMap.get id (clients (shortTermCache w))) as [c |];
            [| reflexivity].
          now rewrite get_set, Hk. }
      rewrite Hfirst. destruct (eqb k id); cbn [orb].
      * destruct (includes rest k); [| reflexivity].
        now destruct (JsMap.get k (clients (shortTermCache w))).
      * reflexivity.
Qed.

(** [updateClientLastMentioned] for a list of ids that is not empty. *)
Lemma updateClientLastMentioned_run (w : World E) clientIds :
  clientIds <> [] ->
  let call := mention_call (clock Out (env w)) clientIds in
  updateClientLastMentioned Out clientIds w =
  match handle Out call (env w) with
  | (Returned r, e1) =>
      match error r with
      | Some _ => (Returned tt, asked call e1 w)
      | None =>
          (Returned tt,
           snd (for_each clientIds
                  (refresh_cached (mkClientUpdates (clock Out (env w))
                                                   (clock Out (env w))))
                  (asked call e1 w)))
      end
  | (Threw _, e1) => (Returned tt, asked call e1 w)
  end.
Proof.
  intros Hne call. unfold call, mention_call, asked.
  unfold updateClientLastMentioned, try_catch.
  destruct clientIds as [| id rest]; [now elim Hne |].
  unfold bind at 1. unfold Date_now at 1.
  destruct rest as [| id' rest'].
  - unfold bind, await.
    destruct (handle Out _ (env w)) as [[r | ex] e1]; [| reflexivity].
    destruct (error r); [reflexivity |].
    cbn [for_each]. unfold bind.
    now destruct (refresh_cached _ id _) as [[[] | ex] w'].
  - unfold bind, await.
    destruct (handle Out _ (env w)) as [[r | ex] e1]; [| reflexivity].
    destruct (error r); [reflexivity |].
    match goal with
    | |- context [for_each ?l ?f ?w1] =>
        destruct (refresh_each_run (mkClientUpdates (clock Out (env w))
                                                    (clock Out (env w)))
                                   l w1) as (m & Hrun & _)
    end.
    now rewrite Hrun.
Qed.

(** X11. When the store accepts the update of [updateClientLastMentioned],
    the clients of the list that are in the cache get the time of the call
    as [last_mentioned] and [updated_at], and nothing else changes: no entry
    is added for an id that is not cached, the other entries, the order of
    the keys and [lastUpdated] are as before. The store was asked once, by
    [eq] for one id and by [in] for several. *)
Theorem mention_stamps_cached (w : World E) (clientIds : list jsstring)
    (r : Response unit) (e1 : E) :
  clientIds <> [] ->
  let now := clock Out (env w) in
  handle Out (mention_call now clientIds) (env w) = (Returned r, e1) ->
  error r = None ->
  let w1 := snd (updateClientLastMentioned Out clientIds w) in
  (forall k,
      JsMap.get k (clients (shortTermCache w1))
      = mentioned now clientIds k (JsMap.get k (clients (shortTermCache w))))
  /\ keys (clients (shortTermCache w1)) = keys (clients (shortTermCache w))
  /\ lastUpdated (shortTermCache w1) = lastUpdated (shortTermCache w)
  /\ trace w1 = trace w ++ [Ev (mention_call now clientIds)].
Proof.
  intros Hne now Hanswer Herr w1. unfold w1.
  rewrite (updateClientLastMentioned_run w Hne). fold now.
  rewrite Hanswer, Herr.
  destruct (refresh_each_run (mkClientUpdates now now) clientIds
              (asked (mention_call now clientIds) e1 w))
    as (m & Hrun & Hkeys & Hget).
  rewrite Hrun. cbn [snd set_cache shortTermCache with_clients clients
                     lastUpdated trace asked].
  cbn [asked shortTermCache] in Hkeys, Hget.
  split; [| split; [exact Hkeys | split; reflexivity]].
  intros k. unfold mentioned. apply Hget.
Qed.

(** The update failed: the answer holds an error or the promise was
    rejected. *)
Definition update_failed (o : Outcome (Response unit)) : Prop :=
  match o with
  | Returned r => error r <> None
  | Threw _ => True
  end.

(** X12. When the update of [updateClientLastMentioned] fails, by an
    error in the answer or by a rejected promise, nothing is thrown and the
    cache is as it was: the clients keep the [last_mentioned] they had. *)
Theorem failed_mention_leaves_cache (w : World E) (clientIds : list jsstring)
    (o : Outcome (Response unit)) (e1 : E) :
  clientIds <> [] ->
  let call := mention_call (clock Out (env w)) clientIds in
  handle Out call (env w) = (o, e1) ->
  update_failed o ->
  updateClientLastMentioned Out clientIds w
  = (Returned tt, asked call e1 w).
Proof.
  intros Hne call Hanswer Hfailed.
  rewrite (updateClientLastMentioned_run w Hne). fold call. rewrite Hanswer.
  destruct o as [r | ex]; [| reflexivity].
  simpl in Hfailed. destruct (error r); [reflexivity | now elim Hfailed].
Qed.

End Mention.

Lemma mention_stamps_cached_witness :
  option_map last_mentioned
    (JsMap.get (js "7")
       (clients (shortTermCache
                   (snd (updateClientLastMentioned MemoryStore.memory
                           [js "7"; js "8"] ClientCache.stale_world)))))
  = Some (Some 1700000100000)
  /\ keys (clients (shortTermCache
                      (snd (updateClientLastMentioned MemoryStore.memory
                              [js "7"; js "8"] ClientCache.stale_world))))
     = [js "7"].
Proof.
  destruct (@mention_stamps_cached _ MemoryStore.memory ClientCache.stale_world
              [js "7"; js "8"] MemoryStore.done
              (MemoryStore.advance 1 (env ClientCache.stale_world)))
    as (Hget & Hkeys & _).
  - discriminate.
  - reflexivity.
  - reflexivity.
  - rewrite Hget, Hkeys. split; reflexivity.
Defined.

Lemma failed_mention_leaves_cache_witness :
  shortTermCache (snd (updateClientLastMentioned erring [js "7"]
                                                 ClientCache.stale_world))
  = shortTermCache ClientCache.stale_world.
Proof.
  rewrite (@failed_mention_leaves_cache _ erring ClientCache.stale_world
             [js "7"] (Returned unavailable)
             (MemoryStore.advance 1 (env ClientCache.stale_world))).
  - reflexivity.
  - discriminate.
  - reflexivity.
  - simpl. discriminate.
Defined.

End Mention.

(** ** What pruning keeps *)

Module PruneOrder.

Import ContextStore PruneFacts ContextStoreRuns.

Section Sorted.
Variable A : Type.
Variable key : A -> Z.

Definition by_key (a b : A) : Prop := key a <= key b.

Lemma insert_sorted_In x l y :
  In y (insert_sorted key x l) <-> y = x \/ In y l.
Proof.
  split.
  - intros Hin.
    apply (Permutation_in y (insert_sorted_perm key x l)) in Hin.
    destruct Hin as [<- | Hin]; [now left | now right].
  - intros Hin.
    apply (Permutation_in y (Permutation_sym (insert_sorted_perm key x l))).
    destruct Hin as [-> | Hin]; [now left | now right].
Qed.

Lemma insert_sorted_sorted x l :
  StronglySorted by_key l -> StronglySorted by_key (insert_sorted key x l).
Proof.
  induction l as [| y rest IH]; intros Hs; simpl.
  - repeat constructor.
  - inversion Hs as [| ? ? Hrest Hall]; subst.
    destruct (key x <=? key y) eqn:Hle.
    + apply Z.leb_le in Hle. constructor; [exact Hs |].
      constructor; [exact Hle |].
      rewrite Forall_forall in *. intros z Hz. specialize (Hall z Hz).
      unfold by_key in *. lia.
    + apply Z.leb_gt in Hle. constructor; [now apply IH |].
      apply Forall_forall. intros z Hz. apply insert_sorted_In in Hz.
      destruct Hz as [-> | Hz].
      * unfold by_key. lia.
      * rewrite Forall_forall in Hall. now apply Hall.
Qed.

Lemma sort_by_sorted l : StronglySorted by_key (sort_by key l).
Proof.
  induction l as [| x rest IH]; simpl; [constructor |].
  now apply insert_sorted_sorted.
Qed.

Lemma sorted_front_back front : forall back a b,
  StronglySorted by_key (front ++ back) ->
  In a front -> In b back -> key a <= key b.
Proof.
  induction front as [| x rest IH]; intros back a b Hs Ha Hb; [contradiction |].
  simpl in Hs. inversion Hs as [| ? ? Hrest Hall]; subst.
  destruct Ha as [<- | Ha].
  - rewrite Forall_forall in Hall. apply Hall, in_or_app. now right.
  - now apply (IH back).
Qed.

End Sorted.

Section Maps.
Variable V : Type.
Variable date : V -> Z.

Lemma NoDup_keys_unique (m : JsMap.t V) e e' :
  NoDup (keys m) -> In e m -> In e' m -> fst e = fst e' -> e = e'.
Proof.
  induction m as [| x rest IH]; intros Hnd He He' Hk; [contradiction |].
  simpl in Hnd. inversion Hnd as [| ? ? Hnot Hrest]; subst.
  destruct He as [-> | He], He' as [-> | He'].
  - reflexivity.
  - exfalso. apply Hnot. rewrite Hk. now apply in_map.
  - exfalso. apply Hnot. rewrite <- Hk. now apply in_map.
  - now apply IH.
Qed.

(** X13. Pruning keeps the newest. Of a map with distinct keys,
    [prune_map] keeps [MAX_CACHE_SIZE] entries at most, in their order, and
    every entry it removes is at least as old as every entry it keeps. *)
Theorem prune_keeps_newest (m : JsMap.t V) :
  NoDup (keys m) ->
  let after := prune_map date m in
  JsMap.size after = Nat.min (JsMap.size m) MAX_CACHE_SIZE
  /\ (exists keep, after = filter keep m)
  /\ forall gone kept,
      In gone m -> ~ In gone after -> In kept after ->
      date (snd gone) <= date (snd kept).
Proof.
  intros Hnd after.
  destruct (MAX_CACHE_SIZE <? JsMap.size m)%nat eqn:Hbig.
  - apply Nat.ltb_lt in Hbig. split; [| split].
    + unfold after. rewrite prune_map_size by assumption. lia.
    + unfold after, prune_map. apply Nat.ltb_lt in Hbig. rewrite Hbig.
      rewrite delete_each. now eexists.
    + intros gone kept Hgone Hnot Hkept. unfold after, prune_map in *.
      apply Nat.ltb_lt in Hbig. rewrite Hbig in *.
      rewrite delete_each in *.
      pose proof (sort_by_perm (fun e => date (snd e)) m) as Hperm.
      pose proof (sort_by_sorted (fun e => date (snd e)) m) as Hsorted.
      remember (sort_by (fun e => date (snd e)) m) as sorted eqn:Hs.
      remember (List.length sorted - MAX_CACHE_SIZE)%nat as k eqn:Hk.
      rewrite <- (firstn_skipn k sorted) in Hsorted.
      assert (Hfront : forall e, In e (firstn k sorted) -> In e m).
      { intros e He. apply (Permutation_in e Hperm).
        rewrite <- (firstn_skipn k sorted). apply in_or_app. now left. }
      apply (@sorted_front_back _ _ _ _ gone kept Hsorted).
      * destruct (existsb (fun g => eqb (fst g) (fst gone)) (firstn k sorted))
          eqn:Hex.
        -- apply existsb_exists in Hex. destruct Hex as (g & Hg & Heq).
           apply eqb_eq in Heq.
           now rewrite <- (@NoDup_keys_unique m g gone Hnd (Hfront g Hg)
                             Hgone Heq).
        -- exfalso. apply Hnot. apply filter_In. split; [exact Hgone |].
           now rewrite Hex.
      * apply filter_In in Hkept. destruct Hkept as [Hin Hkeep].
        apply negb_true_iff in Hkeep.
        apply (Permutation_in kept (Permutation_sym Hperm)) in Hin.
        rewrite <- (firstn_skipn k sorted) in Hin.
        apply in_app_or in Hin. destruct Hin as [Hin | Hin]; [| exact Hin].
        exfalso. assert (Hex : existsb (fun g => eqb (fst g) (fst kept))
                                       (firstn k sorted) = true).
        { apply existsb_exists. exists kept.
          split; [exact Hin | apply eqb_refl]. }
        congruence.
  - assert (Hsame : after = m) by (unfold after, prune_map; now rewrite Hbig).
    apply Nat.ltb_ge in Hbig. rewrite Hsame. split; [lia |]. split.
    + exists (fun _ => true). symmetry. apply filter_all. reflexivity.
    + intros gone kept Hgone Hnot. contradiction.
Qed.

Lemma prune_map_again (m : JsMap.t V) :
  NoDup (keys m) -> prune_map date (prune_map date m) = prune_map date m.
Proof.
  intros Hnd.
  destruct (MAX_CACHE_SIZE <? JsMap.size m)%nat eqn:Hbig.
  - apply Nat.ltb_lt in Hbig.
    pose proof (@prune_map_size _ date m Hnd Hbig) as Hsize.
    unfold prune_map at 1. rewrite Hsize.
    now replace (MAX_CACHE_SIZE <? MAX_CACHE_SIZE)%nat with false
      by (symmetry; apply Nat.ltb_irrefl).
  - unfold prune_map. now rewrite !Hbig.
Qed.

Lemma prune_map_bound (m : JsMap.t V) :
  NoDup (keys m) -> (JsMap.size (prune_map date m) <= MAX_CACHE_SIZE)%nat.
Proof.
  intros Hnd.
  destruct (MAX_CACHE_SIZE <? JsMap.size m)%nat eqn:Hbig.
  - apply Nat.ltb_lt in Hbig. rewrite prune_map_size by assumption. lia.
  - unfold prune_map. rewrite Hbig. now apply Nat.ltb_ge in Hbig.
Qed.

End Maps.

Section PruneCache.
Variable E : Type.
Variable Out : Environment E.

(** X14. After [pruneCache] neither map holds more than [MAX_CACHE_SIZE]
    entries, nothing was asked of the store and the times of the last
    updates are as before; pruning again changes nothing. *)
Theorem pruneCache_bounds_both_maps (w : World E) :
  NoDup (keys (clients (shortTermCache w))) ->
  NoDup (keys (projects (shortTermCache w))) ->
  let w1 := snd (pruneCache (E := E) w) in
  (JsMap.size (clients (shortTermCache w1)) <= MAX_CACHE_SIZE)%nat
  /\ (JsMap.size (projects (shortTermCache w1)) <= MAX_CACHE_SIZE)%nat
  /\ lastUpdated (shortTermCache w1) = lastUpdated (shortTermCache w)
  /\ projectsLastUpdated (shortTermCache w1)
     = projectsLastUpdated (shortTermCache w)
  /\ trace w1 = trace w
  /\ pruneCache (E := E) w1 = (Returned tt, w1).
Proof.
  intros Hc Hp w1. unfold w1, pruneCache, bind, get_cache, put_cache.
  cbn [snd shortTermCache trace pruned with_clients with_projects clients
       projects lastUpdated projectsLastUpdated].
  split; [now apply prune_map_bound |]. split; [now apply prune_map_bound |].
  repeat (split; [reflexivity |]).
  f_equal. f_equal. unfold pruned, with_projects, with_clients.
  cbn [clients projects lastUpdated projectsLastUpdated].
  now rewrite !prune_map_again.
Qed.

End PruneCache.

(** The full cache and one client more. *)
Definition one_over : JsMap.t Client :=
  merged [Eviction.newcomer] (Eviction.full_cache Eviction.after_epoch).

Lemma prune_keeps_newest_witness :
  JsMap.size (prune_map client_date one_over) = 100%nat.
Proof.
  destruct (@prune_keeps_newest _ client_date one_over) as (Hsize & _).
  - apply Eviction.distinct_NoDup. vm_compute. reflexivity.
  - rewrite Hsize. reflexivity.
Defined.

Definition one_over_world : World MemoryStore.Mem :=
  set_cache (mkShortTermCache one_over 1700000000000 [] 1700000000000)
            (Eviction.full_world Eviction.after_epoch).

Lemma pruneCache_bounds_both_maps_witness :
  (JsMap.size (clients (shortTermCache
                          (snd (pruneCache (E := MemoryStore.Mem)
                                           one_over_world))))
   <= MAX_CACHE_SIZE)%nat.
Proof.
  destruct (@pruneCache_bounds_both_maps _ one_over_world) as (Hclients & _).
  - apply Eviction.distinct_NoDup. vm_compute. reflexivity.
  - constructor.
  - exact Hclients.
Defined.

End PruneOrder.

(** ** The cache, written and read *)

Module CacheRoundTrip.

Import ContextStore PruneFacts ContextStoreRuns PoolRefresh Frames Returns ById.

(** The last client of [rows] that [updateClientCache] puts under [id]. *)
Definition last_put (id : jsstring) (rows : list Client) : option Client :=
  find (fun c => truthy (client_id c) && eqb (client_id c) id) (rev rows).

Lemma merged_app rows rows' (m : JsMap.t Client) :
  merged (rows ++ rows') m = merged rows' (merged rows m).
Proof. unfold merged. apply fold_left_app. Qed.

Lemma merged_get rows : forall (m : JsMap.t Client) k,
  JsMap.get k (merged rows m)
  = match last_put k rows with
    | Some c => Some c
    | None => JsMap.get k m
    end.
Proof.
  unfold last_put.
  induction rows as [| c rest IH] using rev_ind; intros m k; [reflexivity |].
  rewrite merged_app, rev_app_distr. cbn [rev app find merged fold_left].
  destruct (truthy (client_id c)); cbn [andb].
  - rewrite get_set, eqb_sym.
    destruct (eqb (client_id c) k); [reflexivity | apply IH].
  - apply IH.
Qed.

Lemma getClientById_hit {E} (Out : Environment E) (w : World E) id c :
  truthy id = true ->
  JsMap.get id (clients (shortTermCache w)) = Some c ->
  clock Out (env w) - lastUpdated (shortTermCache w) < CACHE_TTL ->
  getClientById Out (Some id) w = (Returned (Some c), w).
Proof.
  intros Hid Hget Hfresh. apply Z.ltb_lt in Hfresh.
  unfold getClientById, try_catch, bind, get_cache, Date_now.
  rewrite Hid. cbn [negb]. rewrite Hfresh.
  rewrite (ClientCache.get_has _ _ Hget). cbn [andb]. unfold ret.
  now rewrite Hget.
Qed.

Section CacheRoundTrip.
Variable E : Type.
Variable Out : Environment E.

(** X15. What [updateClientCache] puts in the cache, [getClientById]
    gives back. When the map stays within its capacity, the last of the
    rows with a given id (one that is not empty) is in the map under that
    id, and for the next [CACHE_TTL] milliseconds [getClientById] returns it
    without asking the store. *)
Theorem put_then_get (w : World E) (rows : list Client) (id : jsstring)
    (row : Client) :
  last_put id rows = Some row ->
  (JsMap.size (merged rows (clients (shortTermCache w))) <= MAX_CACHE_SIZE)%nat ->
  let after := shortTermCache (snd (updateClientCache Out rows w)) in
  JsMap.get id (clients after) = Some row
  /\ forall w',
      shortTermCache w' = after ->
      clock Out (env w') - clock Out (env w) < CACHE_TTL ->
      getClientById Out (Some id) w' = (Returned (Some row), w').
Proof.
  intros Hlast Hfits after.
  assert (Hne : rows <> []).
  { intros ->. discriminate. }
  assert (Hid : truthy id = true).
  { unfold last_put in Hlast. apply find_some in Hlast.
    destruct Hlast as [_ Hrow]. apply andb_true_iff in Hrow.
    destruct Hrow as [Ht He]. apply eqb_eq in He. now subst id. }
  assert (Hget : JsMap.get id (clients after) = Some row).
  { unfold after. rewrite updateClientCache_run.
    cbn [snd set_cache shortTermCache].
    rewrite Eviction.updated_clients by assumption.
    unfold prune_map.
    replace (MAX_CACHE_SIZE <? JsMap.size _)%nat with false
      by (symmetry; now apply Nat.ltb_ge).
    now rewrite merged_get, Hlast. }
  split; [exact Hget |].
  intros w' Hcache Hfresh. apply getClientById_hit; [exact Hid | |].
  - now rewrite Hcache.
  - rewrite Hcache. unfold after. rewrite updateClientCache_run.
    cbn [snd set_cache shortTermCache].
    now rewrite ClientCache.updated_lastUpdated.
Qed.

(** *** Clearing the cache *)

(** [!cacheType || cacheType === kind] *)
Definition clears (kind : string) (cacheType : option jsstring) : bool :=
  match cacheType with
  | Some t => negb (truthy t) || eqb t (js kind)
  | None => true
  end.

(** X16. After [clearCache] for the clients (no type, an empty one, or
    ['clients']) the map of clients is empty, so [getClientById] asks the
    store for every id, although [lastUpdated] is then the time of the
    clearing. With a type that is neither ['clients'] nor ['projects'],
    [clearCache] does nothing at all. It never asks anything of the
    store. *)
Theorem cleared_clients_are_asked_again (w : World E)
    (cacheType : option jsstring) :
  let w1 := snd (clearCache Out cacheType w) in
  trace w1 = trace w
  /\ (clears "clients" cacheType = true ->
      clients (shortTermCache w1) = []
      /\ lastUpdated (shortTermCache w1) = clock Out (env w)
      /\ forall w2 id,
          shortTermCache w2 = shortTermCache w1 ->
          truthy id = true ->
          first_call (ClientsSelectEqId id) (getClientById Out (Some id)) w2)
  /\ (clears "clients" cacheType = false ->
      clears "projects" cacheType = false ->
      clearCache Out cacheType w = (Returned tt, w)).
Proof.
  intros w1. unfold w1, clearCache, clears.
  destruct cacheType as [t |].
  - destruct (truthy t) eqn:Ht; cbn [negb orb].
    + destruct (eqb t (js "clients")) eqn:Hc, (eqb t (js "projects")) eqn:Hp;
        unfold bind, Date_now, get_cache, put_cache, ret; cbn [fst snd];
        (split; [reflexivity |]); split; try discriminate.
      * intros _. repeat split. intros w2 id Hcache Hid.
        apply getClientById_asks; [exact Hid |]. now rewrite Hcache.
      * intros _. repeat split. intros w2 id Hcache Hid.
        apply getClientById_asks; [exact Hid |]. now rewrite Hcache.
      * intros _ _. reflexivity.
    + unfold bind, Date_now, get_cache, put_cache, ret; cbn [fst snd].
      split; [reflexivity |]. split; [| discriminate].
      intros _. repeat split. intros w2 id Hcache Hid.
      apply getClientById_asks; [exact Hid |]. now rewrite Hcache.
  - unfold bind, Date_now, get_cache, put_cache, ret; cbn [fst snd].
    split; [reflexivity |]. split; [| discriminate].
    intros _. repeat split. intros w2 id Hcache Hid.
    apply getClientById_asks; [exact Hid |]. now rewrite Hcache.
Qed.

End CacheRoundTrip.

Lemma put_then_get_witness :
  getClientById MemoryStore.memory (Some (js "100")) ClientCache.later_world
  = (Returned (Some Eviction.newcomer), ClientCache.later_world).
Proof.
  destruct (@put_then_get _ MemoryStore.memory ClientCache.stale_world
              [Eviction.newcomer] (js "100") Eviction.newcomer)
    as (_ & Hserved).
  - reflexivity.
  - vm_compute. repeat constructor.
  - apply Hserved; reflexivity.
Defined.

Lemma cleared_clients_are_asked_again_witness :
  first_call (ClientsSelectEqId (js "7"))
    (getClientById MemoryStore.memory (Some (js "7")))
    (snd (clearCache MemoryStore.memory (Some (js "clients"))
                     ClientCache.later_world))
  /\ clearCache MemoryStore.memory (Some (js "everything"))
                ClientCache.later_world
     = (Returned tt, ClientCache.later_world).
Proof.
  destruct (@cleared_clients_are_asked_again _ MemoryStore.memory
              ClientCache.later_world (Some (js "clients")))
    as (_ & Hcleared & _).
  destruct (@cleared_clients_are_asked_again _ MemoryStore.memory
              ClientCache.later_world (Some (js "everything")))
    as (_ & _ & Hnothing).
  split.
  - destruct (Hcleared eq_refl) as (_ & _ & Hasks).
    apply Hasks; reflexivity.
  - apply Hnothing; reflexivity.
Defined.

End CacheRoundTrip.

(** ** The cache of the projects *)

Module ProjectCache.

Import ContextStore PruneFacts ContextStoreRuns Frames Returns ById.

(** The map after the loop of [getProjectsForClient] over the rows. *)
Definition merged_projects (rows : list Project) (m : JsMap.t Project)
  : JsMap.t Project :=
  fold_left (fun m project => JsMap.set (project_id project) project m) rows m.

Lemma has_set {V} k id (v : V) (m : JsMap.t V) :
  JsMap.has k (JsMap.set id v m) = eqb k id || JsMap.has k m.
Proof.
  unfold JsMap.has. rewrite get_set. now destruct (eqb k id).
Qed.

Lemma merged_projects_has rows : forall m k,
  JsMap.has k (merged_projects rows m) = true <->
  In k (map project_id rows) \/ JsMap.has k m = true.
Proof.
  unfold merged_projects.
  induction rows as [| p rest IH]; intros m k; simpl; [tauto |].
  rewrite IH, has_set, orb_true_iff. rewrite eqb_eq. split.
  - intros [H | [H | H]]; [left; now right | left; left; congruence | now right].
  - intros [[H | H] | H]; [right; left; congruence | now left | right; now right].
Qed.

Section ProjectCache.
Variable E : Type.
Variable Out : Environment E.

(** The world after the call [call] was answered, the environment being
    then [e1], with the map of projects [m] refreshed at the time of [e1]. *)
Definition refreshed {A} (call : Ext A) (e1 : E) (m : JsMap.t Project)
    (w : World E) : World E :=
  mkWorld (with_projectsLastUpdated (clock Out e1)
             (with_projects m (shortTermCache w)))
          (feedbackPatternsCache w) e1 (trace w ++ [Ev call]).

Lemma getProjectById_hit (w : World E) id p :
  truthy id = true ->
  JsMap.get id (projects (shortTermCache w)) = Some p ->
  clock Out (env w) - projectsLastUpdated (shortTermCache w) < CACHE_TTL ->
  getProjectById Out (Some id) w = (Returned (Some p), w).
Proof.
  intros Hid Hget Hfresh. apply Z.ltb_lt in Hfresh.
  unfold getProjectById, try_catch, bind, get_cache, Date_now.
  rewrite Hid. cbn [negb]. rewrite Hfresh.
  rewrite (ClientCache.get_has _ _ Hget). cbn [andb]. unfold ret.
  now rewrite Hget.
Qed.

(** X17. A project that [getProjectById] fetches from the store is put
    in the cache and [projectsLastUpdated] becomes the time of the answer,
    unlike what [getClientById] does for [lastUpdated]. From then on, for
    less than [CACHE_TTL], every project of the map is served from the
    cache, however stale the pool was before the fetch. *)
Theorem fetched_project_refreshes_pool (w : World E) (id : jsstring)
    (project : Project) (e1 : E) :
  truthy id = true ->
  JsMap.has id (projects (shortTermCache w))
  && (clock Out (env w) - projectsLastUpdated (shortTermCache w) <? CACHE_TTL)
  = false ->
  handle Out (ProjectsSelectEqId id) (env w)
  = (Returned (mkResponse (Some project) None), e1) ->
  let w1 := refreshed (ProjectsSelectEqId id) e1
              (JsMap.set id project (projects (shortTermCache w))) w in
  getProjectById Out (Some id) w = (Returned (Some project), w1)
  /\ forall w2 id' p,
      shortTermCache w2 = shortTermCache w1 ->
      clock Out (env w2) - clock Out e1 < CACHE_TTL ->
      truthy id' = true ->
      JsMap.get id' (projects (shortTermCache w1)) = Some p ->
      getProjectById Out (Some id') w2 = (Returned (Some p), w2).
Proof.
  intros Hid Hmiss Hanswer w1. split.
  - unfold getProjectById, try_catch, bind, get_cache, Date_now.
    rewrite Hid. cbn [negb]. rewrite Hmiss.
    unfold await, put_cache, ret. now rewrite Hanswer.
  - intros w2 id' p Hcache Hfresh Hid' Hget.
    apply getProjectById_hit; [exact Hid' | now rewrite Hcache |].
    now rewrite Hcache.
Qed.

Lemma for_each_project rows : forall w : World E,
  for_each rows
    (fun project =>
       c <- get_cache ;;
       put_cache (with_projects
                    (JsMap.set (project_id project) project (projects c)) c)) w
  = (Returned tt,
     set_cache (with_projects
                  (merged_projects rows (projects (shortTermCache w)))
                  (shortTermCache w)) w).
Proof.
  induction rows as [| p rest IH]; intros w.
  - simpl. unfold ret. destruct w as [[] ? ? ?]. reflexivity.
  - cbn [for_each merged_projects fold_left].
    unfold bind at 1. unfold bind at 1, get_cache at 1, put_cache at 1.
    rewrite IH. reflexivity.
Qed.

(** X18. [getProjectsForClient] never reads the cache: for an id that is
    not empty, the first thing it does in every world is to ask the store.
    When the store answers with rows, they are returned, each of their ids
    is a key of the map of projects afterwards, and [projectsLastUpdated]
    is the time of the answer. *)
Theorem projects_of_client_are_always_fetched (w : World E) (id : jsstring) :
  truthy id = true ->
  first_call (ProjectsSelectEqClientId id)
             (getProjectsForClient Out (Some id)) w
  /\ forall rows e1,
      rows <> [] ->
      handle Out (ProjectsSelectEqClientId id) (env w)
      = (Returned (mkResponse (Some rows) None), e1) ->
      getProjectsForClient Out (Some id) w
      = (Returned rows,
         refreshed (ProjectsSelectEqClientId id) e1
           (merged_projects rows (projects (shortTermCache w))) w)
      /\ Forall (fun p =>
                   JsMap.has (project_id p)
                     (merged_projects rows (projects (shortTermCache w)))
                   = true) rows.
Proof.
  intros Hid. split.
  - unfold getProjectsForClient. rewrite Hid. cbn [negb].
    apply first_call_try_catch; [| intros ex; grows_tac].
    apply first_call_await. intros r. grows_tac.
  - intros rows e1 Hne Hanswer. split.
    + unfold getProjectsForClient, try_catch. rewrite Hid. cbn [negb].
      unfold bind at 1. unfold await at 1. rewrite Hanswer.
      cbn [error Data.data].
      destruct rows as [| p rest]; [now elim Hne |].
      unfold bind at 1. rewrite for_each_project.
      reflexivity.
    + apply Forall_forall. intros p Hp. apply merged_projects_has.
      left. now apply in_map.
Qed.

End ProjectCache.

(** Two projects of the client 41. *)
Definition website : Project :=
  mkProject (js "p1") (js "Website") (js "41") (Some 1690000000000).

Definition audit : Project :=
  mkProject (js "p2") (js "Audit") (js "41") None.

Definition project_world : World MemoryStore.Mem :=
  mkWorld (mkShortTermCache [] 0 [(js "p2", audit)] 0)
          FeedbackHandler.feedbackPatternsCache0
          (MemoryStore.mkMem [] [] [] [] [] 1 1700000100000) [].

Lemma fetched_project_refreshes_pool_witness :
  fst (getProjectById (project_store [website; audit]) (Some (js "p1"))
                      project_world)
  = Returned (Some website)
  /\ fst (getProjectById (project_store [website; audit]) (Some (js "p2"))
                         (snd (getProjectById (project_store [website; audit])
                                 (Some (js "p1")) project_world)))
     = Returned (Some audit)
  /\ trace (snd (getProjectById (project_store [website; audit])
                                (Some (js "p2"))
                                (snd (getProjectById
                                        (project_store [website; audit])
                                        (Some (js "p1")) project_world))))
     = [Ev (ProjectsSelectEqId (js "p1"))].
Proof.
  destruct (@fetched_project_refreshes_pool _ (project_store [website; audit])
              project_world (js "p1") website
              (MemoryStore.advance 1 (env project_world)))
    as (Hrun & Hserved).
  - reflexivity.
  - reflexivity.
  - reflexivity.
  - rewrite Hrun. cbn [fst snd]. split; [reflexivity |].
    rewrite (Hserved _ (js "p2") audit eq_refl); [| reflexivity ..].
    split; reflexivity.
Defined.

Lemma projects_of_client_are_always_fetched_witness :
  first_call (ProjectsSelectEqClientId (js "41"))
    (getProjectsForClient (project_store [website; audit]) (Some (js "41")))
    (snd (getProjectsForClient (project_store [website; audit])
                               (Some (js "41")) project_world))
  /\ fst (getProjectsForClient (project_store [website; audit])
                               (Some (js "41")) project_world)
     = Returned [website; audit].
Proof.
  split.
  - apply (@projects_of_client_are_always_fetched _
             (project_store [website; audit])). reflexivity.
  - destruct (@projects_of_client_are_always_fetched _
                (project_store [website; audit]) project_world (js "41")
                eq_refl) as (_ & Hrows).
    destruct (Hrows [website; audit]
                    (MemoryStore.advance 1 (env project_world)))
      as (Hrun & _); [discriminate | reflexivity |].
    rewrite Hrun. reflexivity.
Defined.

End ProjectCache.

(** ** What an operation ensures of its result *)

Module Ensures.

Section Ensures.
Variable E : Type.
Variable Out : Environment E.








End Ensures.

End Ensures.

(** ** Feedback: the statistics and what the store refuses *)

Module FeedbackMore.

Import FeedbackHandler Frames Returns Ensures FeedbackSpec.

(** *** The statistics *)







Section FeedbackMore.
Variable E : Type.
Variable Out : Environment E.




(** *** Feedback that the store refuses *)

(** The insert of [storeFeedback] in [w]. *)
Definition feedback_insert (w : World E) (id rating comment : jsstring)
    (userId : option jsstring) : Ext (Response Feedback) :=
  FeedbackInsert (feedback_row Out w id (normalized rating) comment userId).

(** The insert failed: the answer holds an error or the promise was
    rejected. *)
Definition refused (o : Outcome (Response Feedback)) : Prop :=
  match o with
  | Returned r => error r <> None
  | Threw _ => True
  end.

Lemma storeFeedback_refused (w : World E) (id rating comment : jsstring)
    (userId : option jsstring) (o : Outcome (Response Feedback)) (e1 : E) :
  truthy id = true ->
  handle Out (feedback_insert w id rating comment userId) (env w) = (o, e1) ->
  refused o ->
  storeFeedback Out (Some id) rating comment userId w
  = (Returned None, asked (feedback_insert w id rating comment userId) e1 w).
Proof.
  intros Hid Hanswer Hrefused.
  unfold storeFeedback, try_catch. cbn [opt_truthy]. rewrite Hid.
  fold (normalized rating).
  unfold bind at 1. unfold Date_now at 1.
  unfold bind at 1. unfold await at 1.
  fold (feedback_row Out w id (normalized rating) comment userId).
  fold (feedback_insert w id rating comment userId). rewrite Hanswer.
  destruct o as [r | ex]; [| reflexivity].
  simpl in Hrefused. destruct (error r); [reflexivity | now elim Hrefused].
Qed.

(** X20. When the store refuses the insert of [storeFeedback], by an
    error in its answer or by a rejected promise, [null] is returned after
    that one call: the patterns are not updated, the cached patterns are
    kept, and no analytics are written. *)
Theorem refused_feedback_changes_nothing (w : World E)
    (id rating comment : jsstring) (userId : option jsstring)
    (o : Outcome (Response Feedback)) (e1 : E) :
  truthy id = true ->
  handle Out (feedback_insert w id rating comment userId) (env w) = (o, e1) ->
  refused o ->
  let after := storeFeedback Out (Some id) rating comment userId w in
  fst after = Returned None
  /\ feedbackPatternsCache (snd after) = feedbackPatternsCache w
  /\ shortTermCache (snd after) = shortTermCache w
  /\ trace (snd after)
     = trace w ++ [Ev (feedback_insert w id rating comment userId)].
Proof.
  intros Hid Hanswer Hrefused after. unfold after.
  rewrite (storeFeedback_refused w id rating comment userId Hid Hanswer
                                 Hrefused).
  repeat split.
Qed.

(** X21. A feedback that [storeFeedback] returns is the row that the
    store gave in answer to the insert, made for a [summaryId] that is not
    empty and with the rating normalized; the cached patterns are gone by
    then. *)
Theorem returned_feedback_is_the_stored_row (w : World E)
    (summaryId : option jsstring) (rating comment : jsstring)
    (userId : option jsstring) (feedback : Feedback) :
  fst (storeFeedback Out summaryId rating comment userId w)
  = Returned (Some feedback) ->
  exists id r e1,
    summaryId = Some id
    /\ truthy id = true
    /\ handle Out (feedback_insert w id rating comment userId) (env w)
       = (Returned r, e1)
    /\ error r = None
    /\ data r = Some feedback
    /\ patterns (feedbackPatternsCache
                   (snd (storeFeedback Out summaryId rating comment userId w)))
       = None.
Proof.
  intros Hres.
  destruct (opt_truthy summaryId) as [id' |] eqn:Hsome.
  - assert (Hid : summaryId = Some id' /\ truthy id' = true).
    { destruct summaryId as [s |]; [| discriminate]. simpl in Hsome.
      destruct (truthy s) eqn:Hs; [| discriminate].
      injection Hsome as <-. now split. }
    destruct Hid as [-> Hid]. exists id'.
    destruct (handle Out (feedback_insert w id' rating comment userId) (env w))
      as [o e1] eqn:Hanswer.
    destruct o as [r | ex].
    + destruct (error r) as [err |] eqn:Herr.
      * rewrite (@storeFeedback_refused w id' rating comment userId
                   (Returned r) e1 Hid Hanswer) in Hres;
          [discriminate | simpl; congruence].
      * rewrite storeFeedback_normalized in Hres |- *.
        destruct (@storeFeedback_inserted _ Out w id' (normalized rating)
                    comment userId r e1 Hid (normalized_valid rating)
                    Hanswer Herr) as (Hfst & Hgone & _).
        exists r, e1. repeat split; try assumption; try reflexivity.
        rewrite Hfst in Hres. now injection Hres.
    + rewrite (@storeFeedback_refused w id' rating comment userId
                 (Threw ex) e1 Hid Hanswer I) in Hres. discriminate.
  - unfold storeFeedback, try_catch in Hres. rewrite Hsome in Hres.
    discriminate.
Qed.

End FeedbackMore.

Lemma refused_feedback_changes_nothing_witness :
  storeFeedback MemoryStore.memory (Some (js "no-such-summary"))
                (js "approved") (js "") None feedback_world
  = (Returned None,
     asked (feedback_insert MemoryStore.memory feedback_world
              (js "no-such-summary") (js "approved") (js "") None)
           (MemoryStore.advance 1 (env feedback_world)) feedback_world).
Proof.
  destruct (@refused_feedback_changes_nothing _ MemoryStore.memory
              feedback_world (js "no-such-summary") (js "approved") (js "")
              None
              (Returned (MemoryStore.failed "23503"
                           "insert violates foreign key constraint"))
              (MemoryStore.advance 1 (env feedback_world)))
    as (Hres & _).
  - reflexivity.
  - reflexivity.
  - discriminate.
  - reflexivity.
Defined.

Lemma returned_feedback_is_the_stored_row_witness :
  exists id r e1,
    Some (js "s1") = Some id
    /\ truthy id = true
    /\ handle MemoryStore.memory
         (feedback_insert MemoryStore.memory feedback_world id (js "bogus")
                          (js "") None)
         (env feedback_world)
       = (Returned r, e1)
    /\ error r = None
    /\ data r = Some stored_approved
    /\ patterns (feedbackPatternsCache
                   (snd (storeFeedback MemoryStore.memory (Some (js "s1"))
                           (js "bogus") (js "") None feedback_world)))
       = None.
Proof.
  apply (@returned_feedback_is_the_stored_row _ MemoryStore.memory
           feedback_world (Some (js "s1")) (js "bogus") (js "") None
           stored_approved).
  vm_compute. reflexivity.
Defined.

End FeedbackMore.

(** ** The analysis of an edit *)

Module EditAnalysis.

Import FeedbackHandler.

(** *** Tones *)









(** *** A text that was not edited *)

Lemma Qgt_bool_false a b : (a <= b)%Q -> Qgt_bool a b = false.
Proof.
  intros Hle. unfold Qgt_bool. apply negb_false_iff.
  now apply Qle_bool_iff.
Qed.

(** X23. Two equal texts show no change: [analyzeToneChange] and
    [analyzeStyleChange] both give ["unchanged"], whatever the text. *)
Theorem same_text_is_unchanged (text : jsstring) :
  analyzeToneChange text text = js "unchanged"
  /\ analyzeStyleChange text text = js "unchanged".
Proof.
  split.
  - unfold analyzeToneChange. now rewrite eqb_refl.
  - unfold analyzeStyleChange.
    rewrite (@Qgt_bool_false (Qabs (average_length (sentences text)
                                   - average_length (sentences text))) 10).
    + replace (bullets text + 2 <? bullets text)%nat with false
        by (symmetry; apply Nat.ltb_ge; lia).
      rewrite (@Qgt_bool_false (num (List.length text))
                              (num (List.length text) * (6 # 5))).
      * reflexivity.
      * unfold num, Qle. simpl. lia.
    + assert (Hz : (average_length (sentences text)
                    - average_length (sentences text) == 0)%Q) by ring.
      rewrite Hz. discriminate.
Qed.

End EditAnalysis.

(** ** Patterns computed from a failure *)

Module PatternsOfFailure.

Import FeedbackHandler Frames Returns FeedbackSpec.

(** The query of the statistics failed: the answer holds an error or the
    promise was rejected. *)
Definition query_failed (o : Outcome (Response (list Feedback))) : Prop :=
  match o with
  | Returned r => error r <> None
  | Threw _ => True
  end.

Section PatternsOfFailure.
Variable E : Type.
Variable Out : Environment E.

(** The query of [getFeedbackStats] for the last [days] days in [w]. *)
Definition stats_query (days : nat) (w : World E)
  : Ext (Response (list Feedback)) :=
  FeedbackSelectSince (clock Out (env w) - Z.of_nat days * MS_PER_DAY).

Lemma getFeedbackStats_failed (w : World E) days o e1 :
  handle Out (stats_query days w) (env w) = (o, e1) ->
  query_failed o ->
  getFeedbackStats Out days w
  = (Returned no_stats, asked (stats_query days w) e1 w).
Proof.
  intros Hanswer Hfailed.
  unfold getFeedbackStats, try_catch.
  unfold bind at 1. unfold Date_now at 1.
  unfold bind at 1. unfold await at 1.
  fold (stats_query days w). rewrite Hanswer.
  destruct o as [r | ex]; [| reflexivity].
  simpl in Hfailed. destruct (error r); [reflexivity | now elim Hfailed].
Qed.

(** X24. A failure of the store is cached as if it were an answer. When
    no patterns are cached and the query of the statistics fails,
    [getFeedbackPatterns] returns patterns whose rates are 0 and whose
    tables are empty, and puts them in the cache: a call made in a world
    with that cache, less than the time to live after, returns them again
    without asking the store. *)
Theorem failed_statistics_are_cached (w : World E)
    (o : Outcome (Response (list Feedback))) (e1 : E) :
  patterns (feedbackPatternsCache w) = None ->
  handle Out (stats_query 30 w) (env w) = (o, e1) ->
  query_failed o ->
  exists p,
    fst (getFeedbackPatterns Out w) = Returned p
    /\ approvalRate p = 0%Q /\ editRate p = 0%Q /\ rejectionRate p = 0%Q
    /\ sources p = [] /\ timeDistribution p = []
    /\ forall w2,
        feedbackPatternsCache w2
        = feedbackPatternsCache (snd (getFeedbackPatterns Out w)) ->
        clock Out (env w2)
        - fpc_lastUpdated (feedbackPatternsCache w2)
        < ttl (feedbackPatternsCache w2) ->
        getFeedbackPatterns Out w2 = (Returned p, w2).
Proof.
  intros Hnone Hanswer Hfailed.
  assert (Hrun : exists p w',
             getFeedbackPatterns Out w = (Returned p, w')
             /\ patterns (feedbackPatternsCache w') = Some p
             /\ approvalRate p = 0%Q /\ editRate p = 0%Q
             /\ rejectionRate p = 0%Q
             /\ sources p = [] /\ timeDistribution p = []).
  { rewrite (getFeedbackPatterns_miss Out w Hnone).
    unfold compute_patterns. unfold bind at 1.
    rewrite (getFeedbackStats_failed w 30 Hanswer Hfailed).
    unfold bind at 1.
    match goal with
    | |- context [try_catch ?m ?h ?w1] =>
        set (block := try_catch m h); set (w1' := w1)
    end.
    assert (Hret : returns block) by (unfold block; returns_tac).
    destruct (Hret w1') as [rows Hrows].
    destruct (block w1') as [o2 w2]. simpl in Hrows. subst o2.
    unfold bind, Date_now, get_patterns_cache, put_patterns_cache, ret.
    eexists. eexists. split; [reflexivity |]. repeat split. }
  destruct Hrun as (p & w' & Hrun & Hcached & Ha & He & Hr & Hs & Ht).
  exists p. rewrite Hrun. cbn [fst snd]. split; [reflexivity |].
  repeat (split; [assumption |]).
  intros w2 Hcache Hfresh.
  apply getFeedbackPatterns_hit; [now rewrite Hcache | exact Hfresh].
Qed.

End PatternsOfFailure.

Lemma failed_statistics_are_cached_witness :
  exists p,
    fst (getFeedbackPatterns unreachable feedback_world) = Returned p
    /\ approvalRate p = 0%Q
    /\ getFeedbackPatterns unreachable
         (minute_later (snd (getFeedbackPatterns unreachable feedback_world)))
       = (Returned p,
          minute_later (snd (getFeedbackPatterns unreachable feedback_world))).
Proof.
  destruct (@failed_statistics_are_cached _ unreachable feedback_world
              (Threw (JsError (js "fetch failed")))
              (MemoryStore.advance 1 (env feedback_world)))
    as (p & Hres & Hrate & _ & _ & _ & _ & Hagain).
  - reflexivity.
  - reflexivity.
  - exact I.
  - exists p. split; [exact Hres |]. split; [exact Hrate |].
    apply Hagain; [reflexivity |]. vm_compute. reflexivity.
Defined.

End PatternsOfFailure.

(** ** The request to the model, in every world *)

Module RequestLoop.

Import FetchHarvest Frames Returns ModelRequest.

Section RequestLoop.
Variable E : Type.
Variable Out : Environment E.
Variable JSON_parse : jsstring -> option Json.
Variable AI_MODEL : option jsstring.

(** The loop of the request, whatever the endpoint does. *)
Lemma request_loop_trace req (w : World E) :
  exists k,
    In k [1; 3; 5]%nat
    /\ trace (snd (request_loop Out maxRetries req 0 w))
       = trace w ++ firstn k (three_attempts req).
Proof.
  unfold maxRetries, three_attempts.
  cbn [request_loop Nat.ltb Nat.leb maxRetries].
  unfold bind, try_catch, await, sleep, ret, throw.
  cbn [env trace shortTermCache feedbackPatternsCache].
  destruct (handle Out (AxiosPost req) (env w)) as [[c1 | x1] e1].
  { exists 1%nat. split; [now left | reflexivity]. }
  cbn [Nat.leb maxRetries env trace shortTermCache feedbackPatternsCache snd].
  change (1000 * 2 ^ Z.of_nat 1) with 2000.
  destruct (handle Out (AxiosPost req) (elapse Out 2000 e1)) as [[c2 | x2] e2].
  { exists 3%nat. split; [right; now left |].
    cbn [snd trace firstn]. now rewrite <- !app_assoc. }
  cbn [Nat.leb maxRetries env trace shortTermCache feedbackPatternsCache snd].
  change (1000 * 2 ^ Z.of_nat 2) with 4000.
  destruct (handle Out (AxiosPost req) (elapse Out 4000 e2)) as [[c3 | x3] e3];
    exists 5%nat; (split; [right; right; now left |]);
    cbn [snd trace firstn Nat.leb maxRetries]; now rewrite <- !app_assoc.
Qed.

(** X25. In every world and whatever the endpoint does, [processWithAI]
    makes one, two or three requests and no more, with a wait of 2 seconds
    before the second and of 4 seconds before the third: what it adds to
    the trace after the patterns were read is the first, the first three or
    all five of the steps of [three_attempts]. *)
Theorem at_most_three_requests (w : World E)
    (promptTemplate data_json : jsstring) :
  let w1 := snd (FeedbackHandler.getFeedbackPatterns Out w) in
  let req := request_in Out AI_MODEL w promptTemplate data_json in
  exists k,
    In k [1; 3; 5]%nat
    /\ trace (snd (processWithAI Out JSON_parse AI_MODEL promptTemplate
                                 data_json w))
       = trace w1 ++ firstn k (three_attempts req).
Proof.
  intros w1 req. rewrite processWithAI_run. fold w1 req.
  destruct (request_loop_trace req w1) as (k & Hk & Htrace).
  exists k. split; [exact Hk |].
  destruct (request_loop Out maxRetries req 0 w1) as [[response | ex] w2];
    [| exact Htrace].
  pose proof (parse_response_world JSON_parse response w2) as Hw.
  destruct (parse_response JSON_parse response w2) as [[v | ex] w3];
    simpl in Hw; subst w3; exact Htrace.
Qed.

(** X26. When the endpoint answers the first request and the content of
    the first choice is a text that [JSON.parse] accepts, the value read is
    returned as it is, whatever its shape, after that one request and no
    wait. A content that is [null] is read as the text ["null"]. *)
Theorem json_answer_is_returned_as_is (w : World E)
    (promptTemplate data_json : jsstring) (completion : ChatCompletion)
    (content : Content) (others : list Content) (value : Json) (e1 : E) :
  let w1 := snd (FeedbackHandler.getFeedbackPatterns Out w) in
  let req := request_in Out AI_MODEL w promptTemplate data_json in
  handle Out (AxiosPost req) (env w1) = (Returned completion, e1) ->
  choices completion = content :: others ->
  JSON_parse (content_string content) = Some value ->
  processWithAI Out JSON_parse AI_MODEL promptTemplate data_json w
  = (Returned value, with_env e1 [Ev (AxiosPost req)] w1).
Proof.
  intros w1 req Hanswer Hchoices Hparse.
  rewrite processWithAI_run. fold w1 req.
  rewrite (request_loop_first_time Out req w1 Hanswer).
  unfold parse_response. now rewrite Hchoices, Hparse.
Qed.

(** X27. Every error that [processWithAI] throws is an error caught in it
    and thrown again: its message starts with ["AI processing failed: "]. *)
Theorem every_failure_is_wrapped (w : World E)
    (promptTemplate data_json : jsstring) (thrown : Exn) :
  fst (processWithAI Out JSON_parse AI_MODEL promptTemplate data_json w)
  = Threw thrown ->
  exists ex,
    thrown = failed ex
    /\ exn_message thrown = js "AI processing failed: " ++ exn_message ex.
Proof.
  rewrite processWithAI_run.
  destruct (request_loop _ _ _ _ _) as [[response | ex] w2].
  - destruct (parse_response JSON_parse response w2) as [[v | ex] w3];
      [discriminate |].
    intros Hthrown. injection Hthrown as <-. now exists ex.
  - intros Hthrown. injection Hthrown as <-. now exists ex.
Qed.

End RequestLoop.

Lemma json_answer_is_returned_as_is_witness :
  fst (processWithAI MemoryStore.memory JsonText.parse None template (js "[]")
                     (endpoint_world [completion_of json_text]))
  = Returned quiet_summary
  /\ fst (processWithAI MemoryStore.memory JsonText.parse None template
                        (js "[]")
                        (endpoint_world
                           [Returned (mkChatCompletion [ContentNull] None)]))
     = Returned JNull.
Proof.
  split.
  - rewrite (@json_answer_is_returned_as_is _ MemoryStore.memory
               JsonText.parse None (endpoint_world [completion_of json_text])
               template (js "[]")
               (mkChatCompletion [ContentText json_text] (Some 321%N))
               (ContentText json_text) [] quiet_summary
               (snd (handle MemoryStore.memory
                       (AxiosPost
                          (request_in MemoryStore.memory None
                             (endpoint_world [completion_of json_text])
                             template (js "[]")))
                       (env (snd (FeedbackHandler.getFeedbackPatterns
                                    MemoryStore.memory
                                    (endpoint_world
                                       [completion_of json_text])))))));
      reflexivity.
  - rewrite (@json_answer_is_returned_as_is _ MemoryStore.memory
               JsonText.parse None
               (endpoint_world [Returned (mkChatCompletion [ContentNull] None)])
               template (js "[]")
               (mkChatCompletion [ContentNull] None)
               ContentNull [] JNull
               (snd (handle MemoryStore.memory
                       (AxiosPost
                          (request_in MemoryStore.memory None
                             (endpoint_world
                                [Returned (mkChatCompletion [ContentNull] None)])
                             template (js "[]")))
                       (env (snd (FeedbackHandler.getFeedbackPatterns
                                    MemoryStore.memory
                                    (endpoint_world
                                       [Returned (mkChatCompletion
                                                    [ContentNull] None)])))))));
      reflexivity.
Defined.

Lemma every_failure_is_wrapped_witness :
  exists ex,
    failed (gave_up (JsError (js "Network Error"))) = failed ex
    /\ exn_message (failed (gave_up (JsError (js "Network Error"))))
       = js "AI processing failed: " ++ exn_message ex.
Proof.
  apply (@every_failure_is_wrapped _ MemoryStore.memory JsonText.parse None
           (endpoint_world []) template (js "[]")).
  vm_compute. reflexivity.
Defined.

End RequestLoop.

(** ** The prompt *)

Module Prompt.

Import FetchHarvest.

Lemma prefix_by_split p : forall s,
  prefix_by N.eqb p s = true -> s = p ++ skipn (List.length p) s.
Proof.
  induction p as [| a p' IH]; intros s Hp; [reflexivity |].
  destruct s as [| b s']; [discriminate |].
  simpl in Hp. apply andb_true_iff in Hp. destruct Hp as [Hab Hrest].
  apply N.eqb_eq in Hab. subst b. simpl. f_equal. now apply IH.
Qed.

(** The leftmost occurrence of [p] in [s] cuts [s] in two. *)
Lemma first_occurrence p s after :
  after_first N.eqb p s = Some after ->
  s = before_first N.eqb p s ++ p ++ after.
Proof.
  induction s as [| c rest IH]; simpl.
  - destruct (prefix_by N.eqb p []) eqn:Hp; [| discriminate].
    intros Hsome. injection Hsome as <-.
    now rewrite <- (prefix_by_split p [] Hp).
  - destruct (prefix_by N.eqb p (c :: rest)) eqn:Hp.
    + intros Hsome. injection Hsome as <-. simpl.
      now apply prefix_by_split.
    + intros Hsome. simpl. f_equal. now apply IH.
Qed.

Lemma no_occurrence p s :
  contains p s = false -> after_first N.eqb p s = None.
Proof.
  induction s as [| c rest IH]; simpl.
  - rewrite orb_false_r. now intros ->.
  - intros Hc. apply orb_false_iff in Hc. destruct Hc as [Hp Hrest].
    rewrite Hp. now apply IH.
Qed.

Lemma some_occurrence p s :
  contains p s = true -> exists after, after_first N.eqb p s = Some after.
Proof.
  induction s as [| c rest IH]; simpl.
  - rewrite orb_false_r. intros ->. now eexists.
  - destruct (prefix_by N.eqb p (c :: rest)); [now eexists |].
    simpl. exact IH.
Qed.

Lemma prefix_by_app p : forall x y,
  prefix_by N.eqb p x = true -> prefix_by N.eqb p (x ++ y) = true.
Proof.
  induction p as [| a p' IH]; intros x y Hp; [reflexivity |].
  destruct x as [| b x']; [discriminate |].
  simpl in *. apply andb_true_iff in Hp. destruct Hp as [Hab Hrest].
  rewrite Hab. now apply IH.
Qed.

Lemma before_first_is_prefix p s :
  exists tail, s = before_first N.eqb p s ++ tail.
Proof.
  induction s as [| c rest [tail IH]]; simpl.
  - exists []. now destruct (prefix_by N.eqb p []).
  - destruct (prefix_by N.eqb p (c :: rest)).
    + now exists (c :: rest).
    + exists tail. simpl. now f_equal.
Qed.

(** There is no occurrence of [p] before its leftmost occurrence. *)
Lemma before_first_clean p s :
  p <> [] -> contains p (before_first N.eqb p s) = false.
Proof.
  intros Hp. assert (Hnil : contains p [] = false).
  { destruct p; [now elim Hp | reflexivity]. }
  induction s as [| c rest IH]; simpl.
  - now destruct (prefix_by N.eqb p []).
  - destruct (prefix_by N.eqb p (c :: rest)) eqn:Hpre; [exact Hnil |].
    cbn [contains]. rewrite IH, orb_false_r.
    destruct (prefix_by N.eqb p (c :: before_first N.eqb p rest)) eqn:Hb;
      [| reflexivity].
    destruct (before_first_is_prefix p rest) as [tail Htail].
    apply (prefix_by_app _ _ tail) in Hb. simpl in Hb.
    rewrite <- Htail in Hb. congruence.
Qed.

(** A replacement without a dollar sign stands for itself. *)
Lemma substitution_plain matched before after r :
  existsb (N.eqb 36) r = false ->
  substitution matched before after r = r.
Proof.
  induction r as [| c rest IH]; intros Hplain; [reflexivity |].
  cbn [existsb] in Hplain. apply orb_false_iff in Hplain.
  destruct Hplain as [Hc Hrest]. cbn [substitution].
  rewrite N.eqb_sym in Hc. rewrite Hc. f_equal. now apply IH.
Qed.

(** X28. The prompt of [processWithAI]. Data without a dollar sign are put
    in the place of the leftmost [{{DATA}}] of the template, and only
    there; a template without [{{DATA}}] is the prompt as it is, so the
    data are not in the request. *)
Theorem data_fill_the_first_placeholder (promptTemplate data_json : jsstring) :
  existsb (N.eqb 36) data_json = false ->
  (contains (js "{{DATA}}") promptTemplate = false ->
   replace (js "{{DATA}}") data_json promptTemplate = promptTemplate)
  /\ (contains (js "{{DATA}}") promptTemplate = true ->
      exists before after,
        promptTemplate = before ++ js "{{DATA}}" ++ after
        /\ contains (js "{{DATA}}") before = false
        /\ replace (js "{{DATA}}") data_json promptTemplate
           = before ++ data_json ++ after).
Proof.
  intros Hplain. split.
  - intros Hnone. unfold replace. now rewrite (no_occurrence _ _ Hnone).
  - intros Hsome. destruct (some_occurrence _ _ Hsome) as [after Hafter].
    exists (before_first N.eqb (js "{{DATA}}") promptTemplate), after.
    split; [now apply first_occurrence |]. split.
    + now apply before_first_clean.
    + unfold replace. rewrite Hafter.
      now rewrite (substitution_plain _ _ _ _ Hplain).
Qed.

Lemma data_fill_the_first_placeholder_witness :
  replace (js "{{DATA}}") (js "[1, 2]") (js "Summarize {{DATA}} and {{DATA}}")
  = js "Summarize [1, 2] and {{DATA}}"
  /\ replace (js "{{DATA}}") (js "[1, 2]") (js "Summarize this")
     = js "Summarize this".
Proof.
  destruct (@data_fill_the_first_placeholder
              (js "Summarize this") (js "[1, 2]") eq_refl)
    as (Hplain & _).
  split; [vm_compute; reflexivity | now apply Hplain].
Defined.

End Prompt.

(** ** From an edit to its analysis *)

Module EditIsAnalysed.

Import FeedbackHandler FeedbackSpec.




Section EditIsAnalysed.
Variable E : Type.
Variable Out : Environment E.


End EditIsAnalysed.


End EditIsAnalysed.
